(** * MahjongSoulRankAnalysis: the fetcher (main.py) and the report
      commands (analysis.py), embedded and verified.

    The Python functions are embedded as Rocq functions of the same name.
    Exceptions are values of an error monad, the SQLite table is a list of
    rows of cells, the mutable [argparse.Namespace] of analysis.py and the
    set of identifiers seen during a run are threaded as explicit state, and
    the remote API is a function argument of the pagination loop. *)

From Stdlib Require Import ZArith List String Ascii Bool Lia Permutation Sorted.
From Stdlib Require Import Floats.SpecFloat.
From Stdlib Require DecimalString DecimalZ DecimalPos.
From stdpp Require Import base list.
Import ListNotations.

Set Warnings "-register-all".

Local Open Scope string_scope.
Local Open Scope list_scope.
Local Open Scope Z_scope.

(** ** Python values and exceptions *)

(** The exceptions the two scripts can meet.  All of them derive from
    [Exception]; [SqliteError] stands for the classes of [sqlite3.Error]. *)
Inductive exn :=
| AttributeError | KeyError | IndexError | TypeError | ValueError
| OverflowError | SqliteError.

Inductive exc (A : Type) :=
| Ok (a : A)
| Raise (e : exn).
Arguments Ok {A} a.
Arguments Raise {A} e.

Definition bind {A B} (c : exc A) (k : A -> exc B) : exc B :=
  match c with
  | Ok a => k a
  | Raise e => Raise e
  end.

Notation "'let*' x ':=' c 'in' k" := (bind c (fun x => k))
  (at level 10, x pattern, c at level 100, k at level 200).

(** What [json.loads] returns.  A [dict] is kept as its list of items (the
    keys of a dict are distinct); a [str] is a Rocq string; a [float] is its
    IEEE 754 value. *)
Inductive json :=
| JNull
| JBool (b : bool)
| JInt (z : Z)
| JFloat (f : spec_float)
| JStr (s : string)
| JArr (l : list json)
| JObj (items : list (string * json)).

(** Truth value of a Python object, as tested by [not x] and [x or y]. *)
Definition truthy (v : json) : bool :=
  match v with
  | JNull => false
  | JBool b => b
  | JInt z => negb (z =? 0)
  | JFloat (S754_zero _) => false
  | JFloat _ => true
  | JStr s => negb (String.eqb s "")
  | JArr l => match l with [] => false | _ => true end
  | JObj items => match items with [] => false | _ => true end
  end.

Definition is_none (v : json) : bool :=
  match v with JNull => true | _ => false end.

Definition is_dict (v : json) : bool :=
  match v with JObj _ => true | _ => false end.

Fixpoint lookup_key (k : string) (items : list (string * json)) : option json :=
  match items with
  | [] => None
  | (k', v) :: rest => if String.eqb k k' then Some v else lookup_key k rest
  end.

(** [d.get(k, default)]: only a dict has the method. *)
Definition dict_get (d : json) (k : string) (default : json) : exc json :=
  match d with
  | JObj items =>
      match lookup_key k items with
      | Some v => Ok v
      | None => Ok default
      end
  | _ => Raise AttributeError
  end.

(** [d[k]] with a string key. *)
Definition getitem_key (d : json) (k : string) : exc json :=
  match d with
  | JObj items =>
      match lookup_key k items with
      | Some v => Ok v
      | None => Raise KeyError
      end
  | _ => Raise TypeError
  end.

(** [len(x)]. *)
Definition py_len (v : json) : exc nat :=
  match v with
  | JStr s => Ok (String.length s)
  | JArr l => Ok (List.length l)
  | JObj items => Ok (List.length items)
  | _ => Raise TypeError
  end.

(** [x[i]] with a non-negative integer index: an element of a list, a
    one-character string of a str, [KeyError] on a dict whose keys are all
    strings. *)
Definition getitem_index (v : json) (i : nat) : exc json :=
  match v with
  | JArr l =>
      match nth_error l i with
      | Some x => Ok x
      | None => Raise IndexError
      end
  | JStr s =>
      match String.get i s with
      | Some c => Ok (JStr (String c ""))
      | None => Raise IndexError
      end
  | JObj _ => Raise KeyError
  | _ => Raise TypeError
  end.

(** [int(f)] for a float: truncation toward zero. *)
Definition float_to_int (f : spec_float) : exc Z :=
  match f with
  | S754_zero _ => Ok 0
  | S754_finite s m e =>
      let a := if 0 <=? e then Z.pos m * 2 ^ e else Z.pos m / 2 ^ (- e) in
      Ok (if s then - a else a)
  | S754_infinity _ => Raise OverflowError
  | S754_nan => Raise ValueError
  end.

Section Program.

(** [int(s)] for a str [s]; [None] is [ValueError].  The builtin's parser is
    not part of the repository. *)
Variable int_of_str : string -> option Z.

(** [int(x)]. *)
Definition py_int (v : json) : exc Z :=
  match v with
  | JInt z => Ok z
  | JBool b => Ok (if b then 1 else 0)
  | JFloat f => float_to_int f
  | JStr s =>
      match int_of_str s with
      | Some z => Ok z
      | None => Raise ValueError
      end
  | JNull | JArr _ | JObj _ => Raise TypeError
  end.

(** ** main.py *)

Definition INSERT_COLUMNS : list string :=
  [ "id"; "mode"; "startTime";
    "player1_level"; "player1_score"; "player1_gradingScore"; "player1_rank";
    "player2_level"; "player2_score"; "player2_gradingScore"; "player2_rank";
    "player3_level"; "player3_score"; "player3_gradingScore"; "player3_rank";
    "player4_level"; "player4_score"; "player4_gradingScore"; "player4_rank" ].

Definition to_ms (x : Z) : Z :=
  if 10 ^ 12 <=? x then x else x * 1000.

Definition to_seconds (x : Z) : Z :=
  if 10 ^ 12 <=? x then x / 1000 else x.

(** *** extract_row *)

(** The tuple [extract_row] returns: [(gid, mode, start_time_sec, *vals)]. *)
Record row := Row {
  row_id : json;
  row_mode : Z;
  row_start : Z;
  row_vals : list Z
}.

(** Order on the pairs [(-score, i)]: Python compares tuples
    lexicographically. *)
Definition tuple_lt (a b : Z * Z) : bool :=
  (fst a <? fst b) || ((fst a =? fst b) && (snd a <? snd b)).

(** [sorted(xs, key=key)]: a stable sort that compares keys with [<]. *)
Fixpoint insert_sorted {A} (key : A -> Z * Z) (x : A) (l : list A) : list A :=
  match l with
  | [] => [x]
  | y :: l' =>
      if tuple_lt (key x) (key y) then x :: y :: l'
      else y :: insert_sorted key x l'
  end.

Definition sorted {A} (xs : list A) (key : A -> Z * Z) : list A :=
  fold_left (fun acc x => insert_sorted key x acc) xs [].

(** [enumerate(l)]. *)
Definition enumerate {A} (l : list A) : list (nat * A) :=
  combine (seq 0 (List.length l)) l.

(** Lines 242-248: the placement ranks of the four scores.  The four indices
    are in range of the four-element lists. *)
Definition tie_keys (scores : list Z) : list (Z * Z) :=
  map (fun i => (- nth i scores 0, Z.of_nat i)) (seq 0 4).

Definition rank_order (scores : list Z) : list nat :=
  sorted (seq 0 4) (fun i => nth i (tie_keys scores) (0, 0)).

Definition compute_ranks (scores : list Z) : list Z :=
  fold_left (fun ranks '(pos, idx) => <[idx := Z.of_nat pos + 1]> ranks)
            (enumerate (rank_order scores)) [0; 0; 0; 0].

(** Lines 233-237: one player's three metrics. *)
Definition player_metrics (players : json) (i : nat) : exc (Z * Z * Z) :=
  let* p := getitem_index players i in
  let* lv := dict_get p "level" (JInt 0) in
  let* level := py_int lv in
  let* sv := dict_get p "score" (JInt 0) in
  let* score := py_int sv in
  let* gv := dict_get p "gradingScore" (JInt 0) in
  let* grade := py_int gv in
  Ok (level, score, grade).

Fixpoint all_metrics (players : json) (idxs : list nat) : exc (list (Z * Z * Z)) :=
  match idxs with
  | [] => Ok []
  | i :: rest =>
      let* m := player_metrics players i in
      let* ms := all_metrics players rest in
      Ok (m :: ms)
  end.

(** [game.get("_id") or game.get("uuid")]. *)
Definition game_id (game : json) : exc json :=
  let* a := dict_get game "_id" JNull in
  if truthy a then Ok a else dict_get game "uuid" JNull.

(** Line 221. *)
Definition resolve_mode (game : json) (mode_override : option Z) : exc (option Z) :=
  let* m := dict_get game "modeId" JNull in
  if is_none m then Ok mode_override
  else let* z := py_int m in Ok (Some z).

(** Line 225. *)
Definition resolve_start_time (game : json) : exc Z :=
  let* st := dict_get game "startTime" JNull in
  let* v := if is_none st then getitem_key game "endTime" else Ok st in
  py_int v.

Definition interleave (metrics : list (Z * Z * Z)) (ranks : list Z) : list Z :=
  flat_map (fun '((level, score, grade), rank) => [level; score; grade; rank])
           (combine metrics ranks).

(** The body of the [try] block: [Ok None] is [return None]. *)
Definition extract_row_body (game : json) (mode_override : option Z)
  : exc (option row) :=
  let* gid := game_id game in
  if negb (truthy gid) then Ok None else
  let* mode := resolve_mode game mode_override in
  match mode with
  | None => Ok None
  | Some mode =>
      let* start_time_sec := resolve_start_time game in
      let* pv := dict_get game "players" JNull in
      let players := if truthy pv then pv else JArr [] in
      let* n := py_len players in
      if negb (Nat.eqb n 4) then Ok None else
      let* metrics := all_metrics players (seq 0 4) in
      let scores := map (fun m => snd (fst m)) metrics in
      let ranks := compute_ranks scores in
      Ok (Some (Row gid mode start_time_sec (interleave metrics ranks)))
  end.

(** [except Exception: return None]. *)
Definition extract_row (game : json) (mode_override : option Z) : option row :=
  match extract_row_body game mode_override with
  | Ok r => r
  | Raise _ => None
  end.

(** *** The games table *)

(** A cell of the table.  The fetcher stores the identifier in a TEXT column
    and Python integers in INTEGER columns, so the table holds TEXT and
    INTEGER cells, and NULL where a legacy table has it. *)
Inductive sqlval :=
| SNull
| SInt (z : Z)
| SText (s : string).

Definition dbrow := list sqlval.

(** A table: its column names in [PRAGMA table_info] order and its rows, each
    with one cell per column.  Every version of the games table declares [id]
    as TEXT PRIMARY KEY and the other columns as INTEGER, so a cell copied
    between columns of the same name is stored as it is. *)
Record table := Table {
  t_cols : list string;
  t_rows : list dbrow
}.

(** Comparison of two cells; [None] is SQL's unknown.  INTEGER sorts before
    TEXT, and TEXT compares byte-wise. *)
Definition sql_compare (a b : sqlval) : option comparison :=
  match a, b with
  | SNull, _ | _, SNull => None
  | SInt x, SInt y => Some (x ?= y)
  | SInt _, SText _ => Some Lt
  | SText _, SInt _ => Some Gt
  | SText s, SText t => Some (String.compare s t)
  end.

Definition sql_gt (a b : sqlval) : bool :=
  match sql_compare a b with Some Gt => true | _ => false end.

Definition sql_eq (a b : sqlval) : bool :=
  match sql_compare a b with Some Eq => true | _ => false end.

Definition sql_ge (a b : sqlval) : bool :=
  match sql_compare a b with Some Gt | Some Eq => true | _ => false end.

Definition sql_le (a b : sqlval) : bool :=
  match sql_compare a b with Some Lt | Some Eq => true | _ => false end.

Definition mem_str (c : string) (l : list string) : bool :=
  existsb (String.eqb c) l.

(** [a == b] on two lists of str. *)
Fixpoint cols_eqb (a b : list string) : bool :=
  match a, b with
  | [], [] => true
  | x :: a', y :: b' => String.eqb x y && cols_eqb a' b'
  | _, _ => false
  end.

Fixpoint index_of (c : string) (cols : list string) : nat :=
  match cols with
  | [] => 0%nat
  | c' :: rest => if String.eqb c c' then 0%nat else S (index_of c rest)
  end.

(** The cell of row [r] in column [c]. *)
Definition cell (cols : list string) (r : dbrow) (c : string) : sqlval :=
  nth (index_of c cols) r SNull.

(** *** ensure_schema *)

(** [(CASE WHEN a > b THEN 1 ELSE 0 END)] and its [=] twin, over two column
    names. *)
Inductive case_term :=
| CaseGt (a b : string)
| CaseEq (a b : string).

(** An entry of [select_cols]: a column name, or the text [rank_expr]
    builds, [(1 + t1 + ... + tn)], kept as the list of its terms (with no
    term the text is [(1 + 0)]). *)
Inductive select_item :=
| SelCol (c : string)
| SelSum (terms : list case_term).

Definition score_columns : list string :=
  ["player1_score"; "player2_score"; "player3_score"; "player4_score"].

(** Lines 141-150; [player_idx] is 1..4. *)
Definition rank_expr (player_idx : nat) : select_item :=
  let s := score_columns in
  let i := (player_idx - 1)%nat in
  let gt_terms :=
    map (fun j => CaseGt (nth j s "") (nth i s ""))
        (List.filter (fun j => negb (Nat.eqb j i)) (seq 0 4)) in
  let eq_terms :=
    map (fun j => CaseEq (nth j s "") (nth i s "")) (seq 0 i) in
  SelSum (gt_terms ++ eq_terms).

Definition rank_or_expr (existing_set : list string) (c : string) (player_idx : nat)
  : select_item :=
  if mem_str c existing_set then SelCol c else rank_expr player_idx.

(** Lines 152-158. *)
Definition select_cols (existing_set : list string) : list select_item :=
  [ SelCol "id"; SelCol "mode"; SelCol "startTime";
    SelCol "player1_level"; SelCol "player1_score"; SelCol "player1_gradingScore";
    rank_or_expr existing_set "player1_rank" 1;
    SelCol "player2_level"; SelCol "player2_score"; SelCol "player2_gradingScore";
    rank_or_expr existing_set "player2_rank" 2;
    SelCol "player3_level"; SelCol "player3_score"; SelCol "player3_gradingScore";
    rank_or_expr existing_set "player3_rank" 3;
    SelCol "player4_level"; SelCol "player4_score"; SelCol "player4_gradingScore";
    rank_or_expr existing_set "player4_rank" 4 ].

Definition term_columns (t : case_term) : list string :=
  match t with
  | CaseGt a b => [a; b]
  | CaseEq a b => [a; b]
  end.

Definition item_columns (it : select_item) : list string :=
  match it with
  | SelCol c => [c]
  | SelSum terms => flat_map term_columns terms
  end.

Definition eval_term (cols : list string) (r : dbrow) (t : case_term) : Z :=
  match t with
  | CaseGt a b => if sql_gt (cell cols r a) (cell cols r b) then 1 else 0
  | CaseEq a b => if sql_eq (cell cols r a) (cell cols r b) then 1 else 0
  end.

Definition eval_item (cols : list string) (r : dbrow) (it : select_item) : sqlval :=
  match it with
  | SelCol c => cell cols r c
  | SelSum terms => SInt (fold_left (fun acc t => acc + eval_term cols r t) terms 1)
  end.

(** The primary key of [games_new]: a row whose identifier equals one already
    copied is refused.  NULL equals nothing. *)
Fixpoint ids_distinct (ids : list sqlval) : bool :=
  match ids with
  | [] => true
  | k :: rest => negb (existsb (sql_eq k) rest) && ids_distinct rest
  end.

Definition row_key (r : dbrow) : sqlval := nth 0 r SNull.

(** Lines 160-163: the row of [games_new] that the INSERT ... SELECT makes
    of a row of [games]. *)
Definition migrate_row (cols : list string) (r : dbrow) : dbrow :=
  map (eval_item cols r) (select_cols cols).

(** [ensure_schema] on the games table ([None]: there is no such table).
    A statement that fails raises, and the transaction is not committed. *)
Definition ensure_schema (games : option table) : exc (option table) :=
  match games with
  | None => Ok (Some (Table INSERT_COLUMNS []))
  | Some t =>
      let current_cols := t_cols t in
      if cols_eqb current_cols INSERT_COLUMNS then Ok (Some t)
      else
        let items := select_cols current_cols in
        if negb (forallb (fun c => mem_str c current_cols) (flat_map item_columns items))
        then Raise SqliteError
        else
          let copied := map (migrate_row current_cols) (t_rows t) in
          if ids_distinct (map row_key copied)
          then Ok (Some (Table INSERT_COLUMNS copied))
          else Raise SqliteError
  end.

(** *** insert_games *)

(** The TEXT value the [id] column holds for a bound identifier; [None] when
    [sqlite3] refuses to bind the value.  The database engine is not part of
    the repository. *)
Variable id_text : json -> option string.

Definition int64 (z : Z) : bool := (- 2 ^ 63 <=? z) && (z <? 2 ^ 63).

(** The parameters of the INSERT as [sqlite3] binds them. *)
Definition bind_row (r : row) : exc dbrow :=
  match id_text (row_id r) with
  | None => Raise SqliteError
  | Some k =>
      if forallb int64 (row_mode r :: row_start r :: row_vals r)
      then Ok (SText k :: SInt (row_mode r) :: SInt (row_start r) :: map SInt (row_vals r))
      else Raise OverflowError
  end.

(** The table holds a row whose identifier equals [k]. *)
Definition has_key (store : list dbrow) (k : sqlval) : bool :=
  existsb (fun old => sql_eq (row_key old) k) store.

(** [cur.execute(sql, row)] with INSERT OR IGNORE: the new table and
    [cur.rowcount]. *)
Definition execute_insert (store : list dbrow) (r : row) : exc (list dbrow * Z) :=
  let* cells := bind_row r in
  if has_key store (row_key cells)
  then Ok (store, 0)
  else Ok (store ++ [cells], 1).

(** The loop of [insert_games] over the rest of the batch.  With [verbose],
    the report on a rejected record calls [g.get] outside any [try]. *)
Fixpoint insert_games_loop (store : list dbrow) (games : list json)
    (mode_override : option Z) (verbose : bool) (ok skipped : Z)
  : exc (list dbrow * (Z * Z)) :=
  match games with
  | [] => Ok (store, (ok, skipped))
  | g :: rest =>
      match extract_row g mode_override with
      | None =>
          if verbose && negb (is_dict g) then Raise AttributeError
          else insert_games_loop store rest mode_override verbose ok (skipped + 1)
      | Some r =>
          match execute_insert store r with
          | Ok (store', rowcount) =>
              if 0 <? rowcount
              then insert_games_loop store' rest mode_override verbose (ok + 1) skipped
              else insert_games_loop store' rest mode_override verbose ok (skipped + 1)
          | Raise _ =>
              insert_games_loop store rest mode_override verbose ok (skipped + 1)
          end
      end
  end.

Definition insert_games (conn : list dbrow) (games : list json)
    (mode_override : option Z) (verbose : bool) : exc (list dbrow * (Z * Z)) :=
  insert_games_loop conn games mode_override verbose 0 0.

(** *** insert_games_capped *)

(** A number as Python compares it: [m * 2^e], an infinity, or NaN. *)
Inductive num :=
| Fin (m e : Z)
| Inf (negative : bool)
| NaN.

Definition as_num (v : json) : option num :=
  match v with
  | JBool b => Some (Fin (if b then 1 else 0) 0)
  | JInt z => Some (Fin z 0)
  | JFloat (S754_zero _) => Some (Fin 0 0)
  | JFloat (S754_finite s m e) => Some (Fin (if s then Z.neg m else Z.pos m) e)
  | JFloat (S754_infinity s) => Some (Inf s)
  | JFloat S754_nan => Some NaN
  | _ => None
  end.

Definition num_eqb (a b : num) : bool :=
  match a, b with
  | Fin m1 e1, Fin m2 e2 =>
      let e := Z.min e1 e2 in
      m1 * 2 ^ (e1 - e) =? m2 * 2 ^ (e2 - e)
  | Inf s1, Inf s2 => Bool.eqb s1 s2
  | _, _ => false
  end.

(** [a == b] on hashable values. *)
Definition py_eqb (a b : json) : bool :=
  match as_num a, as_num b with
  | Some x, Some y => num_eqb x y
  | _, _ =>
      match a, b with
      | JStr s, JStr t => String.eqb s t
      | JNull, JNull => true
      | _, _ => false
      end
  end.

Definition hashable (v : json) : bool :=
  match v with
  | JArr _ | JObj _ => false
  | _ => true
  end.

(** [gid in local_seen] and [local_seen.add(gid)] on the set of seen
    identifiers, kept as the list of its elements. *)
Definition seen_mem (gid : json) (seen : list json) : bool :=
  existsb (py_eqb gid) seen.

Definition seen_add (gid : json) (seen : list json) : list json :=
  if seen_mem gid seen then seen else gid :: seen.

(** What [insert_games_capped] returns, with the table and the set it
    updated in place. *)
Record capped := Capped {
  c_store : list dbrow;
  c_seen : list json;
  c_inserted : Z;
  c_skipped : Z;
  c_reached : bool;
  c_processed : Z
}.

Fixpoint insert_games_capped_loop (store : list dbrow) (games : list json)
    (mode_override : option Z) (remaining : Z) (local_seen : list json)
    (inserted skipped processed : Z) : exc capped :=
  match games with
  | [] => Ok (Capped store local_seen inserted skipped false processed)
  | g :: rest =>
      let processed := processed + 1 in
      let* gid := game_id g in
      let* dup :=
        if is_none gid then Ok false
        else if hashable gid then Ok (seen_mem gid local_seen)
        else Raise TypeError in
      if dup : bool then
        insert_games_capped_loop store rest mode_override remaining local_seen
                                 inserted (skipped + 1) processed
      else
        match extract_row g mode_override with
        | None =>
            insert_games_capped_loop store rest mode_override remaining local_seen
                                     inserted (skipped + 1) processed
        | Some r =>
            match execute_insert store r with
            | Ok (store', rowcount) =>
                let local_seen := if is_none gid then local_seen
                                  else seen_add gid local_seen in
                if 0 <? rowcount then
                  let inserted := inserted + 1 in
                  let remaining := remaining - 1 in
                  if remaining <=? 0
                  then Ok (Capped store' local_seen inserted skipped true processed)
                  else insert_games_capped_loop store' rest mode_override remaining
                                                local_seen inserted skipped processed
                else
                  insert_games_capped_loop store' rest mode_override remaining
                                           local_seen inserted (skipped + 1) processed
            | Raise _ =>
                insert_games_capped_loop store rest mode_override remaining local_seen
                                         inserted (skipped + 1) processed
            end
        end
  end.

(** [seen_ids] is the caller's set when one is passed, a fresh one
    otherwise.  [verbose] only adds prints, all on a record that is a dict. *)
Definition insert_games_capped (conn : list dbrow) (games : list json)
    (mode_override : option Z) (remaining : Z) (seen_ids : option (list json))
  : exc capped :=
  let local_seen := match seen_ids with Some s => s | None => [] end in
  insert_games_capped_loop conn games mode_override remaining local_seen 0 0 0.

(** *** fetch_and_store *)

(** Lines 494-511: the cursor of the next request, from the cursor of this
    one and the oldest start time of its page. *)
Definition next_cursor (current_end oldest_start_sec : Z) : Z :=
  let next_end_ms := to_ms oldest_start_sec - 1 in
  let current_end_sec := to_seconds current_end in
  let proposed_end_sec := to_seconds next_end_ms in
  if current_end_sec <=? proposed_end_sec then
    let fallback_next := current_end_sec * 1000 - 1000 in
    if current_end <=? fallback_next then current_end - 1000 else fallback_next
  else next_end_ms.

(** Line 487, for one record of the page. *)
Definition record_time (g : json) : exc Z :=
  let* st := dict_get g "startTime" JNull in
  let* v := if is_none st then dict_get g "endTime" (JInt 0) else Ok st in
  py_int v.

Fixpoint record_times (gs : list json) : exc (list Z) :=
  match gs with
  | [] => Ok []
  | g :: rest =>
      let* t := record_time g in
      let* ts := record_times rest in
      Ok (t :: ts)
  end.

(** Lines 486-489: [min] over the records that are dicts; [min] of no value
    is [ValueError]. *)
Definition oldest_start (data : list json) : exc Z :=
  let* ts := record_times (List.filter is_dict data) in
  match ts with
  | [] => Raise ValueError
  | t :: rest => Ok (fold_left Z.min rest t)
  end.

(** The local variables of [fetch_and_store] that live across iterations,
    the games table, and the number of requests sent so far. *)
Record run := Run {
  pages : Z;
  total_inserted : Z;
  current_end : Z;
  seen_ids : list json;
  conn : list dbrow;
  requests : nat
}.

Inductive step :=
| Continue (st : run)
| Break (st : run)
| Abort (e : exn).

Inductive outcome :=
| Done (st : run)
| Aborted (e : exn)
| OutOfFuel (st : run).

Section Run.

(** The remote API: the answer to request number [n] for the window ending
    at [end_ms] with page size [limit]; [None] when [http_get_json] raises. *)
Variable api : nat -> Z -> Z -> option json.

Variables (mode start_ms limit max_pages recent_count : Z) (verbose : bool).

(** Every page the API answers with lies in the window it was asked for:
    its oldest start time, in milliseconds, is not after the cursor. *)
Definition in_window : Prop :=
  forall n end_ms page_limit data o,
    api n end_ms page_limit = Some (JArr data) ->
    oldest_start data = Ok o ->
    to_ms o <= end_ms.

(** Lines 445-455: the request, retried once. *)
Definition fetch_page (n : nat) (end_ms page_limit : Z) : option json * nat :=
  match api n end_ms page_limit with
  | Some data => (Some data, S n)
  | None => (api (S n) end_ms page_limit, S (S n))
  end.

(** Lines 461-482: the page goes to the inserter of the run's mode. *)
Definition store_page (st : run) (data : list json) : exc (run * bool) :=
  if 0 <? recent_count then
    let remaining := Z.max 0 (recent_count - total_inserted st) in
    let* c := insert_games_capped (conn st) data (Some mode) remaining
                                  (Some (seen_ids st)) in
    Ok (Run (pages st + 1) (total_inserted st + c_inserted c) (current_end st)
            (c_seen c) (c_store c) (requests st), c_reached c)
  else
    let* r := insert_games (conn st) data (Some mode) verbose in
    let inserted := fst (snd r) in
    Ok (Run (pages st + 1) (total_inserted st + inserted) (current_end st)
            (seen_ids st) (fst r) (requests st), false).

(** One iteration of the [while] loop, lines 433-523. *)
Definition loop_body (st : run) : step :=
  let recent := 0 <? recent_count in
  let remaining := Z.max 0 (recent_count - total_inserted st) in
  if recent && (remaining <=? 0) then Break st else
  let page_limit := if recent then Z.min limit remaining else limit in
  let '(answer, n) := fetch_page (requests st) (current_end st) page_limit in
  let st := Run (pages st) (total_inserted st) (current_end st) (seen_ids st)
                (conn st) n in
  match answer with
  | Some (JArr (g :: gs)) =>
      let data := g :: gs in
      match store_page st data with
      | Raise e => Abort e
      | Ok (st, true) => Break st
      | Ok (st, false) =>
          match oldest_start data with
          | Raise ValueError => Break st
          | Raise e => Abort e
          | Ok oldest_start_sec =>
              let next_end_ms := next_cursor (current_end st) oldest_start_sec in
              if next_end_ms <? start_ms then Break st else
              let st := Run (pages st) (total_inserted st) next_end_ms (seen_ids st)
                            (conn st) (requests st) in
              if negb (max_pages =? 0) && (max_pages <=? pages st) then Break st
              else Continue st
          end
      end
  | _ => Break st
  end.

(** The [while current_end >= start_ms] loop, run for at most [fuel]
    iterations. *)
Fixpoint fetch_loop (fuel : nat) (st : run) : outcome :=
  if current_end st <? start_ms then Done st else
  match fuel with
  | O => OutOfFuel st
  | S fuel' =>
      match loop_body st with
      | Continue st' => fetch_loop fuel' st'
      | Break st' => Done st'
      | Abort e => Aborted e
      end
  end.

Definition fetch_and_store (games : option table) (end_ms : Z) (fuel : nat) : outcome :=
  match ensure_schema games with
  | Raise e => Aborted e
  | Ok None => Aborted SqliteError
  | Ok (Some t) => fetch_loop fuel (Run 0 0 end_ms [] (t_rows t) 0)
  end.

End Run.

(** ** analysis.py *)

(** The [argparse.Namespace] of the report commands.  [--mode], the two
    window bounds and [--csv] are [None] when not given. *)
Record args := Args {
  args_cmd : string;
  args_db : string;
  args_mode : option Z;
  args_start_ms : option Z;
  args_end_ms : option Z;
  args_csv : option string;
  args_level_bin : string;
  args_level_a : Z;
  args_level_b : Z
}.

(** [args.mode = m]. *)
Definition set_mode (a : args) (m : option Z) : args :=
  Args (args_cmd a) (args_db a) m (args_start_ms a) (args_end_ms a) (args_csv a)
       (args_level_bin a) (args_level_a a) (args_level_b a).

(** A conjunct of the WHERE clause with its bound parameter. *)
Inductive clause :=
| ModeEq (m : Z)
| StartGe (s : Z)
| StartLe (e : Z).

Definition where_clause (a : args) : list clause :=
  (match args_mode a with Some m => [ModeEq m] | None => [] end) ++
  (match args_start_ms a with Some s => [StartGe (s / 1000)] | None => [] end) ++
  (match args_end_ms a with Some e => [StartLe (e / 1000)] | None => [] end).

Definition clause_holds (r : dbrow) (c : clause) : bool :=
  match c with
  | ModeEq m => sql_eq (cell INSERT_COLUMNS r "mode") (SInt m)
  | StartGe s => sql_ge (cell INSERT_COLUMNS r "startTime") (SInt s)
  | StartLe e => sql_le (cell INSERT_COLUMNS r "startTime") (SInt e)
  end.

Definition compare_columns : list string :=
  [ "id"; "startTime";
    "player1_level"; "player1_score"; "player1_gradingScore"; "player1_rank";
    "player2_level"; "player2_score"; "player2_gradingScore"; "player2_rank";
    "player3_level"; "player3_score"; "player3_gradingScore"; "player3_rank";
    "player4_level"; "player4_score"; "player4_gradingScore"; "player4_rank" ].

(** [conn.execute(sql, params)] for the SELECT of the two compare
    commands. *)
Definition select_compare (conn : list dbrow) (w : list clause) : list dbrow :=
  map (fun r => map (cell INSERT_COLUMNS r) compare_columns)
      (List.filter (fun r => forallb (clause_holds r) w) conn).

Definition bucket_level (level : Z) (mode : string) : Z :=
  if String.eqb mode "level10" then (level / 10) * 10 else level.

(** [int(row[k])] on a fetched cell. *)
Definition cell_int (v : sqlval) : exc Z :=
  match v with
  | SNull => Raise TypeError
  | SInt z => Ok z
  | SText s =>
      match int_of_str s with
      | Some z => Ok z
      | None => Raise ValueError
      end
  end.

(** The dict built for one player of a fetched row. *)
Record player := Player {
  p_idx : Z;
  p_level : Z;
  p_bucket : Z;
  p_score : Z;
  p_grade : Z;
  p_rank : Z
}.

Definition row_player (level_bin : string) (r : dbrow) (i : nat) : exc player :=
  let* level := cell_int (nth (2 + i * 4) r SNull) in
  let* score := cell_int (nth (3 + i * 4) r SNull) in
  let* grade := cell_int (nth (4 + i * 4) r SNull) in
  let* rank := cell_int (nth (5 + i * 4) r SNull) in
  Ok (Player (Z.of_nat i + 1) level (bucket_level level level_bin) score grade rank).

Fixpoint row_players (level_bin : string) (r : dbrow) (idxs : list nat)
  : exc (list player) :=
  match idxs with
  | [] => Ok []
  | i :: rest =>
      let* p := row_player level_bin r i in
      let* ps := row_players level_bin r rest in
      Ok (p :: ps)
  end.

(** The six running aggregates of a comparison. *)
Record tally := Tally {
  instances : Z;
  sum_rank_diff : Z;
  sum_score_diff : Z;
  sum_grade_diff : Z;
  a_better : Z;
  b_better : Z
}.

Definition tally_pair (t : tally) (pa pb : player) : tally :=
  let diff_rank := p_rank pa - p_rank pb in
  let diff_score := p_score pa - p_score pb in
  let diff_grade := p_grade pa - p_grade pb in
  Tally (instances t + 1) (sum_rank_diff t + diff_rank)
        (sum_score_diff t + diff_score) (sum_grade_diff t + diff_grade)
        (if diff_rank <? 0 then a_better t + 1 else a_better t)
        (if diff_rank <? 0 then b_better t
         else if 0 <? diff_rank then b_better t + 1 else b_better t).

(** The pairs a row contributes, in the order of the two nested loops. *)
Definition row_pairs (level_a level_b : Z) (players : list player)
  : list (player * player) :=
  let groupA := List.filter (fun p => p_bucket p =? level_a) players in
  let groupB := List.filter (fun p => p_bucket p =? level_b) players in
  flat_map (fun pa => map (fun pb => (pa, pb)) groupB) groupA.

Fixpoint compare_rows (level_bin : string) (level_a level_b : Z)
    (rows : list dbrow) (t : tally) : exc tally :=
  match rows with
  | [] => Ok t
  | r :: rest =>
      let* players := row_players level_bin r (seq 0 4) in
      compare_rows level_bin level_a level_b rest
        (fold_left (fun t '(pa, pb) => tally_pair t pa pb)
                   (row_pairs level_a level_b players) t)
  end.

(** [num / den], Python's true division of two integers: a float, kept as
    the exact fraction. *)
Record ratio := Ratio { num_of : Z; den_of : Z }.

(** The tuple [compute_compare_summary] returns. *)
Record summary := Summary {
  s_instances : Z;
  s_a_better : Z;
  s_avg_rank_diff : ratio;
  s_avg_score_diff : ratio;
  s_avg_grade_diff : ratio;
  s_b_better : Z
}.

Definition compute_compare_summary (conn : list dbrow) (a : args)
    (level_a level_b : Z) : exc (option summary) :=
  if level_a =? level_b then Ok None else
  let rows := select_compare conn (where_clause a) in
  let* t := compare_rows (args_level_bin a) level_a level_b rows
                         (Tally 0 0 0 0 0 0) in
  if instances t =? 0 then Ok None else
  Ok (Some (Summary (instances t) (a_better t)
                    (Ratio (sum_rank_diff t) (instances t))
                    (Ratio (sum_score_diff t) (instances t))
                    (Ratio (sum_grade_diff t) (instances t))
                    (b_better t))).

(** [range(a, b)]. *)
Definition zrange (a b : Z) : list Z :=
  map (fun k => a + Z.of_nat k) (seq 0 (Z.to_nat (b - a))).

Definition level_configs : list (list Z * list Z * Z) :=
  [ (zrange 10301 10304, zrange 10301 10304 ++ zrange 10401 10404, 9);
    (zrange 10401 10404, zrange 10401 10404 ++ zrange 10501 10504, 12);
    (zrange 10501 10504, zrange 10501 10504 ++ [10701], 16);
    ([10701], zrange 10701 10721, 16) ].

(** A row written to the CSV file of compare-all: the header, or a matchup
    with its mode and summary. *)
Inductive csv_line :=
| CsvHeader
| CsvMatchup (level_a level_b mode : Z) (s : summary).

(** Lines 399-408: the two nested loops of one configuration, as the list of
    their [(level_a, level_b)] iterations.  The rows written before an
    exception stay written. *)
Fixpoint compare_pairs (conn : list dbrow) (a : args) (mode : Z)
    (pairs : list (Z * Z)) : list csv_line * exc unit :=
  match pairs with
  | [] => ([], Ok tt)
  | (level_a, level_b) :: rest =>
      if level_b <=? level_a then compare_pairs conn a mode rest else
      match compute_compare_summary conn a level_a level_b with
      | Raise e => ([], Raise e)
      | Ok None => compare_pairs conn a mode rest
      | Ok (Some s) =>
          let '(lines, r) := compare_pairs conn a mode rest in
          (CsvMatchup level_a level_b mode s :: lines, r)
      end
  end.

(** Lines 394-410, one configuration: [args.mode] is overwritten, and the
    [finally] clause puts the previous value back. *)
Definition compare_config (conn : list dbrow) (a : args)
    (cfg : list Z * list Z * Z) : args * (list csv_line * exc unit) :=
  let '(level_range_a, level_range_b, mode) := cfg in
  let prev_mode := args_mode a in
  let a := set_mode a (Some mode) in
  let out :=
    compare_pairs conn a mode
      (flat_map (fun la => map (fun lb => (la, lb)) level_range_b) level_range_a) in
  let a := set_mode a prev_mode in
  (a, out).

Fixpoint compare_configs (conn : list dbrow) (a : args)
    (cfgs : list (list Z * list Z * Z)) : args * (list csv_line * exc unit) :=
  match cfgs with
  | [] => (a, ([], Ok tt))
  | cfg :: rest =>
      let '(a, (lines, r)) := compare_config conn a cfg in
      match r with
      | Raise e => (a, (lines, Raise e))
      | Ok _ =>
          let '(a, (lines', r')) := compare_configs conn a rest in
          (a, (lines ++ lines', r'))
      end
  end.

(** [do_compare_all]: the Namespace as the command leaves it, the rows
    written to the file, and how the command ended.  [open(None, "w")] is a
    [TypeError]. *)
Definition do_compare_all (conn : list dbrow) (a : args)
  : args * (list csv_line * exc unit) :=
  match args_csv a with
  | None => (a, ([], Raise TypeError))
  | Some _ =>
      let '(a, (lines, r)) := compare_configs conn a level_configs in
      (a, (CsvHeader :: lines, r))
  end.

(** What a report command shows or does: a line on a standard stream, the
    execution of the SELECT, rows written to a CSV file, and the two lines
    that print aggregates. *)
Inductive event :=
| Stdout (line : string)
| Stderr (line : string)
| StderrError (e : exn)
| Query (w : list clause)
| CsvPairsHeader
| CsvPair (gid st : sqlval) (pa pb : player)
| CsvLine (l : csv_line)
| SummaryLine (level_a level_b : Z) (s : summary).

(** Lines 248-292: the loop over the fetched rows, with the CSV rows it
    writes when [--csv] is given. *)
Fixpoint compare_levels_rows (a : args) (rows : list dbrow) (t : tally)
  : list event * exc tally :=
  match rows with
  | [] => ([], Ok t)
  | r :: rest =>
      match row_players (args_level_bin a) r (seq 0 4) with
      | Raise e => ([], Raise e)
      | Ok players =>
          let pairs := row_pairs (args_level_a a) (args_level_b a) players in
          let t := fold_left (fun t '(pa, pb) => tally_pair t pa pb) pairs t in
          let written :=
            match args_csv a with
            | Some _ => map (fun '(pa, pb) => CsvPair (nth 0 r SNull) (nth 1 r SNull) pa pb) pairs
            | None => []
            end in
          let '(evs, res) := compare_levels_rows a rest t in
          (written ++ evs, res)
      end
  end.

Definition do_compare_levels (conn : list dbrow) (a : args) : list event * exc unit :=
  if args_level_a a =? args_level_b a then
    ([Stderr "Error: --level-a and --level-b must be different"], Ok tt)
  else
    let w := where_clause a in
    let header := match args_csv a with Some _ => [CsvPairsHeader] | None => [] end in
    let '(evs, res) := compare_levels_rows a (select_compare conn w) (Tally 0 0 0 0 0 0) in
    match res with
    | Raise e => (header ++ Query w :: evs, Raise e)
    | Ok t =>
        if instances t =? 0 then
          (header ++ Query w :: evs ++
             [Stdout "No head-to-head instances found for the provided levels and filters."],
           Ok tt)
        else
          (header ++ Query w :: evs ++
             [Stdout "level_a,level_b,instances,a_better,b_better,avg_rank_diff,avg_score_diff,avg_grade_diff";
              SummaryLine (args_level_a a) (args_level_b a)
                (Summary (instances t) (a_better t)
                         (Ratio (sum_rank_diff t) (instances t))
                         (Ratio (sum_score_diff t) (instances t))
                         (Ratio (sum_grade_diff t) (instances t))
                         (b_better t))],
           Ok tt)
    end.

(** The three other commands are arguments of the dispatcher; what they
    compute is given further on, with results of their own types. *)
Variables do_summary do_export do_rank_correlation
  : list dbrow -> args -> list event * exc unit.

(** [main] after [parse_args]: what the command showed and the exit code of
    the process. *)
Definition main (conn : list dbrow) (a : args) : list event * Z :=
  let '(evs, res) :=
    if String.eqb (args_cmd a) "summary" then do_summary conn a
    else if String.eqb (args_cmd a) "export" then do_export conn a
    else if String.eqb (args_cmd a) "rank-correlation" then do_rank_correlation conn a
    else if String.eqb (args_cmd a) "compare-levels" then do_compare_levels conn a
    else if String.eqb (args_cmd a) "compare-all" then
      let '(_, (lines, r)) := do_compare_all conn a in (map CsvLine lines, r)
    else ([], Ok tt) in
  match res with
  | Ok _ => (evs, 0)
  | Raise e => (evs ++ [StderrError e], 1)
  end.

(** ** Vocabulary of the statements *)

(** The four scores and the four ranks of a row, by their places in
    [INSERT_COLUMNS]. *)
Definition row_scores (r : row) : list Z :=
  map (fun k => nth k (row_vals r) 0) [1; 5; 9; 13]%nat.

Definition row_ranks (r : row) : list Z :=
  map (fun k => nth k (row_vals r) 0) [3; 7; 11; 15]%nat.

Definition non_rank_columns : list string :=
  [ "id"; "mode"; "startTime";
    "player1_level"; "player1_score"; "player1_gradingScore";
    "player2_level"; "player2_score"; "player2_gradingScore";
    "player3_level"; "player3_score"; "player3_gradingScore";
    "player4_level"; "player4_score"; "player4_gradingScore" ].

Definition rank_columns : list string :=
  ["player1_rank"; "player2_rank"; "player3_rank"; "player4_rank"].

Definition count_idx (p : nat -> bool) (idxs : list nat) : Z :=
  Z.of_nat (List.length (List.filter p idxs)).

(** The rank of slot [i] in the words of the specification: one, plus the
    number of other slots with a strictly greater score, plus the number of
    earlier slots with an equal score. *)
Definition relational_rank (scores : list Z) (i : nat) : Z :=
  1 + count_idx (fun j => negb (Nat.eqb j i) && (nth i scores 0 <? nth j scores 0))
                (seq 0 4)
    + count_idx (fun j => nth j scores 0 =? nth i scores 0) (seq 0 i).

Definition raises {A} (c : exc A) : bool :=
  match c with Raise _ => true | Ok _ => false end.

(** [game.get(k)] read off the payload, [None] when there is nothing to
    read. *)
Definition field (game : json) (k : string) : json :=
  match dict_get game k JNull with Ok v => v | Raise _ => JNull end.

(** The reasons for rejection the specification lists: the identifier is
    absent or empty, the mode cannot be resolved, the player array has not
    four entries, a value handed to [int] makes it raise. *)
Definition id_missing (game : json) : bool :=
  negb (truthy (match game_id game with Ok gid => gid | Raise _ => JNull end)).

Definition mode_unresolved (game : json) (mode_override : option Z) : bool :=
  is_none (field game "modeId") &&
  match mode_override with None => true | Some _ => false end.

Definition players_of (game : json) : json :=
  let pv := field game "players" in
  if truthy pv then pv else JArr [].

Definition player_count_wrong (game : json) : bool :=
  match py_len (players_of game) with
  | Ok n => negb (Nat.eqb n 4)
  | Raise _ => true
  end.

(** The value line 225 hands to [int], when the payload has one. *)
Definition time_field (game : json) : option json :=
  let st := field game "startTime" in
  if is_none st then
    match getitem_key game "endTime" with Ok v => Some v | Raise _ => None end
  else Some st.

(** Entry [i] of the player array cannot be read as a dict. *)
Definition entry_bad (players : json) (i : nat) : bool :=
  match getitem_index players i with
  | Ok p => negb (is_dict p)
  | Raise _ => true
  end.

(** [players[i].get(k, 0)], when entry [i] is there and is a dict. *)
Definition entry_field (players : json) (i : nat) (k : string) : option json :=
  match getitem_index players i with
  | Ok p => match dict_get p k (JInt 0) with Ok v => Some v | Raise _ => None end
  | Raise _ => None
  end.

Definition int_raises (v : option json) : bool :=
  match v with
  | Some v => raises (py_int v)
  | None => false
  end.

(** [int] raises on one of the three fields of entry [i]. *)
Definition entry_raises (players : json) (i : nat) : bool :=
  existsb (fun k => int_raises (entry_field players i k))
          ["level"; "score"; "gradingScore"].

Definition coercion_raises (game : json) : bool :=
  int_raises (if is_none (field game "modeId") then None
              else Some (field game "modeId")) ||
  int_raises (time_field game) ||
  existsb (entry_raises (players_of game)) (seq 0 4).

Definition listed_rejection (game : json) (mode_override : option Z) : bool :=
  id_missing game || mode_unresolved game mode_override ||
  player_count_wrong game || coercion_raises game.

(** Two reasons the list leaves out: the payload has no start time and no
    end time, and one of the four player entries is no dict. *)
Definition no_time_field (game : json) : bool :=
  match time_field game with None => true | Some _ => false end.

Definition player_not_dict (game : json) : bool :=
  existsb (entry_bad (players_of game)) (seq 0 4).



(** The count of inserted rows after an iteration, against the target: the
    loop goes on only below it. *)
Definition below_target (recent_count : Z) (s : step) : Prop :=
  match s with
  | Continue st => 0 <= total_inserted st < recent_count
  | Break st => 0 <= total_inserted st <= recent_count
  | Abort _ => True
  end.

End Program.

(** ** main.py: the request and the command line *)

(** [str(z)] of an int: its decimal digits, after a minus sign below zero. *)
Definition py_str (z : Z) : string :=
  DecimalString.NilZero.string_of_int (Z.to_int z).

(** [BASE_URL.format(end=..., start=..., query=...)]. *)
Definition BASE_URL (end_ start query : string) : string :=
  ("https://5-data.amae-koromo.com/api/v2/pl4/games/" ++ end_ ++ "/" ++ start
   ++ "?" ++ query)%string.

(** [urllib.parse.urlencode] on str keys and values made of letters, digits
    and the minus sign, none of which is quoted. *)
Definition urlencode (params : list (string * string)) : string :=
  String.concat "&" (map (fun '(k, v) => (k ++ "=" ++ v)%string) params).

Definition build_url (end_ms start_ms mode limit : Z) (descending : bool) : string :=
  let params :=
    [ ("limit", py_str limit);
      ("descending", if descending then "true" else "false");
      ("mode", py_str mode) ] in
  let query := urlencode params in
  BASE_URL (py_str end_ms) (py_str start_ms) query.

(** [default_window_ms], with the reading [now] of [now_ms()]. *)
Definition default_window_ms (now days : Z) : Z * Z :=
  let end_ := now in
  let start := end_ - days * 24 * 60 * 60 * 1000 in
  (start, end_).

Module Fetcher.

(** The Namespace of main.py's [parse_args].  [--db] names the file that
    holds the table and [--sleep] sets the pauses between requests. *)
Record args := Args {
  mode : Z;
  start_ms : option Z;
  end_ms : option Z;
  db : string;
  limit : Z;
  sleep : spec_float;
  max_pages : Z;
  recent : Z;
  verbose : bool
}.

(** Lines 531-546: the window of the run, with the reading [now] of the
    clock. *)
Definition window (now : Z) (a : args) : Z * Z :=
  if 0 <? recent a then
    (0, match end_ms a with Some e => e | None => now end)
  else
    match start_ms a, end_ms a with
    | Some s, Some e => (s, e)
    | s, e =>
        let '(start_default, end_default) := default_window_ms now 30 in
        (match s with Some s => s | None => start_default end,
         match e with Some e => e | None => end_default end)
    end.

Section Main.

Variable int_of_str : string -> option Z.
Variable id_text : json -> option string.
Variable api : nat -> Z -> Z -> option json.

(** [main] after [parse_args]: the exit code of the process, [None] while
    the loop has not ended within [fuel] iterations.  A pause is never
    negative here, and no key is pressed to interrupt the run. *)
Definition main (now : Z) (a : args) (games : option table) (fuel : nat) : option Z :=
  let '(start_ms, end_ms) := window now a in
  if end_ms <? start_ms then Some 2 else
  match fetch_and_store int_of_str id_text api (mode a) start_ms (limit a)
                        (max_pages a) (recent a) (verbose a) games end_ms fuel with
  | Done _ => Some 0
  | Aborted _ => Some 1
  | OutOfFuel _ => None
  end.

End Main.

End Fetcher.

(** ** analysis.py: the commands over all player rows *)

(** What a command prints: one line when no tuple came, a header and the
    lines of a table otherwise. *)
Inductive report (A : Type) :=
| NoRows
| Printed (lines : list A).
Arguments NoRows {A}.
Arguments Printed {A} lines.

Section Commands.

Variable int_of_str : string -> option Z.

(** [conn.execute(sql, params)] for a SELECT of the columns [cols] of the
    games table under a WHERE clause. *)
Definition select_rows (cols : list string) (conn : list dbrow) (w : list clause)
  : list dbrow :=
  map (fun r => map (cell INSERT_COLUMNS r) cols)
      (List.filter (fun r => forallb (clause_holds r) w) conn).

Definition player_columns : list string :=
  [ "player1_rank"; "player1_level"; "player1_score"; "player1_gradingScore";
    "player2_rank"; "player2_level"; "player2_score"; "player2_gradingScore";
    "player3_rank"; "player3_level"; "player3_score"; "player3_gradingScore";
    "player4_rank"; "player4_level"; "player4_score"; "player4_gradingScore" ].

(** Lines 92-96: what the generator yields for player [i] of a row. *)
Definition player_tuple (row : dbrow) (i : nat) : exc (Z * Z * Z * Z) :=
  let* rank := cell_int int_of_str (nth (i * 4) row SNull) in
  let* level := cell_int int_of_str (nth (i * 4 + 1) row SNull) in
  let* score := cell_int int_of_str (nth (i * 4 + 2) row SNull) in
  let* grade := cell_int int_of_str (nth (i * 4 + 3) row SNull) in
  Ok (rank, level, score, grade).

Fixpoint row_tuples (row : dbrow) (idxs : list nat) : exc (list (Z * Z * Z * Z)) :=
  match idxs with
  | [] => Ok []
  | i :: rest =>
      let* t := player_tuple row i in
      let* ts := row_tuples row rest in
      Ok (t :: ts)
  end.

Fixpoint iter_rows (rows : list dbrow) : exc (list (Z * Z * Z * Z)) :=
  match rows with
  | [] => Ok []
  | row :: rest =>
      let* ts := row_tuples row (seq 0 4) in
      let* more := iter_rows rest in
      Ok (ts ++ more)
  end.

(** [iter_player_rows]: everything the generator yields, or the exception
    that ends it.  Its two consumers print only after the last tuple. *)
Definition iter_player_rows (conn : list dbrow) (a : args) : exc (list (Z * Z * Z * Z)) :=
  iter_rows (select_rows player_columns conn (where_clause a)).

(** A [defaultdict(int)] with int keys: its items in insertion order. *)
Definition counter := list (Z * Z).

(** [d[k]], zero for a key that is not there. *)
Fixpoint counter_get (k : Z) (d : counter) : Z :=
  match d with
  | [] => 0
  | (k', v) :: rest => if k =? k' then v else counter_get k rest
  end.

(** [d[k] += v]. *)
Fixpoint counter_add (k v : Z) (d : counter) : counter :=
  match d with
  | [] => [(k, 0 + v)]
  | (k', v') :: rest =>
      if k =? k' then (k', v' + v) :: rest else (k', v') :: counter_add k v rest
  end.

Definition counter_keys (d : counter) : list Z := map fst d.

(** [sorted(keys)] on ints. *)
Definition sorted_keys (keys : list Z) : list Z :=
  sorted keys (fun k => (k, 0)).

(** *** do_summary *)

Record summary_acc := SummaryAcc {
  sm_counts : counter;
  sm_sum_score : counter;
  sm_sum_grade : counter;
  sm_sum_level : counter;
  sm_total : Z
}.

(** Lines 163-167. *)
Definition summary_step (acc : summary_acc) (t : Z * Z * Z * Z) : summary_acc :=
  let '(rank, level, score, grade) := t in
  SummaryAcc (counter_add rank 1 (sm_counts acc))
             (counter_add rank score (sm_sum_score acc))
             (counter_add rank grade (sm_sum_grade acc))
             (counter_add rank level (sm_sum_level acc))
             (sm_total acc + 1).

(** A line of the summary: the rank, its count, and the four quotients the
    line shows ([rr_percent] is printed times 100). *)
Record rank_row := RankRow {
  rr_rank : Z;
  rr_count : Z;
  rr_percent : ratio;
  rr_avg_score : ratio;
  rr_avg_grade : ratio;
  rr_avg_level : ratio
}.

Definition do_summary (conn : list dbrow) (a : args) : exc (report rank_row) :=
  let* tuples := iter_player_rows conn a in
  let acc := fold_left summary_step tuples (SummaryAcc [] [] [] [] 0) in
  if sm_total acc =? 0 then Ok NoRows else
  Ok (Printed
        (map (fun rank =>
                let c := counter_get rank (sm_counts acc) in
                RankRow rank c (Ratio c (sm_total acc))
                        (Ratio (counter_get rank (sm_sum_score acc)) c)
                        (Ratio (counter_get rank (sm_sum_grade acc)) c)
                        (Ratio (counter_get rank (sm_sum_level acc)) c))
             (sorted_keys (counter_keys (sm_counts acc))))).

(** *** do_rank_correlation *)

Record corr_acc := CorrAcc {
  rc_counts : counter;
  rc_place1 : counter;
  rc_place2 : counter;
  rc_place3 : counter;
  rc_place4 : counter;
  rc_sum_score : counter;
  rc_sum_grade : counter;
  rc_sum_place : counter;
  rc_total : Z
}.

(** Lines 120-133. *)
Definition corr_step (level_bin : string) (acc : corr_acc) (t : Z * Z * Z * Z)
  : corr_acc :=
  let '(rank, level, score, grade) := t in
  let lb := bucket_level level level_bin in
  CorrAcc (counter_add lb 1 (rc_counts acc))
          (if rank =? 1 then counter_add lb 1 (rc_place1 acc) else rc_place1 acc)
          (if rank =? 1 then rc_place2 acc
           else if rank =? 2 then counter_add lb 1 (rc_place2 acc) else rc_place2 acc)
          (if rank =? 1 then rc_place3 acc
           else if rank =? 2 then rc_place3 acc
           else if rank =? 3 then counter_add lb 1 (rc_place3 acc) else rc_place3 acc)
          (if rank =? 1 then rc_place4 acc
           else if rank =? 2 then rc_place4 acc
           else if rank =? 3 then rc_place4 acc
           else if rank =? 4 then counter_add lb 1 (rc_place4 acc) else rc_place4 acc)
          (counter_add lb score (rc_sum_score acc))
          (counter_add lb grade (rc_sum_grade acc))
          (counter_add lb rank (rc_sum_place acc))
          (rc_total acc + 1).

(** A line of the table: the level bucket, its count, the four shares of
    the places (printed times 100) and the three averages. *)
Record level_row := LevelRow {
  lr_level : Z;
  lr_count : Z;
  lr_p1 : ratio;
  lr_p2 : ratio;
  lr_p3 : ratio;
  lr_p4 : ratio;
  lr_avg_place : ratio;
  lr_avg_score : ratio;
  lr_avg_grade : ratio
}.

Definition do_rank_correlation (conn : list dbrow) (a : args) : exc (report level_row) :=
  let* tuples := iter_player_rows conn a in
  let acc := fold_left (corr_step (args_level_bin a)) tuples
                       (CorrAcc [] [] [] [] [] [] [] [] 0) in
  if rc_total acc =? 0 then Ok NoRows else
  Ok (Printed
        (map (fun lb =>
                let c := counter_get lb (rc_counts acc) in
                LevelRow lb c
                         (Ratio (counter_get lb (rc_place1 acc)) c)
                         (Ratio (counter_get lb (rc_place2 acc)) c)
                         (Ratio (counter_get lb (rc_place3 acc)) c)
                         (Ratio (counter_get lb (rc_place4 acc)) c)
                         (Ratio (counter_get lb (rc_sum_place acc)) c)
                         (Ratio (counter_get lb (rc_sum_score acc)) c)
                         (Ratio (counter_get lb (rc_sum_grade acc)) c))
             (sorted_keys (counter_keys (rc_counts acc))))).

(** *** do_export *)

(** A row written to the CSV file of export: the header, or the eight
    cells of one player. *)
Inductive export_line :=
| ExportHeader
| ExportRow (cells : list sqlval).

(** Lines 200-207: the four rows of one game. *)
Definition export_rows (row : dbrow) : list export_line :=
  let id_ := nth 0 row SNull in
  let mode := nth 1 row SNull in
  let start_time := nth 2 row SNull in
  map (fun i =>
         let level := nth (3 + i * 4) row SNull in
         let score := nth (4 + i * 4) row SNull in
         let grade := nth (5 + i * 4) row SNull in
         let rank := nth (6 + i * 4) row SNull in
         ExportRow [id_; mode; start_time; SInt (Z.of_nat i + 1);
                    rank; level; score; grade])
      (seq 0 4).

(** [do_export]: the rows written to the file and how the command ended.
    [open(None, "w")] is a [TypeError]. *)
Definition do_export (conn : list dbrow) (a : args) : list export_line * exc unit :=
  let w := where_clause a in
  match args_csv a with
  | None => ([], Raise TypeError)
  | Some _ =>
      (ExportHeader :: flat_map export_rows (select_rows INSERT_COLUMNS conn w), Ok tt)
  end.

End Commands.

(** ** Vocabulary of the further statements *)

(** The characters of [str(z)], and the texts made of them. *)
Definition numeric_char (c : ascii) : bool :=
  existsb (Ascii.eqb c) (list_ascii_of_string "-0123456789").

Fixpoint numeric (s : string) : bool :=
  match s with
  | EmptyString => true
  | String c rest => numeric_char c && numeric rest
  end.

(** No two rows of the table have equal identifiers. *)
Definition keys_distinct (store : list dbrow) : bool :=
  ids_distinct (map row_key store).


(** [args.start_ms = s] on the Namespace of main.py. *)
Definition with_start_ms (a : Fetcher.args) (s : option Z) : Fetcher.args :=
  Fetcher.Args (Fetcher.mode a) s (Fetcher.end_ms a) (Fetcher.db a) (Fetcher.limit a)
               (Fetcher.sleep a) (Fetcher.max_pages a) (Fetcher.recent a)
               (Fetcher.verbose a).

(** The sum of [f] over a list. *)
Fixpoint zsum {A} (f : A -> Z) (l : list A) : Z :=
  match l with
  | [] => 0
  | x :: rest => f x + zsum f rest
  end.

Definition tally_add (t u : tally) : tally :=
  Tally (instances t + instances u) (sum_rank_diff t + sum_rank_diff u)
        (sum_score_diff t + sum_score_diff u) (sum_grade_diff t + sum_grade_diff u)
        (a_better t + a_better u) (b_better t + b_better u).

(** The aggregates of a list of pairs (A, B): their number, the three sums
    of differences, and the numbers of pairs in which A, and in which B,
    has the smaller rank. *)
Definition tally_of (pairs : list (player * player)) : tally :=
  Tally (zsum (fun _ => 1) pairs)
        (zsum (fun '(pa, pb) => p_rank pa - p_rank pb) pairs)
        (zsum (fun '(pa, pb) => p_score pa - p_score pb) pairs)
        (zsum (fun '(pa, pb) => p_grade pa - p_grade pb) pairs)
        (zsum (fun '(pa, pb) => if p_rank pa <? p_rank pb then 1 else 0) pairs)
        (zsum (fun '(pa, pb) => if p_rank pb <? p_rank pa then 1 else 0) pairs).

Definition tally_mirror (t : tally) : tally :=
  Tally (instances t) (- sum_rank_diff t) (- sum_score_diff t) (- sum_grade_diff t)
        (b_better t) (a_better t).

(** A summary read from the side of B: the two win counts change places
    and the three averages change sign. *)
Definition mirror (s : summary) : summary :=
  Summary (s_instances s) (s_b_better s)
          (Ratio (- num_of (s_avg_rank_diff s)) (den_of (s_avg_rank_diff s)))
          (Ratio (- num_of (s_avg_score_diff s)) (den_of (s_avg_score_diff s)))
          (Ratio (- num_of (s_avg_grade_diff s)) (den_of (s_avg_grade_diff s)))
          (s_a_better s).

(** The four rank cells of a row of the table are 1, 2, 3, 4 in some
    order. *)
Definition well_ranked (cells : dbrow) : bool :=
  match map (cell INSERT_COLUMNS cells) rank_columns with
  | [SInt a; SInt b; SInt c; SInt d] =>
      forallb (fun k => existsb (Z.eqb k) [a; b; c; d]) [1; 2; 3; 4]
  | _ => false
  end.

(** What a run keeps of the state it started from: the table is the old
    one with rows appended, as many as the count of inserted rows went up,
    each with nineteen cells and well ranked; no two rows share an
    identifier if none did; and no page is uncounted. *)
Definition extends (st st' : run) : Prop :=
  (exists added,
     conn st' = conn st ++ added /\
     total_inserted st' = total_inserted st + Z.of_nat (List.length added) /\
     Forall (fun cells => List.length cells = 19%nat /\ well_ranked cells = true) added) /\
  (keys_distinct (conn st) = true -> keys_distinct (conn st') = true) /\
  pages st <= pages st'.





(** The rank and the level of a tuple [(rank, level, score, grade)]. *)
Definition tuple_rank (t : Z * Z * Z * Z) : Z := fst (fst (fst t)).
Definition tuple_level (t : Z * Z * Z * Z) : Z := snd (fst (fst t)).

(** The tuple is of the level bucket [lb]. *)
Definition in_bucket (level_bin : string) (lb : Z) (t : Z * Z * Z * Z) : bool :=
  lb =? bucket_level (tuple_level t) level_bin.



(** The rows of the table a WHERE clause selects. *)
Definition selected (conn : list dbrow) (a : args) : list dbrow :=
  List.filter (fun r => forallb (clause_holds r) (where_clause a)) conn.




Section Vocabulary.

Variable int_of_str : string -> option Z.
Variable id_text : json -> option string.

(** A row of the table that came from a record of [games]: what
    [extract_row] and the binding of parameters make of it. *)
Definition row_of_batch (mode_override : option Z) (games : list json) (cells : dbrow)
  : Prop :=
  exists g r, In g games /\ extract_row int_of_str g mode_override = Some r /\
              bind_row id_text r = Ok cells.

(** The players of each fetched row, or the first exception [int] raises
    on a cell. *)
Fixpoint rows_players (level_bin : string) (rows : list dbrow)
  : exc (list (list player)) :=
  match rows with
  | [] => Ok []
  | r :: rest =>
      let* players := row_players int_of_str level_bin r (seq 0 4) in
      let* more := rows_players level_bin rest in
      Ok (players :: more)
  end.


End Vocabulary.

(** ** Instances for evaluation *)

(** A decimal parser for [int(s)]: an optional sign and digits. *)
Fixpoint digits_value (s : string) (acc : Z) : option Z :=
  match s with
  | EmptyString => Some acc
  | String c rest =>
      let n := Z.of_nat (nat_of_ascii c) in
      if (48 <=? n) && (n <=? 57) then digits_value rest (acc * 10 + (n - 48))
      else None
  end.

Definition decimal_int_of_str (s : string) : option Z :=
  match s with
  | EmptyString => None
  | String "-" EmptyString => None
  | String "-" rest => option_map Z.opp (digits_value rest 0)
  | _ => digits_value s 0
  end.

(** A binding of identifiers that stores a str as it is and refuses the
    rest. *)
Definition str_id_text (v : json) : option string :=
  match v with
  | JStr s => Some s
  | _ => None
  end.

Definition demo_player (level score grade : Z) : json :=
  JObj [("level", JInt level); ("score", JInt score); ("gradingScore", JInt grade)].

Definition demo_game : json :=
  JObj [("_id", JStr "g1"); ("modeId", JInt 12); ("startTime", JInt 1700000000);
        ("players", JArr [demo_player 10301 25000 5; demo_player 10302 40000 50;
                          JObj [("level", JInt 10303); ("score", JInt 25000)];
                          demo_player 10301 10000 (-30)])].

(** A record with an identifier, a mode and four players, and no time. *)
Definition timeless_game : json :=
  JObj [("_id", JStr "g2"); ("modeId", JInt 12);
        ("players", JArr [JObj []; JObj []; JObj []; JObj []])].

(** The row [extract_row] makes of [demo_game]. *)
Definition demo_row : row :=
  Row (JStr "g1") 12 1700000000
      [10301; 25000; 5; 2; 10302; 40000; 50; 1; 10303; 25000; 0; 3; 10301; 10000; -30; 4].

(** A games table of a version without rank columns, with two rows. *)
Definition legacy_table : table :=
  Table non_rank_columns
        [ [SText "g1"; SInt 12; SInt 1700000000;
           SInt 10301; SInt 25000; SInt 5; SInt 10302; SInt 40000; SInt 50;
           SInt 10303; SInt 25000; SInt 0; SInt 10301; SInt 10000; SInt (-30)];
          [SText "g2"; SInt 9; SInt 1700000100;
           SInt 10201; SInt 30000; SInt 10; SInt 10202; SInt 30000; SInt 1;
           SInt 10203; SInt 20000; SInt (-5); SInt 10201; SInt 20000; SInt (-6)] ].


Definition record_at (gid : string) (start_time : Z) : json :=
  JObj [("_id", JStr gid); ("startTime", JInt start_time)].

(** An API that answers a request ending at 999999999000 ms with a record
    that starts later than that, and any other request with a record from
    the far future. *)
Definition cycling_api (n : nat) (end_ms page_limit : Z) : option json :=
  Some (JArr [record_at "late"
                (if end_ms =? 999999999000 then 1000000000501 else 5000000000000)]).

(** An API with two pages of one record each, then nothing. *)
Definition two_page_api (n : nat) (end_ms page_limit : Z) : option json :=
  match n with
  | O => Some (JArr [demo_game])
  | S O => Some (JArr [demo_game; record_at "g3" 1699990000])
  | _ => Some (JArr [])
  end.

(** [compare-levels --level-a 10301 --level-b 10301]. *)
Definition equal_levels_args : args :=
  Args "compare-levels" "games.sqlite" None None None None "level" 10301 10301.

(** A stand-in for the three commands [main] takes as given. *)
Definition no_command (conn : list dbrow) (a : args) : list event * exc unit :=
  ([], Ok tt).

(** A games table in the target layout with a Gold and a Jade match. *)
Definition report_store : list dbrow :=
  [ [SText "g1"; SInt 9; SInt 1700000000;
     SInt 10301; SInt 25000; SInt 5; SInt 2;
     SInt 10302; SInt 40000; SInt 50; SInt 1;
     SInt 10303; SInt 25000; SInt 0; SInt 3;
     SInt 10301; SInt 10000; SInt (-30); SInt 4];
    [SText "g2"; SInt 12; SInt 1700000100;
     SInt 10401; SInt 30000; SInt 10; SInt 1;
     SInt 10402; SInt 30000; SInt 1; SInt 2;
     SInt 10501; SInt 20000; SInt (-5); SInt 3;
     SInt 10401; SInt 20000; SInt (-6); SInt 4] ].


(** ** Further instances for evaluation *)

(** The cells [demo_row] is bound to. *)
Definition demo_cells : dbrow :=
  SText "g1" :: SInt 12 :: SInt 1700000000 ::
  map SInt [10301; 25000; 5; 2; 10302; 40000; 50; 1; 10303; 25000; 0; 3;
            10301; 10000; -30; 4].

(** [compare-levels --level-a 10301 --level-b 10302]. *)
Definition compare_levels_args : args :=
  Args "compare-levels" "games.sqlite" None None None None "level" 10301 10302.


(** [summary --mode 9 --start-ms 1700000000999 --end-ms 1700000000000]: a
    window that holds no millisecond, around the start second of the first
    game of [report_store]. *)
Definition narrow_args : args :=
  Args "summary" "games.sqlite" (Some 9) (Some 1700000000999) (Some 1700000000000)
       None "level" 0 0.

(** [export --csv out.csv]. *)
Definition export_args : args :=
  Args "export" "games.sqlite" None None None (Some "out.csv") "level" 0 0.

(** [rank-correlation --level-bin level10]. *)
Definition correlation_args : args :=
  Args "rank-correlation" "games.sqlite" None None None None "level10" 0 0.

(** [main.py --recent 5 --start-ms 7 --end-ms 1700000000000]. *)
Definition recent_args : Fetcher.args :=
  Fetcher.Args 12 (Some 7) (Some 1700000000000) "games.sqlite" 100000
               (S754_finite false 1 (-1)) 0 5 false.

(** [compare-all] with no [--csv]. *)
Definition no_csv_args : args :=
  Args "compare-all" "games.sqlite" None None None None "level" 0 0.


(** * Proofs *)

(** ** Ranks: the sort of [extract_row] and the formula of [rank_expr] *)

Ltac split_tests :=
  repeat (match goal with
  | |- context [ (?x <? ?y) ] => destruct (Z.ltb_spec x y)
  | |- context [ (?x =? ?y) ] => destruct (Z.eqb_spec x y)
  end; try lia; cbn; unfold tuple_lt; cbn [fst snd]).

Ltac perm_concrete :=
  cbv; repeat (first
    [ apply Permutation_refl
    | refine (Permutation_cons_app [] _ _ _)
    | refine (Permutation_cons_app [_] _ _ _)
    | refine (Permutation_cons_app [_; _] _ _ _)
    | refine (Permutation_cons_app [_; _; _] _ _ _) ]; cbv).

Lemma compute_ranks_four a b c d :
  compute_ranks [a; b; c; d] = map (relational_rank [a; b; c; d]) (seq 0 4).
Proof.
  unfold compute_ranks, rank_order, sorted, tie_keys, enumerate, relational_rank,
    count_idx, tuple_lt.
  cbn [seq map nth fold_left insert_sorted fst snd Z.of_nat List.filter Nat.eqb negb andb].
  split_tests; reflexivity.
Qed.

Lemma compute_ranks_perm a b c d :
  Permutation (compute_ranks [a; b; c; d]) [1; 2; 3; 4].
Proof.
  rewrite compute_ranks_four.
  unfold relational_rank, count_idx.
  cbn [seq map nth List.filter Nat.eqb negb andb].
  split_tests; perm_concrete.
Qed.

Section Ranks.
Variable int_of_str : string -> option Z.

Ltac bind_inv H :=
  repeat match type of H with
  | bind ?c _ = _ => let E := fresh "E" in destruct c eqn:E; cbn [bind] in H; [| discriminate H]
  | (let* _ := ?c in _) = _ => let E := fresh "E" in destruct c eqn:E; cbn [bind] in H; [| discriminate H]
  end.

Lemma all_metrics_length players idxs ms :
  all_metrics int_of_str players idxs = Ok ms -> List.length ms = List.length idxs.
Proof.
  revert ms; induction idxs as [| i rest IH]; intros ms H; cbn in H.
  - now inversion H.
  - bind_inv H. inversion H; subst. cbn. f_equal. now apply IH.
Qed.

Lemma extract_row_inv game mo r :
  extract_row int_of_str game mo = Some r ->
  exists m0 m1 m2 m3 : Z * Z * Z,
    all_metrics int_of_str (players_of game) (seq 0 4) = Ok [m0; m1; m2; m3] /\
    resolve_start_time int_of_str game = Ok (row_start r) /\
    row_vals r = interleave [m0; m1; m2; m3]
                   (compute_ranks (map (fun m => snd (fst m)) [m0; m1; m2; m3])).
Proof.
  unfold extract_row, extract_row_body, players_of, field. intros H.
  destruct (game_id game) as [gid |] eqn:Eg; cbn [bind] in H; [| discriminate].
  destruct (negb (truthy gid)); [discriminate |].
  destruct (resolve_mode int_of_str game mo) as [[mode |] |] eqn:Em; cbn [bind] in H;
    try discriminate.
  destruct (resolve_start_time int_of_str game) as [st |]; cbn [bind] in H; [| discriminate].
  destruct (dict_get game "players" JNull) as [pv |]; cbn [bind] in H; [| discriminate].
  destruct (py_len _) as [n |]; cbn [bind] in H; [| discriminate].
  destruct (negb (Nat.eqb n 4)); [discriminate |].
  destruct (all_metrics _ _ _) as [ms |] eqn:Ea; cbn [bind] in H; [| discriminate].
  pose proof (all_metrics_length _ _ _ Ea) as El. cbn in El.
  destruct ms as [| m0 [| m1 [| m2 [| m3 [| m4 ms]]]]]; try discriminate.
  inversion H; subst; cbn [row_vals row_start]. now exists m0, m1, m2, m3.
Qed.

Lemma extract_row_scores_ranks game mo r :
  extract_row int_of_str game mo = Some r ->
  (exists a b c d, row_scores r = [a; b; c; d]) /\
  row_ranks r = compute_ranks (row_scores r).
Proof.
  intros H. destruct (extract_row_inv _ _ _ H) as ([[l0 s0] g0] & [[l1 s1] g1] & [[l2 s2] g2] & [[l3 s3] g3] & _ & _ & Hv).
  cbn [map fst snd] in Hv. rewrite compute_ranks_four in Hv. cbn [map seq interleave combine flat_map app] in Hv.
  unfold row_scores, row_ranks. rewrite Hv. cbn [map nth].
  split; [now exists s0, s1, s2, s3 |].
  now rewrite compute_ranks_four.
Qed.

Lemma compute_ranks_top a b c d i :
  (i < 4)%nat ->
  (forall j, (j < 4)%nat -> j <> i -> nth j [a; b; c; d] 0 < nth i [a; b; c; d] 0) ->
  nth i (compute_ranks [a; b; c; d]) 0 = 1.
Proof.
  intros Hi Hj. rewrite compute_ranks_four.
  pose proof (Hj 0%nat) as H0. pose proof (Hj 1%nat) as H1.
  pose proof (Hj 2%nat) as H2. pose proof (Hj 3%nat) as H3. clear Hj.
  destruct i as [| [| [| [| i]]]]; try lia;
    cbn in H0, H1, H2, H3;
    unfold relational_rank, count_idx;
    cbn [seq map nth List.filter Nat.eqb negb andb];
    split_tests; try reflexivity; lia.
Qed.

Lemma compute_ranks_tie a b c d i j :
  (i < j < 4)%nat ->
  nth i [a; b; c; d] 0 = nth j [a; b; c; d] 0 ->
  nth i (compute_ranks [a; b; c; d]) 0 < nth j (compute_ranks [a; b; c; d]) 0.
Proof.
  intros Hij E. rewrite compute_ranks_four.
  destruct i as [| [| [| [| i]]]]; try lia;
    destruct j as [| [| [| [| j]]]]; try lia;
    cbn in E; subst;
    unfold relational_rank, count_idx;
    cbn [seq map nth List.filter Nat.eqb negb andb];
    split_tests; cbv; try reflexivity; lia.
Qed.

(** C1.  In every row [extract_row] returns, the four ranks are a
    permutation of 1, 2, 3, 4; a slot whose score is strictly greater than
    the three others has rank 1; of two slots with equal scores the earlier
    has the smaller rank; and two accepted records with the same four scores
    get the same four ranks, whatever their grading scores and
    identifiers. *)
Theorem extract_row_rank_assignment game mode_override r :
  extract_row int_of_str game mode_override = Some r ->
  Permutation (row_ranks r) [1; 2; 3; 4] /\
  (forall i, (i < 4)%nat ->
     (forall j, (j < 4)%nat -> j <> i ->
        nth j (row_scores r) 0 < nth i (row_scores r) 0) ->
     nth i (row_ranks r) 0 = 1) /\
  (forall i j, (i < j < 4)%nat ->
     nth i (row_scores r) 0 = nth j (row_scores r) 0 ->
     nth i (row_ranks r) 0 < nth j (row_ranks r) 0) /\
  (forall game' mode_override' r',
     extract_row int_of_str game' mode_override' = Some r' ->
     row_scores r' = row_scores r -> row_ranks r' = row_ranks r).
Proof.
  intros H. destruct (extract_row_scores_ranks _ _ _ H) as [(a & b & c & d & Es) Er].
  rewrite Er, Es. repeat split.
  - apply compute_ranks_perm.
  - intros i Hi Hj. now apply compute_ranks_top.
  - intros i j Hij E. now apply compute_ranks_tie.
  - intros g' m' r' H' E'. destruct (extract_row_scores_ranks _ _ _ H') as [_ Er'].
    now rewrite Er', E'.
Qed.

Lemma sql_gt_int x y : sql_gt (SInt x) (SInt y) = (y <? x).
Proof.
  unfold sql_gt, sql_compare. rewrite Z.ltb_antisym, Z.leb_compare.
  now destruct (x ?= y).
Qed.

Lemma sql_eq_int x y : sql_eq (SInt x) (SInt y) = (x =? y).
Proof. unfold sql_eq, sql_compare. rewrite Z.eqb_compare. now destruct (x ?= y). Qed.

Lemma rank_expr_relational cols legacy a b c d k :
  (k < 4)%nat ->
  cell cols legacy "player1_score" = SInt a ->
  cell cols legacy "player2_score" = SInt b ->
  cell cols legacy "player3_score" = SInt c ->
  cell cols legacy "player4_score" = SInt d ->
  eval_item cols legacy (rank_expr (S k)) = SInt (relational_rank [a; b; c; d] k).
Proof.
  intros Hk Ha Hb Hc Hd.
  destruct k as [| [| [| [| k]]]]; try lia;
    unfold rank_expr, eval_item, eval_term, relational_rank, count_idx, score_columns;
    cbn [Nat.sub seq map nth List.filter Nat.eqb negb andb app fold_left];
    rewrite ?Ha, ?Hb, ?Hc, ?Hd, ?sql_gt_int, ?sql_eq_int;
    f_equal; split_tests; reflexivity.
Qed.

(** C2.  On a row whose four score cells hold the integers [a], [b], [c],
    [d], the expression [rank_expr] builds for slot [k + 1] evaluates to the
    rank the sort of [extract_row] gives slot [k], for the ranks computed
    from the four scores and for the ranks of any accepted row with these
    scores. *)
Theorem rank_expr_matches_sort cols legacy a b c d :
  cell cols legacy "player1_score" = SInt a ->
  cell cols legacy "player2_score" = SInt b ->
  cell cols legacy "player3_score" = SInt c ->
  cell cols legacy "player4_score" = SInt d ->
  (forall k, (k < 4)%nat ->
     eval_item cols legacy (rank_expr (S k))
     = SInt (nth k (compute_ranks [a; b; c; d]) 0)) /\
  (forall game mode_override r,
     extract_row int_of_str game mode_override = Some r ->
     row_scores r = [a; b; c; d] ->
     forall k, (k < 4)%nat ->
       eval_item cols legacy (rank_expr (S k)) = SInt (nth k (row_ranks r) 0)).
Proof.
  intros Ha Hb Hc Hd.
  assert (Hrel : forall k, (k < 4)%nat ->
            eval_item cols legacy (rank_expr (S k))
            = SInt (nth k (compute_ranks [a; b; c; d]) 0)).
  { intros k Hk. rewrite (rank_expr_relational cols legacy a b c d k Hk Ha Hb Hc Hd).
    rewrite compute_ranks_four.
    now destruct k as [| [| [| [| k]]]]; try lia. }
  split; [exact Hrel |].
  intros game mo r H Es k Hk.
  destruct (extract_row_scores_ranks _ _ _ H) as [_ Er].
  rewrite Er, Es. now apply Hrel.
Qed.
End Ranks.

(** ** Rejection and defaults of [extract_row] *)

Section Rejection.
Variable int_of_str : string -> option Z.

Lemma dict_get_obj items k d :
  dict_get (JObj items) k d
  = Ok (match lookup_key k items with Some v => v | None => d end).
Proof. unfold dict_get. now destruct (lookup_key k items). Qed.

Lemma player_metrics_raises players i :
  raises (player_metrics int_of_str players i)
  = entry_bad players i || entry_raises int_of_str players i.
Proof.
  unfold player_metrics, entry_bad, entry_raises, entry_field.
  destruct (getitem_index players i) as [p |]; [| reflexivity].
  cbn [bind existsb]. destruct p; try reflexivity.
  unfold dict_get.
  destruct (lookup_key "level" items), (lookup_key "score" items),
    (lookup_key "gradingScore" items);
    cbn [bind is_dict negb orb existsb int_raises];
  repeat match goal with
         | |- context [py_int int_of_str ?v] =>
             destruct (py_int int_of_str v); cbn [bind raises orb]
         end; reflexivity.
Qed.

Lemma all_metrics_raises players idxs :
  raises (all_metrics int_of_str players idxs)
  = existsb (entry_bad players) idxs || existsb (entry_raises int_of_str players) idxs.
Proof.
  induction idxs as [| i rest IH]; [reflexivity |].
  cbn [all_metrics existsb].
  pose proof (player_metrics_raises players i) as Hp.
  destruct (player_metrics int_of_str players i) as [m |]; cbn [bind raises] in *.
  - symmetry in Hp; apply orb_false_elim in Hp as [-> ->]; cbn [orb].
    destruct (all_metrics int_of_str players rest); cbn [bind raises] in *; exact IH.
  - symmetry in Hp. apply orb_true_iff in Hp as [-> | ->]; cbn [orb];
      rewrite ?orb_true_r; reflexivity.
Qed.

Ltac simp := cbn [bind negb andb orb int_raises raises is_none].
Ltac settle := repeat (rewrite ?orb_true_r; simp); try reflexivity.
Ltac rejected := solve [split; intros _; [settle | reflexivity]].

Lemma extract_row_rejection game mode_override :
  extract_row int_of_str game mode_override = None <->
  listed_rejection int_of_str game mode_override
  || no_time_field game || player_not_dict game = true.
Proof.
  destruct game as [| b | z | f | s | l | items];
    try (split; intros _; reflexivity).
  unfold extract_row, extract_row_body, listed_rejection, id_missing, mode_unresolved,
    player_count_wrong, coercion_raises, no_time_field, player_not_dict, time_field,
    players_of, field, game_id, resolve_mode, resolve_start_time, getitem_key.
  rewrite !dict_get_obj. cbn [bind].
  generalize (match lookup_key "_id" items with Some v => v | None => JNull end) as a.
  generalize (match lookup_key "uuid" items with Some v => v | None => JNull end) as u.
  generalize (match lookup_key "modeId" items with Some v => v | None => JNull end) as m.
  generalize (match lookup_key "startTime" items with Some v => v | None => JNull end) as st.
  generalize (match lookup_key "players" items with Some v => v | None => JNull end) as pv.
  generalize (lookup_key "endTime" items) as et.
  intros et pv st m u a.
  generalize (if truthy pv then pv else JArr []) as players. intros players.
  pose proof (all_metrics_raises players (seq 0 4)) as Hm.
  replace (if truthy a then Ok a else Ok u) with (Ok (if truthy a then a else u))
    by now destruct (truthy a).
  generalize (if truthy a then a else u) as gid. intros gid. simp.
  destruct (truthy gid); simp; [| rejected].
  assert (Hrest : forall mode : Z,
    match
      let* start_time_sec :=
        (let* v := (if is_none st
                    then match et with Some v => Ok v | None => Raise KeyError end
                    else Ok st) in py_int int_of_str v) in
      let* n := py_len players in
      if negb (n =? 4)%nat then Ok None
      else let* metrics := all_metrics int_of_str players (seq 0 4) in
           Ok (Some (Row gid mode start_time_sec
                      (interleave metrics
                         (compute_ranks (map (fun m0 : Z * Z * Z => snd (fst m0)) metrics)))))
    with Ok r => r | Raise _ => None end = None <->
    match py_len players with Ok n => negb (n =? 4)%nat | Raise _ => true end
    || int_raises int_of_str
         (if is_none st then match et with Some v => Some v | None => None end
          else Some st)
    || existsb (entry_raises int_of_str players) (seq 0 4)
    || match (if is_none st then match et with Some v => Some v | None => None end
              else Some st) with Some _ => false | None => true end
    || existsb (entry_bad players) (seq 0 4) = true).
  { intros mode.
    destruct (is_none st);
      [destruct et as [v |]; simp; [destruct (py_int int_of_str v) |]
      | simp; destruct (py_int int_of_str st)]; simp; try rejected;
    (destruct (py_len players) as [n |]; simp; [| rejected]);
    (destruct (negb (n =? 4)%nat); simp; [rejected |]);
    (destruct (all_metrics int_of_str players (seq 0 4)); cbn [raises] in Hm; simp;
     symmetry in Hm;
     [ apply orb_false_elim in Hm as [-> ->]; split; discriminate
     | apply orb_true_iff in Hm as [-> | ->]; rejected ]). }
  clear Hm.
  destruct (is_none m); simp;
    [destruct mode_override as [mode |] | destruct (py_int int_of_str m) as [mode |]];
    simp; try rejected;
    rewrite (Hrest mode); clear Hrest;
    destruct (is_none st), et; simp;
    repeat match goal with
           | |- context [raises ?c] => destruct c; simp
           end;
    destruct (py_len players) as [n |]; simp;
    try destruct (negb (n =? 4)%nat); simp;
    destruct (existsb (entry_raises int_of_str players) (seq 0 4)),
             (existsb (entry_bad players) (seq 0 4)); simp; reflexivity.
Qed.

Lemma player_metrics_default players i p l s g :
  getitem_index players i = Ok (JObj p) ->
  player_metrics int_of_str players i = Ok (l, s, g) ->
  (lookup_key "level" p = None -> l = 0) /\
  (lookup_key "score" p = None -> s = 0) /\
  (lookup_key "gradingScore" p = None -> g = 0).
Proof.
  unfold player_metrics. intros -> H. cbn [bind] in H. rewrite !dict_get_obj in H.
  cbn [bind] in H.
  destruct (py_int _ _) as [l' |] eqn:El in H; cbn [bind] in H; [| discriminate].
  destruct (py_int _ _) as [s' |] eqn:Es in H; cbn [bind] in H; [| discriminate].
  destruct (py_int _ _) as [g' |] eqn:Egr in H; cbn [bind] in H; [| discriminate].
  inversion H; subst.
  repeat split; intros E; rewrite E in *; cbn in *; congruence.
Qed.

Lemma extract_row_accepted game mode_override r :
  extract_row int_of_str game mode_override = Some r ->
  (field game "startTime" = JNull ->
   exists v, getitem_key game "endTime" = Ok v /\ py_int int_of_str v = Ok (row_start r)) /\
  (forall i p, (i < 4)%nat ->
     getitem_index (players_of game) i = Ok (JObj p) ->
     (lookup_key "level" p = None -> nth (4 * i) (row_vals r) 0 = 0) /\
     (lookup_key "score" p = None -> nth (4 * i + 1) (row_vals r) 0 = 0) /\
     (lookup_key "gradingScore" p = None -> nth (4 * i + 2) (row_vals r) 0 = 0)).
Proof.
  intros H.
  destruct (extract_row_inv _ _ _ _ H)
    as ([[l0 s0] g0] & [[l1 s1] g1] & [[l2 s2] g2] & [[l3 s3] g3] & Hm & Ht & Hv).
  split.
  - intros Est. unfold resolve_start_time in Ht. unfold field in Est.
    destruct (dict_get game "startTime" JNull) as [st |]; [| discriminate Ht].
    subst st. cbn [bind is_none] in Ht.
    destruct (getitem_key game "endTime") as [v |]; [| discriminate Ht].
    now exists v.
  - intros i p Hi Hp. cbn [map fst snd] in Hv. rewrite Hv, compute_ranks_four.
    cbn [all_metrics seq] in Hm.
    destruct (player_metrics int_of_str (players_of game) 0) as [[[a0 b0] c0] |] eqn:E0;
      cbn [bind] in Hm; [| discriminate].
    destruct (player_metrics int_of_str (players_of game) 1) as [[[a1 b1] c1] |] eqn:E1;
      cbn [bind] in Hm; [| discriminate].
    destruct (player_metrics int_of_str (players_of game) 2) as [[[a2 b2] c2] |] eqn:E2;
      cbn [bind] in Hm; [| discriminate].
    destruct (player_metrics int_of_str (players_of game) 3) as [[[a3 b3] c3] |] eqn:E3;
      cbn [bind] in Hm; [| discriminate].
    inversion Hm; subst.
    destruct i as [| [| [| [| i]]]]; try lia;
      cbn [map seq interleave combine flat_map app Nat.mul Nat.add nth fst snd];
      eapply player_metrics_default; eassumption.
Qed.

(** C6, amended.  [extract_row] rejects exactly when the identifier is
    absent or empty, or the mode cannot be resolved, or the player array has
    not four entries, or [int] raises on a field, or the payload has neither
    a start time nor an end time, or one of the four player entries is no
    object.  In an accepted row a missing start time is the end time, and a
    missing level, score or grading score of a player is zero. *)
Theorem extract_row_rejects_exactly game mode_override :
  (extract_row int_of_str game mode_override = None <->
   listed_rejection int_of_str game mode_override
   || no_time_field game || player_not_dict game = true) /\
  (forall r,
     extract_row int_of_str game mode_override = Some r ->
     (field game "startTime" = JNull ->
      exists v, getitem_key game "endTime" = Ok v /\
                py_int int_of_str v = Ok (row_start r)) /\
     (forall i p, (i < 4)%nat ->
        getitem_index (players_of game) i = Ok (JObj p) ->
        (lookup_key "level" p = None -> nth (4 * i) (row_vals r) 0 = 0) /\
        (lookup_key "score" p = None -> nth (4 * i + 1) (row_vals r) 0 = 0) /\
        (lookup_key "gradingScore" p = None -> nth (4 * i + 2) (row_vals r) 0 = 0))).
Proof.
  split; [apply extract_row_rejection |].
  intros r. apply extract_row_accepted.
Qed.
End Rejection.

(** ** [insert_games]: counts and idempotence *)

Section Inserter.
Variable int_of_str : string -> option Z.
Variable id_text : json -> option string.

Lemma sql_eq_text_refl k : sql_eq (SText k) (SText k) = true.
Proof.
  unfold sql_eq, sql_compare.
  pose proof (String.compare_antisym k k) as H.
  destruct (String.compare k k); cbn in H; congruence.
Qed.

Lemma bind_row_key r cells :
  bind_row id_text r = Ok cells -> exists k, row_key cells = SText k.
Proof.
  unfold bind_row. destruct (id_text (row_id r)) as [k |]; [| discriminate].
  destruct (forallb _ _); [| discriminate].
  intros H. inversion H. now exists k.
Qed.

Lemma has_key_app store more k :
  has_key (store ++ more) k = has_key store k || has_key more k.
Proof. unfold has_key. apply existsb_app. Qed.

(** What one INSERT OR IGNORE does: it raises and changes nothing, or the
    key was there and nothing changes, or the row is added at the end. *)
Lemma execute_insert_cases store r :
  (exists e, execute_insert id_text store r = Raise e /\ raises (bind_row id_text r) = true) \/
  (exists cells, bind_row id_text r = Ok cells /\ has_key store (row_key cells) = true /\
     execute_insert id_text store r = Ok (store, 0)) \/
  (exists cells, bind_row id_text r = Ok cells /\ has_key store (row_key cells) = false /\
     execute_insert id_text store r = Ok (store ++ [cells], 1) /\
     has_key (store ++ [cells]) (row_key cells) = true).
Proof.
  unfold execute_insert.
  destruct (bind_row id_text r) as [cells | e] eqn:Eb; cbn [bind].
  - destruct (has_key store (row_key cells)) eqn:Ek.
    + right; left. now exists cells.
    + right; right. exists cells. repeat split; trivial.
      destruct (bind_row_key _ _ Eb) as [k Hk].
      rewrite has_key_app, Hk. unfold has_key at 2. cbn [existsb].
      rewrite Hk, sql_eq_text_refl. now rewrite orb_true_r.
  - left. now exists e.
Qed.








End Inserter.

(** ** Target-count mode *)

Section TargetCount.
Variable int_of_str : string -> option Z.
Variable id_text : json -> option string.

Lemma seen_add_keeps x gid seen :
  seen_mem x seen = true -> seen_mem x (seen_add gid seen) = true.
Proof.
  unfold seen_add. destruct (seen_mem gid seen); trivial.
  unfold seen_mem. cbn [existsb]. intros ->. apply orb_true_r.
Qed.

Lemma execute_insert_rowcount store r store' rowcount :
  execute_insert id_text store r = Ok (store', rowcount) ->
  (rowcount = 0 /\ store' = store) \/
  (rowcount = 1 /\ List.length store' = S (List.length store)).
Proof.
  destruct (execute_insert_cases id_text store r)
    as [(e & -> & _) | [(cells & _ & _ & ->) | (cells & _ & _ & -> & _)]];
    intros H; inversion H; subst; [now left |].
  right. split; trivial. rewrite length_app. cbn. lia.
Qed.

(** The capped loop: at most [remaining] rows are written, each one counted,
    the cap is reported exactly when it is reached, and the set of seen
    identifiers only grows. *)
Lemma insert_games_capped_loop_spec games :
  forall store mo remaining seen inserted skipped processed c,
  0 < remaining ->
  insert_games_capped_loop int_of_str id_text store games mo remaining seen
                           inserted skipped processed = Ok c ->
  inserted <= c_inserted c <= inserted + remaining /\
  (c_reached c = true <-> c_inserted c = inserted + remaining) /\
  Z.of_nat (List.length (c_store c))
    = Z.of_nat (List.length store) + (c_inserted c - inserted) /\
  (forall x, seen_mem x seen = true -> seen_mem x (c_seen c) = true).
Proof.
  induction games as [| g rest IH];
    intros store mo remaining seen inserted skipped processed c Hrem H.
  - cbn in H. inversion H; subst; cbn. repeat split; try lia; try discriminate; trivial.
  - cbn [insert_games_capped_loop] in H.
    destruct (game_id g) as [gid |]; cbn [bind] in H; [| discriminate].
    destruct (if is_none gid then Ok false
              else if hashable gid then Ok (seen_mem gid seen) else Raise TypeError)
      as [dup |]; cbn [bind] in H; [| discriminate].
    destruct dup; [now apply IH in H |].
    destruct (extract_row int_of_str g mo) as [r |]; [| now apply IH in H].
    destruct (execute_insert id_text store r) as [[store' rowcount] |] eqn:Ex;
      [| now apply IH in H].
    assert (Hseen : forall x, seen_mem x seen = true ->
              seen_mem x (if is_none gid then seen else seen_add gid seen) = true).
    { intros x Hx. destruct (is_none gid); trivial. now apply seen_add_keeps. }
    destruct (execute_insert_rowcount _ _ _ _ Ex) as [[-> ->] | [-> Hlen]]; cbn in H.
    + apply IH in H; trivial. destruct H as (H1 & H2 & H3 & H4).
      repeat split; try tauto; try lia. intros x Hx. apply H4, Hseen, Hx.
    + destruct (remaining - 1 <=? 0) eqn:Ecap.
      * apply Z.leb_le in Ecap. inversion H; subst; cbn.
        repeat split; try lia; trivial.
      * apply Z.leb_gt in Ecap. apply IH in H; [| lia].
        destruct H as (H1 & H2 & H3 & H4).
        repeat split; try lia.
        -- intros Hr. apply H2 in Hr. lia.
        -- intros Hr. apply H2. lia.
        -- intros x Hx. apply H4, Hseen, Hx.
Qed.

Lemma insert_games_capped_skips_seen store g rest mo remaining seen
    inserted skipped processed gid :
  game_id g = Ok gid -> is_none gid = false -> hashable gid = true ->
  seen_mem gid seen = true ->
  insert_games_capped_loop int_of_str id_text store (g :: rest) mo remaining seen
                           inserted skipped processed
  = insert_games_capped_loop int_of_str id_text store rest mo remaining seen
                             inserted (skipped + 1) (processed + 1).
Proof.
  intros Hg Hn Hh Hs. cbn [insert_games_capped_loop].
  rewrite Hg. cbn [bind]. rewrite Hn, Hh. cbn [bind]. now rewrite Hs.
Qed.

Section Loop.
Variable api : nat -> Z -> Z -> option json.
Variables (mode start_ms limit max_pages recent_count : Z) (verbose : bool).
Hypothesis target : 0 < recent_count.

Local Abbreviation body := (loop_body int_of_str id_text api mode start_ms limit max_pages
                                 recent_count verbose).
Local Abbreviation loop := (fetch_loop int_of_str id_text api mode start_ms limit max_pages
                                   recent_count verbose).
Local Abbreviation page_store := (store_page int_of_str id_text mode recent_count verbose).

Lemma store_page_capped st data st' cap :
  0 <= total_inserted st < recent_count ->
  page_store st data = Ok (st', cap) ->
  total_inserted st <= total_inserted st' <= recent_count /\
  (cap = true <-> total_inserted st' = recent_count) /\
  current_end st' = current_end st /\
  (forall x, seen_mem x (seen_ids st) = true -> seen_mem x (seen_ids st') = true).
Proof.
  intros Ht H. unfold store_page in H.
  rewrite (proj2 (Z.ltb_lt 0 recent_count) target) in H.
  unfold insert_games_capped in H.
  destruct (insert_games_capped_loop _ _ _ _ _ _ _ _ _ _) as [c |] eqn:Ec;
    cbn [bind] in H; [| discriminate].
  apply insert_games_capped_loop_spec in Ec; [| lia].
  destruct Ec as (H1 & H2 & _ & H4).
  inversion H; subst; cbn.
  repeat split; try lia; trivial.
  - intros Hc. apply H2 in Hc. lia.
  - intros Hc. apply H2. lia.
Qed.

Lemma loop_body_capped st :
  0 <= total_inserted st <= recent_count -> below_target recent_count (body st).
Proof.
  intros Ht. unfold loop_body.
  rewrite (proj2 (Z.ltb_lt 0 recent_count) target). cbn [andb].
  destruct (Z.max 0 (recent_count - total_inserted st) <=? 0) eqn:Er; [exact Ht |].
  apply Z.leb_gt in Er.
  destruct (fetch_page api (requests st) (current_end st) _) as [answer n].
  destruct answer as [[| | | | | [| g gs] |] |]; try exact Ht.
  match goal with
  | |- context [page_store ?s ?d] => destruct (page_store s d) as [[st1 cap] |] eqn:Es
  end; [| exact I].
  apply store_page_capped in Es; cbn; [| lia].
  destruct Es as (H1 & H2 & _ & _). cbn [total_inserted] in H1.
  destruct cap; [cbn; lia |].
  assert (Hlt : total_inserted st1 < recent_count).
  { destruct (Z.eq_dec (total_inserted st1) recent_count) as [E | E]; [| lia].
    apply H2 in E. discriminate. }
  destruct (oldest_start int_of_str (g :: gs)) as [o | e]; [| destruct e; cbn; trivial; lia].
  destruct (_ <? start_ms); [cbn; lia |]. cbn [pages total_inserted].
  destruct (negb (max_pages =? 0) && (max_pages <=? pages st1 )); cbn; lia.
Qed.

Lemma fetch_loop_capped fuel : forall st,
  0 <= total_inserted st <= recent_count ->
  match loop fuel st with
  | Done st' | OutOfFuel st' => 0 <= total_inserted st' <= recent_count
  | Aborted _ => True
  end.
Proof.
  induction fuel as [| fuel IH]; intros st Ht; cbn [fetch_loop].
  - destruct (current_end st <? start_ms); exact Ht.
  - destruct (current_end st <? start_ms); [exact Ht |].
    pose proof (loop_body_capped st Ht) as Hb.
    destruct (body st) as [st' | st' |]; cbn in Hb; trivial.
    apply IH. lia.
Qed.

Lemma loop_body_at_target st :
  total_inserted st = recent_count -> body st = Break st.
Proof.
  intros E. unfold loop_body.
  rewrite (proj2 (Z.ltb_lt 0 recent_count) target). cbn [andb].
  rewrite E, Z.sub_diag. reflexivity.
Qed.

End Loop.

(** C4.  With a target [recent_count] above zero, whatever the API answers:
    the run's count of inserted rows never exceeds the target, at the end
    of a run and at the end of any number of iterations; the loop goes on
    to a next page only while the count is below the target, and at the
    target it stops without a request; [insert_games_capped] writes at most
    [remaining] rows, counts each row it writes, stops at the record that
    reaches the cap and reports the cap exactly then, and never removes an
    identifier from the set of seen ones; and a record whose identifier is
    in that set is skipped: nothing is written and nothing is counted as
    inserted. *)
Theorem recent_mode_respects_target api mode start_ms limit max_pages recent_count verbose :
  0 < recent_count ->
  (forall games end_ms fuel,
     match fetch_and_store int_of_str id_text api mode start_ms limit max_pages
                           recent_count verbose games end_ms fuel with
     | Done st | OutOfFuel st => 0 <= total_inserted st <= recent_count
     | Aborted _ => True
     end) /\
  (forall st,
     0 <= total_inserted st <= recent_count ->
     match loop_body int_of_str id_text api mode start_ms limit max_pages
                     recent_count verbose st with
     | Continue st' => 0 <= total_inserted st' < recent_count
     | Break st' => 0 <= total_inserted st' <= recent_count
     | Abort _ => True
     end) /\
  (forall st,
     total_inserted st = recent_count ->
     loop_body int_of_str id_text api mode start_ms limit max_pages
               recent_count verbose st = Break st) /\
  (forall conn games mode_override remaining seen c,
     0 < remaining ->
     insert_games_capped int_of_str id_text conn games mode_override remaining (Some seen)
       = Ok c ->
     0 <= c_inserted c <= remaining /\
     (c_reached c = true <-> c_inserted c = remaining) /\
     Z.of_nat (List.length (c_store c)) = Z.of_nat (List.length conn) + c_inserted c /\
     (forall x, seen_mem x seen = true -> seen_mem x (c_seen c) = true)) /\
  (forall store g rest mode_override remaining seen inserted skipped processed gid,
     game_id g = Ok gid -> is_none gid = false -> hashable gid = true ->
     seen_mem gid seen = true ->
     insert_games_capped_loop int_of_str id_text store (g :: rest) mode_override
                              remaining seen inserted skipped processed
     = insert_games_capped_loop int_of_str id_text store rest mode_override
                                remaining seen inserted (skipped + 1) (processed + 1)).
Proof.
  intros target. split; [| split; [| split; [| split]]].
  - intros games end_ms fuel. unfold fetch_and_store.
    destruct (ensure_schema games) as [[t |] |]; trivial.
    apply fetch_loop_capped; cbn; lia.
  - intros st Ht. apply (loop_body_capped api mode start_ms limit max_pages
                           recent_count verbose target st Ht).
  - intros st E. now apply loop_body_at_target.
  - intros conn games mo remaining seen c Hrem H.
    apply insert_games_capped_loop_spec in H; trivial.
    destruct H as (H1 & H2 & H3 & H4).
    split; [lia |]. split; [| split; [lia | exact H4]].
    split; intros Hr; [apply H2 in Hr; lia | apply H2; lia].
  - intros. eapply insert_games_capped_skips_seen; eassumption.
Qed.
End TargetCount.

(** ** The cursor and the end of the pagination loop *)

Lemma next_cursor_guarded c o :
  to_seconds c <= to_seconds (to_ms o - 1) -> next_cursor c o < c.
Proof.
  unfold next_cursor. intros H. rewrite (proj2 (Z.leb_le _ _) H).
  destruct (c <=? to_seconds c * 1000 - 1000) eqn:E; [lia |].
  apply Z.leb_gt in E. lia.
Qed.

Lemma next_cursor_decreases c o :
  10 ^ 12 <= c \/ to_ms o <= c -> next_cursor c o < c.
Proof.
  intros H.
  destruct (Z.le_gt_cases (to_seconds c) (to_seconds (to_ms o - 1))) as [Hg | Hg];
    [now apply next_cursor_guarded |].
  unfold next_cursor. rewrite (proj2 (Z.leb_gt _ _) Hg).
  destruct H as [H | H]; [| lia].
  unfold to_seconds in Hg. rewrite (proj2 (Z.leb_le _ _) H) in Hg.
  destruct (10 ^ 12 <=? to_ms o - 1) eqn:E.
  - destruct (Z.lt_ge_cases (to_ms o - 1) c) as [Hlt | Hge]; trivial.
    apply (Z.div_le_mono _ _ 1000) in Hge; lia.
  - apply Z.leb_gt in E. lia.
Qed.

Section Pagination.
Variable int_of_str : string -> option Z.
Variable id_text : json -> option string.
Variable api : nat -> Z -> Z -> option json.
Variables (mode start_ms limit max_pages recent_count : Z) (verbose : bool).

Local Abbreviation body :=
  (loop_body int_of_str id_text api mode start_ms limit max_pages recent_count verbose).
Local Abbreviation loop :=
  (fetch_loop int_of_str id_text api mode start_ms limit max_pages recent_count verbose).
Local Abbreviation page_store := (store_page int_of_str id_text mode recent_count verbose).

Lemma store_page_cursor st data st' cap :
  page_store st data = Ok (st', cap) -> current_end st' = current_end st.
Proof.
  unfold store_page. destruct (0 <? recent_count).
  - destruct (insert_games_capped _ _ _ _ _ _ _); cbn [bind]; [| discriminate].
    intros H. now inversion H.
  - destruct (insert_games _ _ _ _ _ _); cbn [bind]; [| discriminate].
    intros H. now inversion H.
Qed.

Lemma fetch_page_answer n end_ms page_limit data n' :
  fetch_page api n end_ms page_limit = (Some data, n') ->
  exists k, api k end_ms page_limit = Some data.
Proof.
  unfold fetch_page. destruct (api n end_ms page_limit) eqn:E; intros H; inversion H; subst.
  - now exists n.
  - now exists (S n).
Qed.

Lemma loop_body_progress st st' :
  10 ^ 12 <= start_ms \/ in_window int_of_str api ->
  start_ms <= current_end st ->
  body st = Continue st' ->
  start_ms <= current_end st' < current_end st.
Proof.
  intros Hw Hc. unfold loop_body.
  destruct (_ && _); [discriminate |].
  destruct (fetch_page api _ _ _) as [answer n] eqn:Ef.
  destruct answer as [[| | | | | [| g gs] |] |]; try discriminate.
  apply fetch_page_answer in Ef as [k Hk].
  match goal with
  | |- context [page_store ?s ?d] => destruct (page_store s d) as [[st1 cap] |] eqn:Es
  end; [| discriminate].
  apply store_page_cursor in Es. cbn [current_end] in Es.
  destruct cap; [discriminate |].
  destruct (oldest_start int_of_str (g :: gs)) as [o | e] eqn:Eo;
    [| destruct e; discriminate].
  destruct (next_cursor (current_end st1) o <? start_ms) eqn:En; [discriminate |].
  apply Z.ltb_ge in En.
  assert (Hdec : next_cursor (current_end st1) o < current_end st1).
  { apply next_cursor_decreases. rewrite Es.
    destruct Hw as [Hs | Hin]; [left; lia | right; eapply Hin; eassumption]. }
  destruct (_ && _); [discriminate |].
  intros H. inversion H; subst; cbn [current_end]. lia.
Qed.

Lemma fetch_loop_terminates fuel : forall st,
  10 ^ 12 <= start_ms \/ in_window int_of_str api ->
  (Z.to_nat (current_end st - start_ms + 1) <= fuel)%nat ->
  exists st', loop fuel st = Done st' \/ exists e, loop fuel st = Aborted e.
Proof.
  induction fuel as [| fuel IH]; intros st Hw Hf; cbn [fetch_loop].
  - destruct (current_end st <? start_ms) eqn:E; [exists st; now left |].
    apply Z.ltb_ge in E. lia.
  - destruct (current_end st <? start_ms) eqn:E; [exists st; now left |].
    apply Z.ltb_ge in E.
    destruct (body st) as [st1 | st1 | e] eqn:Eb.
    + apply loop_body_progress in Eb; trivial. apply IH; trivial. lia.
    + exists st1. now left.
    + exists st. right. now exists e.
Qed.

(** C3, amended.  When the window starts at 10^12 ms or later, or every page
    the API answers with lies in the window it was asked for, then: the next
    cursor is strictly below the current one, also when the progress guard
    fires; every iteration that goes on to a next request does so with a
    strictly smaller cursor that is still in the window; and the loop stops
    within [end_ms - start_ms + 1] iterations. *)
Theorem pagination_terminates games end_ms :
  10 ^ 12 <= start_ms \/ in_window int_of_str api ->
  (forall c o, 10 ^ 12 <= c \/ to_ms o <= c -> next_cursor c o < c) /\
  (forall c o, to_seconds c <= to_seconds (to_ms o - 1) -> next_cursor c o < c) /\
  (forall st st', start_ms <= current_end st -> body st = Continue st' ->
                  start_ms <= current_end st' < current_end st) /\
  (forall fuel, (Z.to_nat (end_ms - start_ms + 1) <= fuel)%nat ->
     match fetch_and_store int_of_str id_text api mode start_ms limit max_pages
                           recent_count verbose games end_ms fuel with
     | OutOfFuel _ => False
     | _ => True
     end).
Proof.
  intros Hw. split; [| split; [| split]].
  - apply next_cursor_decreases.
  - apply next_cursor_guarded.
  - intros st st'. now apply loop_body_progress.
  - intros fuel Hf. unfold fetch_and_store.
    destruct (ensure_schema games) as [[t |] |]; trivial.
    destruct (fetch_loop_terminates fuel (Run 0 0 end_ms [] (t_rows t) 0) Hw Hf)
      as [st' [-> | [e ->]]]; trivial.
Qed.
End Pagination.

(** ** Schema migration *)

Lemma cols_eqb_eq a : forall b, cols_eqb a b = true -> a = b.
Proof.
  induction a as [| x a IH]; intros [| y b] H; try discriminate; trivial.
  cbn in H. apply andb_true_iff in H as [Hx Hr].
  apply String.eqb_eq in Hx. subst. f_equal. now apply IH.
Qed.






(** ** The report commands *)

Section Reports.
Variable int_of_str : string -> option Z.
Variables do_summary do_export do_rank_correlation
  : list dbrow -> args -> list event * exc unit.



Lemma args_mode_set a m : args_mode (set_mode a m) = m.
Proof. reflexivity. Qed.




(** C8, as the code has it.  With [compare-levels] and equal levels, the
    error is written to standard error, no query is executed, and the exit
    code of the process is 0. *)
Theorem main_equal_levels_exit_code conn a :
  args_cmd a = "compare-levels" ->
  args_level_a a = args_level_b a ->
  main int_of_str do_summary do_export do_rank_correlation conn a
  = ([Stderr "Error: --level-a and --level-b must be different"], 0).
Proof.
  intros Hc Hl. unfold main, do_compare_levels. rewrite Hc, Hl, Z.eqb_refl. reflexivity.
Qed.
End Reports.

(** * Further properties of the code *)

(** ** Time units and the request URL *)

(** X1.  The two unit heuristics undo each other on a bounded range only:
    converting seconds to milliseconds and back gives the value again
    exactly for zero and for the seconds from 10^9 up to 10^12, and
    converting milliseconds to seconds and back gives the value again
    exactly for zero and for the whole seconds from 10^12 up to 10^15. *)
Theorem to_seconds_to_ms_round_trip x :
  (to_seconds (to_ms x) = x <-> x = 0 \/ 10 ^ 9 <= x < 10 ^ 12) /\
  (to_ms (to_seconds x) = x <->
   x = 0 \/ (10 ^ 12 <= x < 10 ^ 15 /\ x mod 1000 = 0)).
Proof.
  unfold to_ms, to_seconds.
  change (10 ^ 9) with 1000000000. change (10 ^ 12) with 1000000000000.
  change (10 ^ 15) with 1000000000000000.
  split.
  - destruct (Z.leb_spec 1000000000000 x) as [H | H].
    + rewrite (proj2 (Z.leb_le _ _) H). split; [| lia].
      intros E. pose proof (Z.div_mod x 1000 ltac:(lia)).
      pose proof (Z.mod_pos_bound x 1000 ltac:(lia)). lia.
    + destruct (Z.leb_spec 1000000000000 (x * 1000)) as [H' | H'].
      * rewrite Z.div_mul by lia. split; [lia | trivial].
      * split; lia.
  - destruct (Z.leb_spec 1000000000000 x) as [H | H].
    + pose proof (Z.div_mod x 1000 ltac:(lia)).
      pose proof (Z.mod_pos_bound x 1000 ltac:(lia)).
      destruct (Z.leb_spec 1000000000000 (x / 1000)) as [H' | H']; split; lia.
    + rewrite (proj2 (Z.leb_gt _ _) H). split; lia.
Qed.

(** *** The request URL *)

Lemma string_of_uint_numeric d :
  numeric (DecimalString.NilEmpty.string_of_uint d) = true.
Proof. induction d; cbn; trivial. Qed.

Lemma py_str_numeric z : numeric (py_str z) = true.
Proof.
  unfold py_str, DecimalString.NilZero.string_of_int, DecimalString.NilZero.string_of_uint.
  destruct (Z.to_int z) as [d | d]; destruct d; cbn; trivial;
    apply string_of_uint_numeric.
Qed.

Lemma py_str_inj z z' : py_str z = py_str z' -> z = z'.
Proof.
  assert (Hnil : forall n, Z.to_int n <> Decimal.Pos Decimal.Nil /\
                           Z.to_int n <> Decimal.Neg Decimal.Nil).
  { intros [| p | p]; cbn; split; try discriminate;
      intros E; inversion E as [E']; exact (DecimalPos.Unsigned.to_uint_nonnil p E'). }
  unfold py_str. intros H.
  apply (f_equal DecimalString.NilZero.int_of_string) in H.
  rewrite !DecimalString.NilZero.isi in H by apply Hnil.
  inversion H as [E]. now apply DecimalZ.to_int_inj.
Qed.

(** Two texts of digits followed by the same separator: the separator
    tells where the digits end. *)
Lemma numeric_split a : forall a' c r r',
  numeric a = true -> numeric a' = true -> numeric_char c = false ->
  (a ++ String c r)%string = (a' ++ String c r')%string -> a = a' /\ r = r'.
Proof.
  induction a as [| x a IH]; intros [| x' a'] c r r' Ha Ha' Hc H; cbn in *.
  - inversion H. now split.
  - inversion H; subst. apply andb_true_iff in Ha' as [Hx _]. congruence.
  - inversion H; subst. apply andb_true_iff in Ha as [Hx _]. congruence.
  - inversion H; subst.
    apply andb_true_iff in Ha as [_ Ha]. apply andb_true_iff in Ha' as [_ Ha'].
    destruct (IH a' c r r' Ha Ha' Hc) as [-> ->]; trivial. now split.
Qed.

Lemma string_cons_inj c a b : String c a = String c b -> a = b.
Proof. intros H. now inversion H. Qed.

(** X2.  The URL tells the request: two calls of [build_url] that give the
    same text were given the same window, mode, page size and direction. *)
Theorem build_url_injective e s m l d e' s' m' l' d' :
  build_url e s m l d = build_url e' s' m' l' d' <->
  e = e' /\ s = s' /\ m = m' /\ l = l' /\ d = d'.
Proof.
  split; [| now intros (-> & -> & -> & -> & ->)].
  unfold build_url, BASE_URL, urlencode. cbn [map String.concat].
  pose proof (py_str_numeric e) as He. pose proof (py_str_numeric e') as He'.
  pose proof (py_str_numeric s) as Hs. pose proof (py_str_numeric s') as Hs'.
  pose proof (py_str_numeric l) as Hl. pose proof (py_str_numeric l') as Hl'.
  pose proof (py_str_inj e e') as Ie. pose proof (py_str_inj s s') as Is.
  pose proof (py_str_inj l l') as Il. pose proof (py_str_inj m m') as Im.
  generalize dependent (py_str e). generalize dependent (py_str e').
  generalize dependent (py_str s). generalize dependent (py_str s').
  generalize dependent (py_str l). generalize dependent (py_str l').
  generalize dependent (py_str m). generalize dependent (py_str m').
  intros M' M Im L' Hl' L Hl Il S' Hs' S Hs Is E' He' E He Ie H.
  cbn [String.append] in H.
  repeat apply string_cons_inj in H.
  apply numeric_split in H as [-> H]; trivial.
  cbn [String.append] in H. repeat apply string_cons_inj in H.
  apply numeric_split in H as [-> H]; trivial.
  cbn [String.append] in H. repeat apply string_cons_inj in H.
  apply numeric_split in H as [-> H]; trivial.
  repeat apply string_cons_inj in H.
  assert (d = d' /\ M = M') as [-> ->].
  { destruct d, d'; cbn [String.append] in H;
      repeat apply string_cons_inj in H; try discriminate; now split. }
  repeat split; auto.
Qed.

Example build_url_docstring :
  build_url 1759828200000 1659809600000 12 100000 true
  = "https://5-data.amae-koromo.com/api/v2/pl4/games/1759828200000/1659809600000?limit=100000&descending=true&mode=12".
Proof. reflexivity. Qed.

(** ** The fields of an accepted row *)

Section RowFields.
Variable int_of_str : string -> option Z.

Lemma extract_row_head game mo r :
  extract_row int_of_str game mo = Some r ->
  game_id game = Ok (row_id r) /\ truthy (row_id r) = true /\
  resolve_mode int_of_str game mo = Ok (Some (row_mode r)).
Proof.
  unfold extract_row, extract_row_body. intros H.
  destruct (game_id game) as [gid |] eqn:Eg; cbn [bind] in H; [| discriminate].
  destruct (truthy gid) eqn:Et; cbn [negb] in H; [| discriminate].
  destruct (resolve_mode int_of_str game mo) as [[mode |] |] eqn:Em; cbn [bind] in H;
    try discriminate.
  destruct (resolve_start_time int_of_str game) as [st |]; cbn [bind] in H; [| discriminate].
  destruct (dict_get game "players" JNull) as [pv |]; cbn [bind] in H; [| discriminate].
  destruct (py_len _) as [n |]; cbn [bind] in H; [| discriminate].
  destruct (negb (Nat.eqb n 4)); [discriminate |].
  destruct (all_metrics _ _ _) as [ms |] eqn:Ea; cbn [bind] in H; [| discriminate].
  inversion H; subst; cbn. auto.
Qed.

Lemma extract_row_mode_only game mo mo' :
  resolve_mode int_of_str game mo = resolve_mode int_of_str game mo' ->
  extract_row int_of_str game mo = extract_row int_of_str game mo'.
Proof. unfold extract_row, extract_row_body. now intros ->. Qed.

(** X3.  An accepted row has sixteen player values after its identifier,
    mode and start time, one per column of the INSERT; its identifier is
    the record's [_id] when that is truthy and its [uuid] otherwise, and is
    truthy; a [modeId] in the record is the mode of the row and makes
    [mode_override] irrelevant, and without one the mode is the override. *)
Theorem extract_row_fields game mode_override r :
  extract_row int_of_str game mode_override = Some r ->
  List.length (row_vals r) = 16%nat /\
  S (S (S (List.length (row_vals r)))) = List.length INSERT_COLUMNS /\
  truthy (row_id r) = true /\
  row_id r = (if truthy (field game "_id") then field game "_id" else field game "uuid") /\
  (is_none (field game "modeId") = true -> mode_override = Some (row_mode r)) /\
  (is_none (field game "modeId") = false ->
   py_int int_of_str (field game "modeId") = Ok (row_mode r) /\
   forall other, extract_row int_of_str game other = Some r).
Proof.
  intros H.
  destruct (extract_row_head _ _ _ H) as (Hid & Ht & Hm).
  destruct (extract_row_inv _ _ _ _ H)
    as ([[l0 s0] g0] & [[l1 s1] g1] & [[l2 s2] g2] & [[l3 s3] g3] & _ & _ & Hv).
  assert (Hlen : List.length (row_vals r) = 16%nat).
  { rewrite Hv. cbn [map fst snd]. rewrite compute_ranks_four. reflexivity. }
  split; [exact Hlen |]. split; [now rewrite Hlen |]. split; [exact Ht |].
  unfold game_id in Hid. unfold field.
  destruct game as [| | | | | | items]; try discriminate Hid.
  cbn [dict_get bind] in *.
  split; [| split].
  - destruct (lookup_key "_id" items) as [v |]; cbn [bind] in Hid |- *.
    + destruct (truthy v); [now inversion Hid |].
      destruct (lookup_key "uuid" items); now inversion Hid.
    + cbn [truthy] in Hid |- *. destruct (lookup_key "uuid" items); now inversion Hid.
  - intros Hn. unfold resolve_mode in Hm. cbn [dict_get] in Hm.
    destruct (lookup_key "modeId" items) as [v |]; cbn [bind] in Hm, Hn.
    + rewrite Hn in Hm. now inversion Hm.
    + cbn [is_none] in Hm. now inversion Hm.
  - intros Hn. unfold resolve_mode in Hm. cbn [dict_get] in Hm.
    assert (Hall : forall other,
              resolve_mode int_of_str (JObj items) other
              = resolve_mode int_of_str (JObj items) mode_override).
    { intros other. unfold resolve_mode. cbn [dict_get].
      destruct (lookup_key "modeId" items) as [v |]; cbn [bind] in Hn |- *;
        [now rewrite Hn | discriminate Hn]. }
    split.
    + destruct (lookup_key "modeId" items) as [v |]; cbn [bind] in Hm, Hn |- *;
        [| discriminate Hn].
      rewrite Hn in Hm. destruct (py_int int_of_str v); cbn [bind] in Hm; congruence.
    + intros other. rewrite <- H. apply extract_row_mode_only, Hall.
Qed.
End RowFields.

(** ** [insert_games]: what is written *)

Lemma ids_distinct_snoc ids k :
  ids_distinct (ids ++ [k])
  = ids_distinct ids && negb (existsb (fun x => sql_eq x k) ids).
Proof.
  induction ids as [| x ids IH]; [reflexivity |].
  cbn [app ids_distinct existsb]. rewrite IH, existsb_app. cbn [existsb].
  rewrite orb_false_r, !negb_orb.
  destruct (existsb (sql_eq x) ids), (sql_eq x k), (ids_distinct ids); reflexivity.
Qed.

Lemma has_key_map store k :
  has_key store k = existsb (fun x => sql_eq x k) (map row_key store).
Proof. unfold has_key. induction store; cbn; congruence. Qed.

Lemma keys_distinct_snoc store cells :
  keys_distinct store = true -> has_key store (row_key cells) = false ->
  keys_distinct (store ++ [cells]) = true.
Proof.
  unfold keys_distinct. intros Hd Hk. rewrite map_app. cbn [map].
  now rewrite ids_distinct_snoc, Hd, <- has_key_map, Hk.
Qed.

Section InserterMore.
Variable int_of_str : string -> option Z.
Variable id_text : json -> option string.

Lemma row_of_batch_cons mo g games cells :
  row_of_batch int_of_str id_text mo games cells ->
  row_of_batch int_of_str id_text mo (g :: games) cells.
Proof. intros (g' & r & Hin & H). exists g', r. split; [now right | exact H]. Qed.

Lemma insert_games_loop_added games : forall store mo verbose ok skipped store' ok' skipped',
  insert_games_loop int_of_str id_text store games mo verbose ok skipped
    = Ok (store', (ok', skipped')) ->
  exists added,
    store' = store ++ added /\
    ok' = ok + Z.of_nat (List.length added) /\
    (keys_distinct store = true -> keys_distinct store' = true) /\
    Forall (row_of_batch int_of_str id_text mo games) added.
Proof.
  induction games as [| g rest IH]; intros store mo verbose ok skipped store' ok' skipped' H.
  - cbn in H. inversion H; subst. exists []. rewrite app_nil_r. cbn.
    repeat split; trivial; lia.
  - cbn [insert_games_loop] in H.
    assert (Hskip : forall sk,
              insert_games_loop int_of_str id_text store rest mo verbose ok sk
                = Ok (store', (ok', skipped')) ->
              exists added,
                store' = store ++ added /\
                ok' = ok + Z.of_nat (List.length added) /\
                (keys_distinct store = true -> keys_distinct store' = true) /\
                Forall (row_of_batch int_of_str id_text mo (g :: rest)) added).
    { intros sk Hr. destruct (IH _ _ _ _ _ _ _ _ Hr) as (added & ? & ? & ? & Hf).
      exists added. repeat split; trivial.
      eapply Forall_impl; [exact Hf |]. intros c. apply row_of_batch_cons. }
    destruct (extract_row int_of_str g mo) as [r |] eqn:Er.
    + destruct (execute_insert_cases id_text store r)
        as [(e & Ex & _) | [(cells & _ & _ & Ex) | (cells & Hb & Hk & Ex & _)]];
        rewrite Ex in H; cbn in H; eauto.
      destruct (IH _ _ _ _ _ _ _ _ H) as (added & -> & -> & Hd & Hf).
      exists (cells :: added). cbn [List.length].
      repeat split; [now rewrite <- app_assoc | lia | |].
      * intros Hs. apply Hd. now apply keys_distinct_snoc.
      * constructor.
        -- exists g, r. split; [now left | now split].
        -- eapply Forall_impl; [exact Hf |]. intros c. apply row_of_batch_cons.
    + destruct (verbose && negb (is_dict g)); [discriminate | eauto].
Qed.

(** X4.  [insert_games] only appends: the rows that were in the table are
    still there, unchanged and in place; the rows after them are as many as
    the count of inserted records, and each one is what [extract_row] and
    the binding of parameters make of a record of the batch. *)
Theorem insert_games_appends conn games mode_override verbose store inserted skipped :
  insert_games int_of_str id_text conn games mode_override verbose
    = Ok (store, (inserted, skipped)) ->
  exists added,
    store = conn ++ added /\
    inserted = Z.of_nat (List.length added) /\
    Forall (row_of_batch int_of_str id_text mode_override games) added.
Proof.
  unfold insert_games. intros H.
  destruct (insert_games_loop_added _ _ _ _ _ _ _ _ _ H) as (added & ? & ? & _ & ?).
  exists added. repeat split; trivial.
Qed.

End InserterMore.

(** ** [insert_games_capped]: the returned tuple *)

Section CappedMore.
Variable int_of_str : string -> option Z.
Variable id_text : json -> option string.

(** The capped loop for any [remaining]: the counters move together, the
    table is appended to, and the loop ends early exactly at the insertion
    that uses up the rest of the cap, which with no cap left is the first
    one. *)
Lemma insert_games_capped_loop_counts games :
  forall store mo remaining seen inserted skipped processed c,
  insert_games_capped_loop int_of_str id_text store games mo remaining seen
                           inserted skipped processed = Ok c ->
  exists added,
    c_store c = store ++ added /\
    c_inserted c = inserted + Z.of_nat (List.length added) /\
    c_processed c - processed = (c_inserted c - inserted) + (c_skipped c - skipped) /\
    skipped <= c_skipped c /\
    c_processed c <= processed + Z.of_nat (List.length games) /\
    (c_reached c = true <-> c_inserted c = inserted + Z.max 1 remaining) /\
    c_inserted c <= inserted + Z.max 1 remaining /\
    (c_reached c = false -> c_processed c = processed + Z.of_nat (List.length games)) /\
    (keys_distinct store = true -> keys_distinct (c_store c) = true) /\
    Forall (row_of_batch int_of_str id_text mo games) added.
Proof.
  induction games as [| g rest IH];
    intros store mo remaining seen inserted skipped processed c H.
  - cbn in H. inversion H; subst; cbn. exists []. rewrite app_nil_r. cbn.
    repeat split; trivial; try lia; discriminate.
  - cbn [insert_games_capped_loop] in H.
    assert (Hskip : forall seen',
              insert_games_capped_loop int_of_str id_text store rest mo remaining seen'
                                       inserted (skipped + 1) (processed + 1) = Ok c ->
              exists added,
                c_store c = store ++ added /\
                c_inserted c = inserted + Z.of_nat (List.length added) /\
                c_processed c - processed
                  = (c_inserted c - inserted) + (c_skipped c - skipped) /\
                skipped <= c_skipped c /\
                c_processed c <= processed + Z.of_nat (List.length (g :: rest)) /\
                (c_reached c = true <-> c_inserted c = inserted + Z.max 1 remaining) /\
                c_inserted c <= inserted + Z.max 1 remaining /\
                (c_reached c = false ->
                 c_processed c = processed + Z.of_nat (List.length (g :: rest))) /\
                (keys_distinct store = true -> keys_distinct (c_store c) = true) /\
                Forall (row_of_batch int_of_str id_text mo (g :: rest)) added).
    { intros seen' Hr.
      destruct (IH _ _ _ _ _ _ _ _ Hr)
        as (added & H1 & H2 & H3 & H4 & H5 & H6 & H7 & H8 & H9 & Hf).
      exists added. cbn [List.length]. rewrite Nat2Z.inj_succ.
      repeat split; trivial; try lia.
      - apply H6. - apply H6. - intros Hc. apply H8 in Hc. lia.
      - eapply Forall_impl; [exact Hf |]. intros x. apply row_of_batch_cons. }
    destruct (game_id g) as [gid |]; cbn [bind] in H; [| discriminate].
    destruct (if is_none gid then Ok false
              else if hashable gid then Ok (seen_mem gid seen) else Raise TypeError)
      as [dup |]; cbn [bind] in H; [| discriminate].
    destruct dup; [eauto |].
    destruct (extract_row int_of_str g mo) as [r |] eqn:Er; [| eauto].
    destruct (execute_insert_cases id_text store r)
      as [(e & Ex & _) | [(cells & _ & _ & Ex) | (cells & Hb & Hk & Ex & _)]];
      rewrite Ex in H; cbn [Z.ltb Z.compare] in H; eauto.
    assert (Hrow : row_of_batch int_of_str id_text mo (g :: rest) cells).
    { exists g, r. split; [now left | now split]. }
    destruct (remaining - 1 <=? 0) eqn:Ecap.
    + apply Z.leb_le in Ecap. inversion H; subst; cbn.
      exists [cells]. cbn [List.length]. rewrite Nat2Z.inj_succ.
      repeat split; trivial; try lia.
      * intros Hs. now apply keys_distinct_snoc.
      * now constructor.
    + apply Z.leb_gt in Ecap.
      destruct (IH _ _ _ _ _ _ _ _ H)
        as (added & H1 & H2 & H3 & H4 & H5 & H6 & H7 & H8 & H9 & Hf).
      exists (cells :: added). cbn [List.length]. rewrite !Nat2Z.inj_succ.
      repeat split; trivial; try lia.
      * now rewrite H1, <- app_assoc.
      * intros Hc. apply H6 in Hc. lia.
      * intros Hc. apply H6. lia.
      * intros Hc. apply H8 in Hc. lia.
      * intros Hs. apply H9. now apply keys_distinct_snoc.
      * constructor; trivial.
        eapply Forall_impl; [exact Hf |]. intros x. apply row_of_batch_cons.
Qed.

(** X6.  The tuple [insert_games_capped] returns, for any [remaining] and
    any set of seen identifiers: [processed] is [inserted] plus [skipped]
    and at most the length of the page; the rows appended to the table are
    [inserted] many; the cap is reported exactly when [inserted] is
    [remaining], or 1 when [remaining] is below 1, since the cap is tested
    only after a row was written; and a call that does not report the cap
    has gone through the whole page. *)
Theorem insert_games_capped_accounts conn games mode_override remaining seen c :
  insert_games_capped int_of_str id_text conn games mode_override remaining seen = Ok c ->
  c_processed c = c_inserted c + c_skipped c /\
  0 <= c_skipped c /\
  c_processed c <= Z.of_nat (List.length games) /\
  0 <= c_inserted c <= Z.max 1 remaining /\
  (c_reached c = true <-> c_inserted c = Z.max 1 remaining) /\
  (c_reached c = false -> c_processed c = Z.of_nat (List.length games)) /\
  exists added,
    c_store c = conn ++ added /\ c_inserted c = Z.of_nat (List.length added) /\
    Forall (row_of_batch int_of_str id_text mode_override games) added.
Proof.
  unfold insert_games_capped. intros H.
  destruct (insert_games_capped_loop_counts _ _ _ _ _ _ _ _ _ H)
    as (added & H1 & H2 & H3 & H4 & H5 & H6 & H7 & H8 & _ & Hf).
  repeat split; try lia; try apply H6.
  - intros Hc. apply H8 in Hc. lia.
  - exists added. repeat split; trivial.
Qed.
End CappedMore.

(** ** The rows of the table *)

Lemma permutation_well_ranked k m s l0 s0 g0 r0 l1 s1 g1 r1 l2 s2 g2 r2 l3 s3 g3 r3 :
  Permutation [r0; r1; r2; r3] [1; 2; 3; 4] ->
  well_ranked (SText k :: SInt m :: SInt s ::
               map SInt [l0; s0; g0; r0; l1; s1; g1; r1; l2; s2; g2; r2; l3; s3; g3; r3])
  = true.
Proof.
  intros Hp. unfold well_ranked. cbn [map rank_columns].
  change (forallb (fun x => existsb (Z.eqb x) [r0; r1; r2; r3]) [1; 2; 3; 4] = true).
  apply forallb_forall. intros x Hx. apply existsb_exists. exists x.
  split; [| apply Z.eqb_refl].
  apply (Permutation_in _ (Permutation_sym Hp)). exact Hx.
Qed.

Section StoredRows.
Variable int_of_str : string -> option Z.
Variable id_text : json -> option string.


Lemma row_of_batch_well_formed mo games cells :
  row_of_batch int_of_str id_text mo games cells ->
  List.length cells = 19%nat /\ well_ranked cells = true.
Proof.
  intros (g & r & _ & He & Hb).
  unfold bind_row in Hb.
  destruct (id_text (row_id r)) as [k |]; [| discriminate].
  destruct (forallb int64 _) eqn:Hi; [| discriminate].
  inversion Hb; subst. clear Hb.
  destruct (extract_row_inv _ _ _ _ He)
    as ([[l0 s0] g0] & [[l1 s1] g1] & [[l2 s2] g2] & [[l3 s3] g3] & _ & _ & Hv).
  cbn [map fst snd] in Hv.
  pose proof (compute_ranks_perm s0 s1 s2 s3) as Hp.
  rewrite compute_ranks_four in Hv, Hp.
  cbn [map seq interleave combine flat_map app] in Hv, Hp.
  rewrite Hv. split; [reflexivity |]. now apply permutation_well_ranked.
Qed.

End StoredRows.

(** ** [ensure_schema], twice *)

(** X8.  Whenever [ensure_schema] succeeds there is a games table, its
    columns are [INSERT_COLUMNS] in that order, it has a row for each row
    there was, and a second call finds nothing to do: it succeeds and
    leaves that table as it is. *)
Theorem ensure_schema_idempotent games r :
  ensure_schema games = Ok r ->
  exists t',
    r = Some t' /\
    t_cols t' = INSERT_COLUMNS /\
    List.length (t_rows t')
      = List.length (match games with Some t => t_rows t | None => [] end) /\
    ensure_schema r = Ok r.
Proof.
  unfold ensure_schema at 1. intros H.
  destruct games as [t |].
  - destruct (cols_eqb (t_cols t) INSERT_COLUMNS) eqn:Ec.
    + inversion H; subst. exists t. apply cols_eqb_eq in Ec.
      repeat split; trivial. unfold ensure_schema. now rewrite Ec.
    + destruct (negb _); [discriminate |].
      destruct (ids_distinct _); [| discriminate].
      inversion H; subst. eexists. repeat split. cbn. now rewrite length_map.
  - inversion H; subst. eexists. repeat split.
Qed.

(** ** A run: the table and the cap on pages *)

Section LoopMore.
Variable int_of_str : string -> option Z.
Variable id_text : json -> option string.
Variable api : nat -> Z -> Z -> option json.
Variables (mode start_ms limit max_pages recent_count : Z) (verbose : bool).

Local Abbreviation body :=
  (loop_body int_of_str id_text api mode start_ms limit max_pages recent_count verbose).
Local Abbreviation loop :=
  (fetch_loop int_of_str id_text api mode start_ms limit max_pages recent_count verbose).
Local Abbreviation page_store := (store_page int_of_str id_text mode recent_count verbose).

Lemma extends_refl st : extends st st.
Proof.
  split; [| split; [trivial | lia]].
  exists []. rewrite app_nil_r. cbn. split; [trivial | split; [lia | constructor]].
Qed.

Lemma extends_trans a b c : extends a b -> extends b c -> extends a c.
Proof.
  intros ([x (Hx1 & Hx2 & Hx3)] & Hk1 & Hp1) ([y (Hy1 & Hy2 & Hy3)] & Hk2 & Hp2).
  split; [| split; [auto | lia]].
  exists (x ++ y). rewrite Hy1, Hx1, app_assoc, length_app, Nat2Z.inj_add.
  split; [trivial | split; [lia | now apply Forall_app]].
Qed.

Lemma store_page_extends st data st' cap :
  page_store st data = Ok (st', cap) ->
  extends st st' /\ pages st' = pages st + 1.
Proof.
  unfold store_page. destruct (0 <? recent_count).
  - destruct (insert_games_capped _ _ _ _ _ _ _) as [c |] eqn:E; cbn [bind];
      [| discriminate].
    unfold insert_games_capped in E.
    apply insert_games_capped_loop_counts in E
      as (added & H1 & H2 & _ & _ & _ & _ & _ & _ & Hk & Hf).
    intros H. inversion H; subst. unfold extends. cbn [conn total_inserted pages].
    split; [| trivial].
    split; [| split; [exact Hk | lia]].
    exists added. split; [exact H1 | split; [lia |]].
    eapply Forall_impl; [exact Hf |]. intros cells. apply row_of_batch_well_formed.
  - destruct (insert_games _ _ _ _ _ _) as [[store [ok sk]] |] eqn:E; cbn [bind];
      [| discriminate].
    assert (Hk : keys_distinct (conn st) = true -> keys_distinct store = true).
    { unfold insert_games in E.
      now destruct (insert_games_loop_added _ _ _ _ _ _ _ _ _ _ _ E) as (? & _ & _ & ? & _). }
    unfold insert_games in E.
    apply insert_games_loop_added in E as (added & H1 & H2 & _ & Hf).
    intros H. inversion H; subst. unfold extends. cbn [conn total_inserted pages fst snd].
    split; [| trivial].
    split; [| split; [exact Hk | lia]].
    exists added. split; [trivial | split; [lia |]].
    eapply Forall_impl; [exact Hf |]. intros cells. apply row_of_batch_well_formed.
Qed.

Lemma loop_body_extends st :
  match body st with
  | Continue st' =>
      extends st st' /\ pages st' = pages st + 1 /\
      (max_pages <> 0 -> pages st' < max_pages)
  | Break st' => extends st st'
  | Abort _ => True
  end.
Proof.
  assert (Hreq : forall n, extends st (Run (pages st) (total_inserted st) (current_end st)
                                            (seen_ids st) (conn st) n)).
  { intros n. split; [| split; [trivial | cbn; lia]].
    exists []. cbn. rewrite app_nil_r. split; [trivial | split; [lia | constructor]]. }
  unfold loop_body.
  destruct (_ && _); [apply extends_refl |].
  destruct (fetch_page api _ _ _) as [answer n].
  destruct answer as [[| | | | | [| g gs] |] |]; try apply Hreq.
  match goal with
  | |- context [page_store ?s ?d] => destruct (page_store s d) as [[st1 cap] |] eqn:Es
  end; [| exact I].
  apply store_page_extends in Es as [He Hp]. cbn [pages] in Hp.
  pose proof (extends_trans _ _ _ (Hreq n) He) as Hst.
  destruct cap; [exact Hst |].
  destruct (oldest_start int_of_str (g :: gs)) as [o | e]; [| destruct e; trivial].
  destruct (_ <? start_ms); [exact Hst |].
  assert (Hcur : forall c, extends st (Run (pages st1) (total_inserted st1) c (seen_ids st1)
                                            (conn st1) (requests st1))).
  { intros c. destruct Hst as (Ha & Hk & Hpg). now repeat split. }
  cbn [pages].
  destruct (negb (max_pages =? 0)) eqn:Em; cbn [andb].
  - destruct (max_pages <=? pages st1) eqn:El; [apply Hcur |].
    apply Z.leb_gt in El. cbn [pages]. repeat split; try apply Hcur; trivial; lia.
  - apply negb_false_iff, Z.eqb_eq in Em.
    cbn [pages]. repeat split; try apply Hcur; trivial; lia.
Qed.

Lemma fetch_loop_extends fuel : forall st,
  match loop fuel st with
  | Done st' | OutOfFuel st' => extends st st'
  | Aborted _ => True
  end.
Proof.
  induction fuel as [| fuel IH]; intros st; cbn [fetch_loop].
  - destruct (current_end st <? start_ms); apply extends_refl.
  - destruct (current_end st <? start_ms); [apply extends_refl |].
    pose proof (loop_body_extends st) as Hb.
    destruct (body st) as [st1 | st1 | e]; trivial.
    destruct Hb as (He & _).
    specialize (IH st1).
    destruct (loop fuel st1); trivial; eapply extends_trans; eassumption.
Qed.

(** With a cap on the pages the loop ends, whatever the API answers. *)
Lemma fetch_loop_capped_pages fuel : forall st,
  max_pages <> 0 ->
  (Z.to_nat (Z.max 1 (max_pages - pages st)) <= fuel)%nat ->
  match loop fuel st with
  | Done st' => pages st' <= Z.max (pages st + 1) max_pages
  | Aborted _ => True
  | OutOfFuel _ => False
  end.
Proof.
  induction fuel as [| fuel IH]; intros st Hm Hf; [lia |].
  cbn [fetch_loop].
  destruct (current_end st <? start_ms); [lia |].
  pose proof (loop_body_extends st) as Hb.
  unfold loop_body in Hb |- *.
  revert Hb.
  destruct (_ && _); [lia |].
  destruct (fetch_page api _ _ _) as [answer n].
  destruct answer as [[| | | | | [| g gs] |] |]; cbn [pages]; try lia.
  match goal with
  | |- context [page_store ?s ?d] => destruct (page_store s d) as [[st1 cap] |] eqn:Es
  end; [| trivial].
  apply store_page_extends in Es as [_ Hp]. cbn [pages] in Hp.
  destruct cap; [lia |].
  destruct (oldest_start int_of_str (g :: gs)) as [o | e];
    [| destruct e; intros _; solve [exact I | lia]].
  destruct (_ <? start_ms); [lia |].
  cbn [pages].
  destruct (negb (max_pages =? 0) && (max_pages <=? pages st1)); cbn [pages]; [lia |].
  intros (_ & Hpg & Hlt). cbn [pages] in Hpg, Hlt. specialize (Hlt Hm).
  match goal with
  | |- context [loop fuel ?s] => specialize (IH s Hm); destruct (loop fuel s)
  end; cbn [pages] in IH; trivial; try (apply IH; lia).
  assert (Hfuel : (Z.to_nat (Z.max 1 (max_pages - pages st1)) <= fuel)%nat) by lia.
  specialize (IH Hfuel). lia.
Qed.

(** X9.  A run of [fetch_and_store] only appends to the table that
    [ensure_schema] left: at the end of the run, and after any number of
    iterations, the rows that were there are still there, unchanged and in
    place; the rows after them are exactly as many as the total of inserted
    rows the run reports; each of them has nineteen cells, with rank cells
    that are 1, 2, 3, 4 in some order; and if no two rows shared an
    identifier, none do. *)
Theorem fetch_and_store_appends games end_ms fuel :
  match fetch_and_store int_of_str id_text api mode start_ms limit max_pages
                        recent_count verbose games end_ms fuel with
  | Done st | OutOfFuel st =>
      exists t added,
        ensure_schema games = Ok (Some t) /\
        conn st = t_rows t ++ added /\
        total_inserted st = Z.of_nat (List.length added) /\
        Forall (fun cells => List.length cells = 19%nat /\ well_ranked cells = true)
               added /\
        (keys_distinct (t_rows t) = true -> keys_distinct (conn st) = true)
  | Aborted _ => True
  end.
Proof.
  unfold fetch_and_store.
  destruct (ensure_schema games) as [[t |] |]; trivial.
  pose proof (fetch_loop_extends fuel (Run 0 0 end_ms [] (t_rows t) 0)) as H.
  destruct (loop fuel _) as [st | e | st]; trivial;
    destruct H as ((added & H1 & H2 & H3) & Hk & _); cbn [conn total_inserted] in *;
    exists t, added; repeat split; trivial.
Qed.

(** X10.  With [max_pages] other than zero the loop ends within
    [max(1, max_pages)] iterations whatever the API answers, also one that
    never runs out of pages or moves the cursor the wrong way, and the run
    stores at most that many pages. *)
Theorem fetch_and_store_max_pages games end_ms fuel :
  max_pages <> 0 ->
  (Z.to_nat (Z.max 1 max_pages) <= fuel)%nat ->
  match fetch_and_store int_of_str id_text api mode start_ms limit max_pages
                        recent_count verbose games end_ms fuel with
  | Done st => 0 <= pages st <= Z.max 1 max_pages
  | Aborted _ => True
  | OutOfFuel _ => False
  end.
Proof.
  intros Hm Hf. unfold fetch_and_store.
  destruct (ensure_schema games) as [[t |] |]; trivial.
  pose proof (fetch_loop_extends fuel (Run 0 0 end_ms [] (t_rows t) 0)) as He.
  pose proof (fetch_loop_capped_pages fuel (Run 0 0 end_ms [] (t_rows t) 0) Hm) as Hc.
  cbn [pages] in Hc. rewrite Z.sub_0_r in Hc. specialize (Hc Hf).
  destruct (loop fuel _) as [st | e | st]; trivial.
  destruct He as (_ & _ & Hp). cbn [pages] in Hp. lia.
Qed.

End LoopMore.

(** ** The window of main.py *)

Section FetcherMain.
Variable int_of_str : string -> option Z.
Variable id_text : json -> option string.
Variable api : nat -> Z -> Z -> option json.

Lemma main_exit_2 now a games fuel :
  Fetcher.main int_of_str id_text api now a games fuel = Some 2 <->
  snd (Fetcher.window now a) < fst (Fetcher.window now a).
Proof.
  unfold Fetcher.main. destruct (Fetcher.window now a) as [s e]. cbn [fst snd].
  destruct (Z.ltb_spec e s) as [H | H]; [tauto |].
  split; [| lia].
  destruct (fetch_and_store _ _ _ _ _ _ _ _ _ _ _ _); discriminate.
Qed.

(** X11.  The window of a run of main.py.  With [--recent] above zero
    [--start-ms] is ignored: the run is the same whatever was given for it,
    the window starts at 0, and the run is refused with exit code 2 exactly
    when its end, the given [--end-ms] or the clock, is negative.  Without
    [--recent] and with neither bound given, the window is the 30 days
    before the reading of the clock and the run is never refused. *)
Theorem main_window now a games fuel :
  (0 < Fetcher.recent a ->
   (forall s, Fetcher.main int_of_str id_text api now (with_start_ms a s) games fuel
              = Fetcher.main int_of_str id_text api now a games fuel) /\
   (Fetcher.main int_of_str id_text api now a games fuel = Some 2 <->
    match Fetcher.end_ms a with Some e => e | None => now end < 0)) /\
  (Fetcher.recent a <= 0 -> Fetcher.start_ms a = None -> Fetcher.end_ms a = None ->
   Fetcher.window now a = (now - 2592000000, now) /\
   Fetcher.main int_of_str id_text api now a games fuel <> Some 2).
Proof.
  split.
  - intros Hr. apply Z.ltb_lt in Hr. split.
    + intros s. unfold Fetcher.main, Fetcher.window, with_start_ms. cbn.
      now rewrite Hr.
    + rewrite main_exit_2. unfold Fetcher.window. rewrite Hr. cbn [fst snd]. tauto.
  - intros Hr Hs He.
    assert (Hw : Fetcher.window now a = (now - 2592000000, now)).
    { unfold Fetcher.window, default_window_ms.
      rewrite (proj2 (Z.ltb_ge _ _) Hr), Hs, He. f_equal; lia. }
    split; [exact Hw |].
    intros H. apply main_exit_2 in H. rewrite Hw in H. cbn [fst snd] in H. lia.
Qed.
End FetcherMain.

(** ** The oldest start time of a page *)

Lemma fold_min_spec rest : forall t,
  (fold_left Z.min rest t = t \/ In (fold_left Z.min rest t) rest) /\
  fold_left Z.min rest t <= t /\
  (forall x, In x rest -> fold_left Z.min rest t <= x).
Proof.
  induction rest as [| y rest IH]; intros t; cbn [fold_left In].
  - repeat split; try lia; try tauto.
  - destruct (IH (Z.min t y)) as (H1 & H2 & H3).
    repeat split.
    + destruct H1 as [E | Hin]; [| tauto].
      rewrite E. destruct (Z.min_spec t y) as [[_ ->] | [_ ->]]; tauto.
    + lia.
    + intros x [<- | Hx]; [lia | auto].
Qed.

Lemma Forall2_in_r {A B} (P : A -> B -> Prop) l1 l2 y :
  Forall2 P l1 l2 -> In y l2 -> exists x, In x l1 /\ P x y.
Proof.
  induction 1 as [| a b l1 l2 Hab _ IH]; cbn [In]; [tauto |].
  intros [<- | Hy]; [exists a; tauto |].
  destruct (IH Hy) as (x & Hx & Hp). exists x. tauto.
Qed.

Lemma Forall2_in_l {A B} (P : A -> B -> Prop) l1 l2 x :
  Forall2 P l1 l2 -> In x l1 -> exists y, In y l2 /\ P x y.
Proof.
  induction 1 as [| a b l1 l2 Hab _ IH]; cbn [In]; [tauto |].
  intros [<- | Hx]; [exists b; tauto |].
  destruct (IH Hx) as (y & Hy & Hp). exists y. tauto.
Qed.

Section OldestStart.
Variable int_of_str : string -> option Z.

Lemma record_times_spec gs : forall ts,
  record_times int_of_str gs = Ok ts ->
  Forall2 (fun g t => record_time int_of_str g = Ok t) gs ts.
Proof.
  induction gs as [| g gs IH]; intros ts H; cbn [record_times] in H.
  - inversion H. constructor.
  - destruct (record_time int_of_str g) as [t |] eqn:Et; cbn [bind] in H; [| discriminate].
    destruct (record_times int_of_str gs) as [more |]; cbn [bind] in H; [| discriminate].
    inversion H; subst. constructor; auto.
Qed.

(** The time the cursor is computed from is the time [extract_row] stores. *)
Lemma record_time_of_row g mo r :
  extract_row int_of_str g mo = Some r -> record_time int_of_str g = Ok (row_start r).
Proof.
  intros H. destruct (extract_row_inv _ _ _ _ H) as (_ & _ & _ & _ & _ & Ht & _).
  unfold resolve_start_time in Ht. unfold record_time.
  destruct g as [| | | | | | items]; try discriminate Ht.
  cbn [dict_get] in *.
  destruct (lookup_key "startTime" items) as [st |]; cbn [bind] in *.
  - destruct (is_none st); [| exact Ht].
    cbn [getitem_key] in Ht. destruct (lookup_key "endTime" items); cbn in *;
      [exact Ht | discriminate].
  - cbn [is_none getitem_key] in *.
    destruct (lookup_key "endTime" items); cbn in *; [exact Ht | discriminate].
Qed.

(** X12.  The oldest start time of a page is the least of the times of its
    records that are objects: it is the time of one of them and at most the
    time of each, a record's time being its start time, or without one its
    end time, or without either 0.  In particular it is at most the start
    time of every row [extract_row] makes of a record of the page, and for
    a start time in seconds, below 10^12, the end proposed for the next
    window is before that start.  A page with no object has no oldest start
    time: [min] raises [ValueError]. *)
Theorem oldest_start_is_minimum data :
  (forall o, oldest_start int_of_str data = Ok o ->
     (exists g, In g data /\ is_dict g = true /\ record_time int_of_str g = Ok o) /\
     (forall g, In g data -> is_dict g = true ->
        exists t, record_time int_of_str g = Ok t /\ o <= t) /\
     (forall g mode_override r, In g data ->
        extract_row int_of_str g mode_override = Some r ->
        o <= row_start r /\
        (row_start r < 10 ^ 12 -> to_ms o - 1 < to_ms (row_start r)))) /\
  (forallb (fun g => negb (is_dict g)) data = true ->
   oldest_start int_of_str data = Raise ValueError).
Proof.
  split.
  - intros o H. unfold oldest_start in H.
    destruct (record_times int_of_str (List.filter is_dict data)) as [ts |] eqn:Et;
      cbn [bind] in H; [| discriminate].
    apply record_times_spec in Et.
    destruct ts as [| t rest]; [discriminate |]. inversion H; subst. clear H.
    destruct (fold_min_spec rest t) as (Hmem & Hle & Hall).
    set (o := fold_left Z.min rest t) in *.
    assert (Ho : In o (t :: rest)) by (destruct Hmem as [-> | ?]; [now left | now right]).
    assert (Hleast : forall x, In x (t :: rest) -> o <= x).
    { intros x [<- | Hx]; [exact Hle | now apply Hall]. }
    assert (Hdict : forall g, In g data -> is_dict g = true ->
              exists x, record_time int_of_str g = Ok x /\ o <= x).
    { intros g Hg Hd.
      destruct (Forall2_in_l _ _ _ g Et) as (x & Hx & Hp).
      - apply filter_In. now split.
      - exists x. split; [exact Hp | now apply Hleast]. }
    split; [| split].
    + destruct (Forall2_in_r _ _ _ o Et Ho) as (g & Hg & Hp).
      apply filter_In in Hg as [Hg Hd]. now exists g.
    + exact Hdict.
    + intros g mo r Hg Hr.
      pose proof (record_time_of_row _ _ _ Hr) as Ht.
      assert (Hd : is_dict g = true).
      { unfold record_time in Ht. destruct g; try discriminate Ht. reflexivity. }
      destruct (Hdict g Hg Hd) as (x & Hx & Hox).
      assert (x = row_start r) as -> by congruence.
      split; [exact Hox |]. intros Hsec. unfold to_ms.
      change (10 ^ 12) with 1000000000000 in *.
      destruct (Z.leb_spec 1000000000000 o), (Z.leb_spec 1000000000000 (row_start r)); lia.
  - intros Hn. unfold oldest_start.
    replace (List.filter is_dict data) with (@nil json); [reflexivity |].
    symmetry. induction data as [| g data IH]; [reflexivity |].
    cbn [forallb] in Hn. apply andb_true_iff in Hn as [Hg Hrest].
    cbn [List.filter]. apply negb_true_iff in Hg. rewrite Hg. now apply IH.
Qed.

End OldestStart.

(** ** Comparisons as sums *)

(** *** Sums *)

Lemma zsum_app {A} (f : A -> Z) l1 l2 : zsum f (l1 ++ l2) = zsum f l1 + zsum f l2.
Proof. induction l1 as [| x l1 IH]; cbn; [reflexivity | rewrite IH; lia]. Qed.

Lemma zsum_map {A B} (f : B -> Z) (h : A -> B) l :
  zsum f (map h l) = zsum (fun x => f (h x)) l.
Proof. induction l as [| x l IH]; cbn; congruence. Qed.

Lemma zsum_flat_map {A B} (f : B -> Z) (h : A -> list B) l :
  zsum f (flat_map h l) = zsum (fun x => zsum f (h x)) l.
Proof. induction l as [| x l IH]; cbn; [reflexivity | now rewrite zsum_app, IH]. Qed.

Lemma zsum_ext {A} (f g : A -> Z) l :
  (forall x, In x l -> f x = g x) -> zsum f l = zsum g l.
Proof.
  induction l as [| x l IH]; cbn; intros H; [reflexivity |].
  rewrite (H x), IH; auto.
Qed.

Lemma zsum_plus {A} (f g : A -> Z) l :
  zsum (fun x => f x + g x) l = zsum f l + zsum g l.
Proof. induction l as [| x l IH]; cbn; lia. Qed.

Lemma zsum_zero {A} (l : list A) : zsum (fun _ => 0) l = 0.
Proof. induction l; cbn; lia. Qed.

Lemma zsum_opp {A} (f : A -> Z) l : zsum (fun x => - f x) l = - zsum f l.
Proof. induction l as [| x l IH]; cbn; lia. Qed.

Lemma zsum_bounds {A} (f : A -> Z) lo hi l :
  (forall x, In x l -> lo <= f x <= hi) ->
  lo * zsum (fun _ => 1) l <= zsum f l <= hi * zsum (fun _ => 1) l.
Proof.
  induction l as [| x l IH]; cbn; intros H; [lia |].
  pose proof (H x (or_introl eq_refl)).
  assert (forall y, In y l -> lo <= f y <= hi) by auto. specialize (IH H1). lia.
Qed.

Lemma zsum_length {A} (l : list A) : zsum (fun _ => 1) l = Z.of_nat (List.length l).
Proof. induction l as [| x l IH]; cbn [zsum List.length]; [reflexivity | lia]. Qed.

(** A double sum can be taken in either order. *)
Lemma zsum_exchange {A B} (g : A -> B -> Z) la lb :
  zsum (fun b => zsum (fun a => g a b) la) lb
  = zsum (fun a => zsum (fun b => g a b) lb) la.
Proof.
  induction lb as [| b lb IH]; cbn.
  - now rewrite zsum_zero.
  - rewrite IH. now rewrite <- zsum_plus.
Qed.

Lemma zsum_pairs {A B} (f : A * B -> Z) la lb :
  zsum f (flat_map (fun a => map (fun b => (a, b)) lb) la)
  = zsum (fun a => zsum (fun b => f (a, b)) lb) la.
Proof.
  rewrite zsum_flat_map. apply zsum_ext. intros a _. now rewrite zsum_map.
Qed.

(** *** The aggregates of the two compare commands *)

Lemma tally_add_zero t : tally_add t (Tally 0 0 0 0 0 0) = t.
Proof. destruct t. unfold tally_add. cbn. f_equal; lia. Qed.

Lemma tally_add_assoc t u v : tally_add (tally_add t u) v = tally_add t (tally_add u v).
Proof. unfold tally_add. cbn. f_equal; lia. Qed.

Lemma tally_of_app l1 l2 : tally_of (l1 ++ l2) = tally_add (tally_of l1) (tally_of l2).
Proof. unfold tally_of, tally_add. cbn. now rewrite !zsum_app. Qed.

Lemma fold_tally pairs : forall t,
  fold_left (fun t '(pa, pb) => tally_pair t pa pb) pairs t = tally_add t (tally_of pairs).
Proof.
  induction pairs as [| [pa pb] pairs IH]; intros t.
  - cbn. symmetry. apply tally_add_zero.
  - cbn [fold_left]. rewrite IH. unfold tally_pair, tally_add, tally_of. cbn.
    f_equal; try lia.
    + destruct (Z.ltb_spec (p_rank pa - p_rank pb) 0), (Z.ltb_spec (p_rank pa) (p_rank pb)); lia.
    + destruct (Z.ltb_spec (p_rank pa - p_rank pb) 0), (Z.ltb_spec 0 (p_rank pa - p_rank pb)),
        (Z.ltb_spec (p_rank pb) (p_rank pa)); lia.
Qed.

Section CompareMore.
Variable int_of_str : string -> option Z.

(** The loop of the two commands as a sum over the pairs of all rows. *)
Lemma compare_rows_sum level_bin la lb rows : forall t,
  compare_rows int_of_str level_bin la lb rows t
  = let* pss := rows_players int_of_str level_bin rows in
    Ok (tally_add t (tally_of (flat_map (row_pairs la lb) pss))).
Proof.
  induction rows as [| r rows IH]; intros t; cbn [compare_rows rows_players].
  - cbn. now rewrite tally_add_zero.
  - destruct (row_players int_of_str level_bin r (seq 0 4)) as [ps |]; cbn [bind]; trivial.
    rewrite IH, fold_tally.
    destruct (rows_players int_of_str level_bin rows) as [pss |]; cbn [bind flat_map]; trivial.
    now rewrite tally_of_app, tally_add_assoc.
Qed.

Lemma compute_compare_summary_sum conn a la lb :
  compute_compare_summary int_of_str conn a la lb
  = if la =? lb then Ok None else
    let* pss := rows_players int_of_str (args_level_bin a)
                             (select_compare conn (where_clause a)) in
    let t := tally_of (flat_map (row_pairs la lb) pss) in
    if instances t =? 0 then Ok None else
    Ok (Some (Summary (instances t) (a_better t)
                      (Ratio (sum_rank_diff t) (instances t))
                      (Ratio (sum_score_diff t) (instances t))
                      (Ratio (sum_grade_diff t) (instances t))
                      (b_better t))).
Proof.
  unfold compute_compare_summary. destruct (la =? lb); trivial.
  rewrite compare_rows_sum.
  destruct (rows_players _ _ _) as [pss |]; cbn [bind]; trivial.
Qed.

End CompareMore.

(** *** Reading a comparison from the other side *)

Lemma tally_mirror_add t u :
  tally_mirror (tally_add t u) = tally_add (tally_mirror t) (tally_mirror u).
Proof. unfold tally_mirror, tally_add. cbn. f_equal; lia. Qed.

Lemma row_pairs_mirror la lb ps :
  tally_of (row_pairs lb la ps) = tally_mirror (tally_of (row_pairs la lb ps)).
Proof.
  unfold row_pairs, tally_of, tally_mirror. cbn [instances sum_rank_diff sum_score_diff
    sum_grade_diff a_better b_better].
  set (A := List.filter (fun p => p_bucket p =? la) ps).
  set (B := List.filter (fun p => p_bucket p =? lb) ps).
  rewrite !zsum_pairs, <- !zsum_opp.
  f_equal; rewrite zsum_exchange; apply zsum_ext; intros a _;
    rewrite <- ?zsum_opp; apply zsum_ext; intros b _; lia.
Qed.

Lemma flat_pairs_mirror la lb pss :
  tally_of (flat_map (row_pairs lb la) pss)
  = tally_mirror (tally_of (flat_map (row_pairs la lb) pss)).
Proof.
  induction pss as [| ps pss IH]; cbn [flat_map].
  - unfold tally_of, tally_mirror. cbn. reflexivity.
  - now rewrite !tally_of_app, tally_mirror_add, IH, row_pairs_mirror.
Qed.

Lemma tally_of_facts pairs :
  instances (tally_of pairs) = Z.of_nat (List.length pairs) /\
  0 <= a_better (tally_of pairs) /\ 0 <= b_better (tally_of pairs) /\
  a_better (tally_of pairs) + b_better (tally_of pairs) <= instances (tally_of pairs) /\
  (Forall (fun '(pa, pb) => p_rank pa <> p_rank pb) pairs ->
   a_better (tally_of pairs) + b_better (tally_of pairs) = instances (tally_of pairs)).
Proof.
  unfold tally_of. cbn [instances a_better b_better].
  induction pairs as [| [pa pb] pairs (H1 & H2 & H3 & H4 & H5)];
    cbn [zsum List.length].
  - repeat split; try lia.
  - rewrite Nat2Z.inj_succ.
    destruct (Z.ltb_spec (p_rank pa) (p_rank pb)), (Z.ltb_spec (p_rank pb) (p_rank pa));
      repeat split; try lia;
      intros Hf; inversion Hf; subst; specialize (H5 ltac:(assumption)); lia.
Qed.

Lemma NoDup_map_eq {A B} (f : A -> B) l x y :
  List.NoDup (map f l) -> In x l -> In y l -> f x = f y -> x = y.
Proof.
  induction l as [| z l IH]; cbn; intros Hn Hx Hy E; [tauto |].
  inversion Hn as [| ? ? Hz Hn']; subst.
  destruct Hx as [-> | Hx], Hy as [-> | Hy]; trivial.
  - exfalso. apply Hz. rewrite E. now apply in_map.
  - exfalso. apply Hz. rewrite <- E. now apply in_map.
  - now apply IH.
Qed.

Lemma row_pairs_ranks la lb ps :
  la <> lb -> List.NoDup (map p_rank ps) ->
  Forall (fun '(pa, pb) => p_rank pa <> p_rank pb) (row_pairs la lb ps).
Proof.
  intros Hl Hn. apply List.Forall_forall. intros [pa pb] Hin.
  unfold row_pairs in Hin. apply in_flat_map in Hin as (pa' & Ha & Hin).
  apply in_map_iff in Hin as (pb' & E & Hb). inversion E; subst.
  apply filter_In in Ha as [Ha Ea]. apply filter_In in Hb as [Hb Eb].
  intros E'. pose proof (NoDup_map_eq _ _ _ _ Hn Ha Hb E') as ->. lia.
Qed.

Lemma flat_pairs_ranks la lb pss :
  la <> lb -> Forall (fun ps => List.NoDup (map p_rank ps)) pss ->
  Forall (fun '(pa, pb) => p_rank pa <> p_rank pb) (flat_map (row_pairs la lb) pss).
Proof.
  intros Hl Hn. induction Hn as [| ps pss' Hps _ IH]; cbn [flat_map]; [constructor |].
  apply Forall_app. split; [now apply row_pairs_ranks | exact IH].
Qed.

(** The four ranks of a row whose rank cells are 1, 2, 3, 4 in some order. *)
Lemma well_ranked_cells r :
  well_ranked r = true ->
  exists a b c d,
    nth 6 r SNull = SInt a /\ nth 10 r SNull = SInt b /\
    nth 14 r SNull = SInt c /\ nth 18 r SNull = SInt d /\
    List.NoDup [a; b; c; d] /\ Permutation [a; b; c; d] [1; 2; 3; 4].
Proof.
  unfold well_ranked. cbn [map rank_columns].
  change (cell INSERT_COLUMNS r "player1_rank") with (nth 6 r SNull).
  change (cell INSERT_COLUMNS r "player2_rank") with (nth 10 r SNull).
  change (cell INSERT_COLUMNS r "player3_rank") with (nth 14 r SNull).
  change (cell INSERT_COLUMNS r "player4_rank") with (nth 18 r SNull).
  destruct (nth 6 r SNull) as [| a |]; try discriminate.
  destruct (nth 10 r SNull) as [| b |]; try discriminate.
  destruct (nth 14 r SNull) as [| c |]; try discriminate.
  destruct (nth 18 r SNull) as [| d |]; try discriminate.
  cbn [forallb existsb]. rewrite !orb_false_r, !andb_true_r.
  rewrite !andb_true_iff, !orb_true_iff, !Z.eqb_eq.
  intros (H1 & H2 & H3 & H4). exists a, b, c, d.
  repeat split; trivial.
  - repeat constructor; cbn; lia.
  - assert (Hcases :
      (a = 1 \/ a = 2 \/ a = 3 \/ a = 4) /\ (b = 1 \/ b = 2 \/ b = 3 \/ b = 4) /\
      (c = 1 \/ c = 2 \/ c = 3 \/ c = 4) /\ (d = 1 \/ d = 2 \/ d = 3 \/ d = 4) /\
      a <> b /\ a <> c /\ a <> d /\ b <> c /\ b <> d /\ c <> d) by lia.
    clear H1 H2 H3 H4.
    destruct Hcases as (Ha & Hb & Hc & Hd & N1 & N2 & N3 & N4 & N5 & N6).
    destruct Ha as [-> | [-> | [-> | ->]]]; destruct Hb as [-> | [-> | [-> | ->]]];
      try lia;
      destruct Hc as [-> | [-> | [-> | ->]]]; try lia;
      destruct Hd as [-> | [-> | [-> | ->]]]; try lia; perm_concrete.
Qed.

Section CompareTheorems.
Variable int_of_str : string -> option Z.

Lemma rows_players_Forall (P : list player -> Prop) level_bin rows :
  (forall r ps, In r rows -> row_players int_of_str level_bin r (seq 0 4) = Ok ps -> P ps) ->
  forall pss, rows_players int_of_str level_bin rows = Ok pss -> Forall P pss.
Proof.
  induction rows as [| r rows IH]; intros HP pss H; cbn [rows_players] in H.
  - inversion H. constructor.
  - destruct (row_players int_of_str level_bin r (seq 0 4)) as [ps |] eqn:Ep;
      cbn [bind] in H; [| discriminate].
    destruct (rows_players int_of_str level_bin rows) as [more |]; cbn [bind] in H;
      [| discriminate].
    inversion H; subst. constructor.
    + eapply HP; [now left | exact Ep].
    + apply IH; trivial. intros r' ps' Hin. apply HP. now right.
Qed.

(** The players of a fetched row carry the four rank cells of the row. *)
Lemma row_players_ranks level_bin r ps a b c d :
  nth 6 r SNull = SInt a -> nth 10 r SNull = SInt b ->
  nth 14 r SNull = SInt c -> nth 18 r SNull = SInt d ->
  row_players int_of_str level_bin (map (cell INSERT_COLUMNS r) compare_columns) (seq 0 4)
    = Ok ps ->
  map p_rank ps = [a; b; c; d].
Proof.
  intros Ha Hb Hc Hd. cbn [row_players seq]. unfold row_player.
  cbn [map compare_columns Nat.add Nat.mul nth].
  change (cell INSERT_COLUMNS r "player1_rank") with (nth 6 r SNull).
  change (cell INSERT_COLUMNS r "player2_rank") with (nth 10 r SNull).
  change (cell INSERT_COLUMNS r "player3_rank") with (nth 14 r SNull).
  change (cell INSERT_COLUMNS r "player4_rank") with (nth 18 r SNull).
  rewrite Ha, Hb, Hc, Hd. cbn [cell_int].
  repeat match goal with
  | |- context [cell_int int_of_str ?v] => destruct (cell_int int_of_str v); cbn [bind]; [| discriminate]
  end.
  intros H. inversion H. reflexivity.
Qed.

(** X13.  Comparing B with A is comparing A with B read from the other side:
    [compute_compare_summary] with the two levels exchanged raises when the
    other call raises, finds no instance when the other finds none, and
    otherwise returns the same number of instances with the two win counts
    exchanged and the three sums of differences negated. *)
Theorem compute_compare_summary_mirror conn a level_a level_b :
  compute_compare_summary int_of_str conn a level_b level_a
  = match compute_compare_summary int_of_str conn a level_a level_b with
    | Raise e => Raise e
    | Ok None => Ok None
    | Ok (Some s) => Ok (Some (mirror s))
    end.
Proof.
  rewrite !compute_compare_summary_sum, (Z.eqb_sym level_b level_a).
  destruct (level_a =? level_b); trivial.
  destruct (rows_players _ _ _) as [pss |]; cbn [bind]; trivial.
  rewrite flat_pairs_mirror. cbn [tally_mirror instances].
  destruct (instances _ =? 0); reflexivity.
Qed.

(** X14.  A summary [compute_compare_summary] returns is about two
    different levels and at least one instance, so none of its three
    averages divides by zero; its two win counts are not negative and add up
    to at most the number of instances.  On a table in which the four ranks
    of every row are 1, 2, 3, 4 in some order they add up to exactly that
    number: no pair is a tie. *)
Theorem compute_compare_summary_counts conn a level_a level_b s :
  compute_compare_summary int_of_str conn a level_a level_b = Ok (Some s) ->
  level_a <> level_b /\
  0 < s_instances s /\
  den_of (s_avg_rank_diff s) = s_instances s /\
  den_of (s_avg_score_diff s) = s_instances s /\
  den_of (s_avg_grade_diff s) = s_instances s /\
  0 <= s_a_better s /\ 0 <= s_b_better s /\
  s_a_better s + s_b_better s <= s_instances s /\
  (forallb well_ranked conn = true -> s_a_better s + s_b_better s = s_instances s).
Proof.
  rewrite compute_compare_summary_sum.
  destruct (Z.eqb_spec level_a level_b) as [| Hne]; [discriminate |].
  destruct (rows_players _ _ _) as [pss |] eqn:Ep; cbn [bind]; [| discriminate].
  set (pairs := flat_map (row_pairs level_a level_b) pss).
  destruct (tally_of_facts pairs) as (H1 & H2 & H3 & H4 & H5).
  destruct (Z.eqb_spec (instances (tally_of pairs)) 0) as [| Hi]; [discriminate |].
  intros [= <-].
  cbn [s_instances s_a_better s_b_better s_avg_rank_diff s_avg_score_diff
       s_avg_grade_diff den_of].
  unfold tally_of in *.
  cbn [instances a_better b_better sum_rank_diff sum_score_diff sum_grade_diff] in *.
  repeat split; trivial; try lia.
  intros Hw. apply H5. unfold pairs.
  apply flat_pairs_ranks; trivial.
  { eapply rows_players_Forall; [| exact Ep].
    intros r ps Hin Hps. unfold select_compare in Hin.
    apply in_map_iff in Hin as (r0 & <- & Hin0). apply filter_In in Hin0 as [Hin0 _].
    pose proof (proj1 (forallb_forall _ _) Hw r0 Hin0) as Hr.
    destruct (well_ranked_cells _ Hr) as (x & y & z & w & Hx & Hy & Hz & Hw' & Hnd & _).
    now rewrite (row_players_ranks _ _ _ _ _ _ _ Hx Hy Hz Hw' Hps). }
Qed.

End CompareTheorems.

Lemma bucket_level10 level : bucket_level level "level10" mod 10 = 0.
Proof. unfold bucket_level. cbn. apply Z_mod_mult. Qed.


Section ReportMore.
Variable int_of_str : string -> option Z.

(** *** compare-levels and the summary of compare-all *)

Lemma compare_levels_rows_tally a rows : forall t,
  snd (compare_levels_rows int_of_str a rows t)
  = compare_rows int_of_str (args_level_bin a) (args_level_a a) (args_level_b a) rows t.
Proof.
  induction rows as [| r rows IH]; intros t; cbn [compare_levels_rows compare_rows];
    [reflexivity |].
  destruct (row_players int_of_str (args_level_bin a) r (seq 0 4)) as [ps |];
    cbn [bind]; [| reflexivity].
  rewrite <- IH.
  destruct (compare_levels_rows int_of_str a rows _). reflexivity.
Qed.

(** X15.  [compare-levels] and [compute_compare_summary] go the same way on
    the same table, filters and pair of different levels: when the second
    raises, the command ends in that exception; when it finds no instance,
    the last line of the command says so; and otherwise the command ends
    with the header line and a line that shows the very numbers of the
    returned summary. *)
Theorem do_compare_levels_agrees conn a :
  args_level_a a <> args_level_b a ->
  match compute_compare_summary int_of_str conn a (args_level_a a) (args_level_b a) with
  | Raise e => snd (do_compare_levels int_of_str conn a) = Raise e
  | Ok None =>
      exists evs,
        do_compare_levels int_of_str conn a
        = (evs ++ [Stdout "No head-to-head instances found for the provided levels and filters."],
           Ok tt)
  | Ok (Some s) =>
      exists evs,
        do_compare_levels int_of_str conn a
        = (evs ++ [Stdout "level_a,level_b,instances,a_better,b_better,avg_rank_diff,avg_score_diff,avg_grade_diff";
                   SummaryLine (args_level_a a) (args_level_b a) s],
           Ok tt)
  end.
Proof.
  intros Hne. unfold do_compare_levels, compute_compare_summary.
  rewrite (proj2 (Z.eqb_neq _ _) Hne).
  pose proof (compare_levels_rows_tally a (select_compare conn (where_clause a))
                (Tally 0 0 0 0 0 0)) as Ht.
  destruct (compare_levels_rows int_of_str a _ _) as [evs res]. cbn [snd] in Ht.
  rewrite <- Ht. destruct res as [t | e]; cbn [bind snd]; [| reflexivity].
  destruct (instances t =? 0).
  - eexists. now rewrite app_comm_cons, app_assoc.
  - eexists. now rewrite app_comm_cons, app_assoc.
Qed.

(** *** compare-all by tens *)







End ReportMore.

(** ** The rows of compare-all and the WHERE clause *)

Section MatchupsMore.
Variable int_of_str : string -> option Z.




(** X18.  The WHERE clause in milliseconds.  A row whose mode and start time
    are integers is selected exactly when its mode is the given [--mode],
    its start second ends no earlier than [--start-ms], and it begins no
    later than [--end-ms]; a bound or mode that is not given excludes
    nothing.  So a game is kept when any millisecond of its start second is
    in the window. *)
Theorem where_clause_selects a r m s :
  cell INSERT_COLUMNS r "mode" = SInt m ->
  cell INSERT_COLUMNS r "startTime" = SInt s ->
  (forallb (clause_holds r) (where_clause a) = true <->
   (forall mode, args_mode a = Some mode -> m = mode) /\
   (forall start_ms, args_start_ms a = Some start_ms -> start_ms <= 1000 * s + 999) /\
   (forall end_ms, args_end_ms a = Some end_ms -> 1000 * s <= end_ms)).
Proof.
  intros Hm Hs. unfold where_clause.
  rewrite !forallb_app, !andb_true_iff.
  assert (Hmode : forallb (clause_holds r)
                    (match args_mode a with Some m0 => [ModeEq m0] | None => [] end) = true
                  <-> forall mode, args_mode a = Some mode -> m = mode).
  { destruct (args_mode a) as [m0 |]; cbn [forallb clause_holds].
    - rewrite Hm, andb_true_r, sql_eq_int, Z.eqb_eq.
      split; [now intros -> ? [= <-] | auto].
    - split; [discriminate | trivial]. }
  assert (Hstart : forallb (clause_holds r)
                     (match args_start_ms a with
                      | Some s0 => [StartGe (s0 / 1000)] | None => [] end) = true
                   <-> forall start_ms, args_start_ms a = Some start_ms ->
                                        start_ms <= 1000 * s + 999).
  { destruct (args_start_ms a) as [s0 |]; cbn [forallb clause_holds].
    - rewrite Hs, andb_true_r. unfold sql_ge, sql_compare.
      pose proof (Z.div_mod s0 1000 ltac:(lia)).
      pose proof (Z.mod_pos_bound s0 1000 ltac:(lia)).
      destruct (Z.compare_spec s (s0 / 1000)); split; try discriminate; trivial;
        try (intros _ ? [= <-]; lia); intros Hq; specialize (Hq _ eq_refl); lia.
    - split; [discriminate | trivial]. }
  assert (Hend : forallb (clause_holds r)
                   (match args_end_ms a with
                    | Some e0 => [StartLe (e0 / 1000)] | None => [] end) = true
                 <-> forall end_ms, args_end_ms a = Some end_ms -> 1000 * s <= end_ms).
  { destruct (args_end_ms a) as [e0 |]; cbn [forallb clause_holds].
    - rewrite Hs, andb_true_r. unfold sql_le, sql_compare.
      pose proof (Z.div_mod e0 1000 ltac:(lia)).
      pose proof (Z.mod_pos_bound e0 1000 ltac:(lia)).
      destruct (Z.compare_spec s (e0 / 1000)); split; try discriminate; trivial;
        try (intros _ ? [= <-]; lia); intros Hq; specialize (Hq _ eq_refl); lia.
    - split; [discriminate | trivial]. }
  tauto.
Qed.

End MatchupsMore.

(** ** export, summary and rank-correlation *)

(** *** export *)





(** *** Counters *)

Lemma counter_get_add k k' v d :
  counter_get k (counter_add k' v d) = counter_get k d + (if k =? k' then v else 0).
Proof.
  induction d as [| [k0 v0] d IH]; cbn [counter_add counter_get].
  - destruct (k =? k'); lia.
  - destruct (Z.eqb_spec k' k0) as [-> | Hne]; cbn [counter_get].
    + destruct (k =? k0); lia.
    + destruct (Z.eqb_spec k k0) as [-> | Hne'].
      * destruct (Z.eqb_spec k0 k'); [congruence | lia].
      * exact IH.
Qed.

Lemma counter_keys_add k k' v d :
  In k (counter_keys (counter_add k' v d)) <-> k = k' \/ In k (counter_keys d).
Proof.
  unfold counter_keys. induction d as [| [k0 v0] d IH]; cbn [counter_add map fst In].
  - intuition.
  - destruct (Z.eqb_spec k' k0) as [-> | Hne]; cbn [map fst In]; intuition.
Qed.

Lemma counter_keys_nodup k v d :
  List.NoDup (counter_keys d) -> List.NoDup (counter_keys (counter_add k v d)).
Proof.
  unfold counter_keys. induction d as [| [k0 v0] d IH]; cbn [counter_add map fst]; intros Hn.
  - repeat constructor. intros [].
  - destruct (Z.eqb_spec k k0) as [-> | Hne]; cbn [map fst]; trivial.
    inversion Hn as [| ? ? Hx Hn']; subst. constructor; [| auto].
    intros Hin. apply (counter_keys_add k0 k v d) in Hin as [-> | Hin]; [congruence | auto].
Qed.

Lemma counter_keys_sum d :
  List.NoDup (counter_keys d) ->
  zsum (fun k => counter_get k d) (counter_keys d) = zsum snd d.
Proof.
  unfold counter_keys. induction d as [| [k0 v0] d IH]; cbn [map fst zsum snd counter_get];
    intros Hn; [reflexivity |].
  inversion Hn as [| ? ? Hx Hn']; subst. rewrite Z.eqb_refl. f_equal.
  rewrite <- IH by assumption. apply zsum_ext. intros k Hk.
  destruct (Z.eqb_spec k k0) as [-> | _]; [contradiction | reflexivity].
Qed.

Lemma counter_total_add k v d : zsum snd (counter_add k v d) = zsum snd d + v.
Proof.
  induction d as [| [k0 v0] d IH]; cbn [counter_add zsum snd]; [lia |].
  destruct (k =? k0); cbn [zsum snd]; lia.
Qed.

(** *** Sorting the keys *)

Lemma zsum_perm {A} (f : A -> Z) l l' : Permutation l l' -> zsum f l = zsum f l'.
Proof. induction 1; cbn [zsum]; lia. Qed.

Lemma insert_key_perm x l :
  Permutation (insert_sorted (fun k : Z => (k, 0)) x l) (x :: l).
Proof.
  induction l as [| y l IH]; cbn [insert_sorted]; [reflexivity |].
  destruct (tuple_lt _ _); [reflexivity |].
  rewrite IH. apply perm_swap.
Qed.

Lemma insert_key_sorted x l :
  StronglySorted Z.le l -> StronglySorted Z.le (insert_sorted (fun k : Z => (k, 0)) x l).
Proof.
  induction 1 as [| y l Hs IH Hy]; cbn [insert_sorted]; [repeat constructor |].
  unfold tuple_lt. cbn [fst snd]. rewrite andb_false_r, orb_false_r.
  destruct (Z.ltb_spec x y) as [Hlt | Hge].
  - constructor; [now constructor |]. constructor; [lia |].
    eapply Forall_impl; [exact Hy |]. cbn. intros; lia.
  - constructor; [exact IH |].
    rewrite insert_key_perm. constructor; [lia | exact Hy].
Qed.

Lemma sorted_keys_spec keys :
  Permutation (sorted_keys keys) keys /\ StronglySorted Z.le (sorted_keys keys).
Proof.
  unfold sorted_keys, sorted.
  assert (H : forall acc, StronglySorted Z.le acc ->
            Permutation (fold_left (fun acc x => insert_sorted (fun k : Z => (k, 0)) x acc)
                                   keys acc) (acc ++ keys) /\
            StronglySorted Z.le
              (fold_left (fun acc x => insert_sorted (fun k : Z => (k, 0)) x acc) keys acc)).
  { induction keys as [| x keys IH]; intros acc Hs; cbn [fold_left].
    - rewrite app_nil_r. now split.
    - destruct (IH _ (insert_key_sorted x acc Hs)) as [Hp Hsorted]. split; [| exact Hsorted].
      rewrite Hp, insert_key_perm. cbn [app]. apply Permutation_middle. }
  destruct (H [] (SSorted_nil _)) as [Hp Hs]. now split.
Qed.

Lemma sorted_nodup_strict l :
  StronglySorted Z.le l -> List.NoDup l -> StronglySorted Z.lt l.
Proof.
  induction 1 as [| x l Hs IH Hx]; intros Hn; constructor;
    inversion Hn as [| ? ? Hnx Hn']; subst; auto.
  apply List.Forall_forall. intros y Hy.
  pose proof (proj1 (List.Forall_forall _ _) Hx y Hy).
  destruct (Z.eq_dec x y) as [-> | ]; [contradiction | lia].
Qed.

(** A strictly increasing list is determined by its elements. *)
Lemma sorted_lt_unique l1 : forall l2,
  StronglySorted Z.lt l1 -> StronglySorted Z.lt l2 ->
  (forall x, In x l1 <-> In x l2) -> l1 = l2.
Proof.
  induction l1 as [| x l1 IH]; intros [| y l2] H1 H2 Hin; trivial.
  - destruct (proj2 (Hin y) (or_introl eq_refl)).
  - destruct (proj1 (Hin x) (or_introl eq_refl)).
  - inversion H1 as [| ? ? Hs1 Hx]; inversion H2 as [| ? ? Hs2 Hy]; subst.
    pose proof (proj1 (List.Forall_forall _ _) Hx) as Hx'.
    pose proof (proj1 (List.Forall_forall _ _) Hy) as Hy'.
    assert (x = y) as ->.
    { destruct (proj1 (Hin x) (or_introl eq_refl)) as [-> | Hxy]; trivial.
      destruct (proj2 (Hin y) (or_introl eq_refl)) as [-> | Hyx]; trivial.
      specialize (Hx' _ Hyx). specialize (Hy' _ Hxy). lia. }
    f_equal. apply IH; trivial. intros z. split; intros Hz.
    + destruct (proj1 (Hin z) (or_intror Hz)) as [-> | ]; trivial.
      specialize (Hx' _ Hz). lia.
    + destruct (proj2 (Hin z) (or_intror Hz)) as [-> | ]; trivial.
      specialize (Hy' _ Hz). lia.
Qed.

Section SummaryMore.
Variable int_of_str : string -> option Z.

(** *** What the generator yields *)

Lemma row_tuples_length row idxs : forall ts,
  row_tuples int_of_str row idxs = Ok ts -> List.length ts = List.length idxs.
Proof.
  induction idxs as [| i idxs IH]; intros ts H; cbn [row_tuples] in H.
  - now inversion H.
  - destruct (player_tuple int_of_str row i); cbn [bind] in H; [| discriminate].
    destruct (row_tuples int_of_str row idxs) as [more |]; cbn [bind] in H; [| discriminate].
    inversion H; subst. cbn [List.length]. f_equal. now apply IH.
Qed.

Lemma iter_rows_inv rows : forall ts,
  iter_rows int_of_str rows = Ok ts ->
  exists tss,
    Forall2 (fun r four => row_tuples int_of_str r (seq 0 4) = Ok four) rows tss /\
    ts = concat tss.
Proof.
  induction rows as [| r rows IH]; intros ts H; cbn [iter_rows] in H.
  - inversion H. exists []. split; constructor.
  - destruct (row_tuples int_of_str r (seq 0 4)) as [four |] eqn:Er; cbn [bind] in H;
      [| discriminate].
    destruct (iter_rows int_of_str rows) as [more |]; cbn [bind] in H; [| discriminate].
    inversion H; subst. destruct (IH more eq_refl) as (tss & Hf & ->).
    exists (four :: tss). split; [now constructor | reflexivity].
Qed.

Lemma iter_rows_length rows ts :
  iter_rows int_of_str rows = Ok ts ->
  Z.of_nat (List.length ts) = 4 * Z.of_nat (List.length rows).
Proof.
  intros H. destruct (iter_rows_inv _ _ H) as (tss & Hf & ->). clear H.
  induction Hf as [| r four rows tss Hr _ IH]; cbn [concat List.length]; [reflexivity |].
  apply row_tuples_length in Hr. cbn [seq List.length] in Hr.
  rewrite length_app, Nat2Z.inj_add, IH, Hr. lia.
Qed.

Lemma select_rows_length cols conn a :
  List.length (select_rows cols conn (where_clause a)) = List.length (selected conn a).
Proof. unfold select_rows, selected. apply length_map. Qed.

(** The ranks of the four tuples of a row are its four rank cells. *)
Lemma row_tuples_ranks r four a b c d :
  nth 6 r SNull = SInt a -> nth 10 r SNull = SInt b ->
  nth 14 r SNull = SInt c -> nth 18 r SNull = SInt d ->
  row_tuples int_of_str (map (cell INSERT_COLUMNS r) player_columns) (seq 0 4) = Ok four ->
  map tuple_rank four = [a; b; c; d].
Proof.
  intros Ha Hb Hc Hd. cbn [row_tuples seq]. unfold player_tuple.
  cbn [map player_columns Nat.add Nat.mul nth].
  change (cell INSERT_COLUMNS r "player1_rank") with (nth 6 r SNull).
  change (cell INSERT_COLUMNS r "player2_rank") with (nth 10 r SNull).
  change (cell INSERT_COLUMNS r "player3_rank") with (nth 14 r SNull).
  change (cell INSERT_COLUMNS r "player4_rank") with (nth 18 r SNull).
  rewrite Ha, Hb, Hc, Hd. cbn [cell_int bind].
  repeat match goal with
  | |- context [cell_int int_of_str ?v] =>
      destruct (cell_int int_of_str v); cbn [bind]; [| discriminate]
  end.
  intros H. inversion H. reflexivity.
Qed.

(** *** The aggregates of [do_summary] *)

Lemma summary_fold ts : forall acc,
  sm_total (fold_left summary_step ts acc) = sm_total acc + Z.of_nat (List.length ts) /\
  (forall k, counter_get k (sm_counts (fold_left summary_step ts acc))
             = counter_get k (sm_counts acc)
               + zsum (fun t => if k =? tuple_rank t then 1 else 0) ts) /\
  (forall k, In k (counter_keys (sm_counts (fold_left summary_step ts acc)))
             <-> In k (counter_keys (sm_counts acc)) \/ In k (map tuple_rank ts)) /\
  (List.NoDup (counter_keys (sm_counts acc)) ->
   List.NoDup (counter_keys (sm_counts (fold_left summary_step ts acc)))) /\
  zsum snd (sm_counts (fold_left summary_step ts acc))
  = zsum snd (sm_counts acc) + Z.of_nat (List.length ts).
Proof.
  induction ts as [| [[[rank level] score] grade] ts IH]; intros acc; cbn [fold_left].
  - cbn. repeat split; try lia; tauto.
  - destruct (IH (summary_step acc (rank, level, score, grade)))
      as (H1 & H2 & H3 & H4 & H5).
    cbn [summary_step sm_total sm_counts] in *.
    cbn [List.length zsum map tuple_rank fst In]. rewrite Nat2Z.inj_succ.
    repeat split.
    + rewrite H1. lia.
    + intros k. rewrite H2, counter_get_add. lia.
    + rewrite H3, counter_keys_add. intuition.
    + rewrite H3, counter_keys_add. intuition.
    + intros Hn. apply H4. now apply counter_keys_nodup.
    + rewrite H5, counter_total_add. lia.
Qed.

Lemma rank_indicator_nonneg k ts :
  0 <= zsum (fun t => if k =? tuple_rank t then 1 else 0) ts /\
  (In k (map tuple_rank ts) <-> 0 < zsum (fun t => if k =? tuple_rank t then 1 else 0) ts).
Proof.
  induction ts as [| t ts [IH1 IH2]]; cbn [zsum map In].
  - split; [lia |]. split; [tauto | lia].
  - destruct (Z.eqb_spec k (tuple_rank t)) as [-> | Hne]; (split; [lia |]).
    + split; [intros _; lia | now left].
    + rewrite IH2. split; [intros [E | H]; [congruence | lia] | intros; right; lia].
Qed.

Lemma zsum_concat {A} (f : A -> Z) tss :
  zsum f (concat tss) = zsum (fun ts => zsum f ts) tss.
Proof. induction tss as [| ts tss IH]; cbn [concat zsum]; [reflexivity |]. now rewrite zsum_app, IH. Qed.

Lemma zsum_const {A} c (l : list A) : zsum (fun _ => c) l = c * Z.of_nat (List.length l).
Proof. induction l as [| x l IH]; cbn [zsum List.length]; lia. Qed.

(** On a selection of well-ranked rows each of the ranks 1 to 4 comes once
    for each row, and no other rank comes at all. *)
Lemma well_ranked_rank_count conn a ts k :
  forallb well_ranked conn = true ->
  iter_player_rows int_of_str conn a = Ok ts ->
  zsum (fun t => if k =? tuple_rank t then 1 else 0) ts
  = if (1 <=? k) && (k <=? 4) then Z.of_nat (List.length (selected conn a)) else 0.
Proof.
  intros Hw H. unfold iter_player_rows in H.
  destruct (iter_rows_inv _ _ H) as (tss & Hf & ->). clear H.
  rewrite zsum_concat. unfold select_rows in Hf. fold (selected conn a) in Hf.
  assert (Hs : Forall (fun r => well_ranked r = true) (selected conn a)).
  { apply List.Forall_forall. intros r Hin. apply filter_In in Hin as [Hin _].
    exact (proj1 (forallb_forall _ _) Hw r Hin). }
  revert tss Hf. induction Hs as [| r rows Hr _ IH]; intros tss Hf; cbn [map] in Hf.
  - inversion Hf; subst. cbn. now destruct (_ && _).
  - inversion Hf as [| ? four ? tss' Hfour Hrest]; subst.
    cbn [zsum List.length]. rewrite (IH _ Hrest), Nat2Z.inj_succ.
    destruct (well_ranked_cells _ Hr) as (x & y & z & w & Hx & Hy & Hz & Hw' & _ & Hp).
    pose proof (row_tuples_ranks _ _ _ _ _ _ Hx Hy Hz Hw' Hfour) as Hranks.
    assert (Hone : zsum (fun t => if k =? tuple_rank t then 1 else 0) four
                   = zsum (fun v => if k =? v then 1 else 0) [1; 2; 3; 4]).
    { rewrite <- (zsum_perm _ _ _ Hp), <- Hranks, zsum_map. reflexivity. }
    rewrite Hone. cbn [zsum].
    destruct (Z.eqb_spec k 1), (Z.eqb_spec k 2), (Z.eqb_spec k 3), (Z.eqb_spec k 4),
      (Z.leb_spec 1 k), (Z.leb_spec k 4); cbn [andb]; lia.
Qed.

(** X20.  What [summary] prints.  With no selected game it says so.  Otherwise
    the lines come by strictly increasing rank; the counts of the lines add
    up to four times the number of selected games, which is the total the
    percentages are taken of; every line counts at least one player, so no
    average divides by zero.  On a table in which the ranks of every row are
    1, 2, 3, 4 in some order there are exactly four lines, for the ranks 1
    to 4, and the count of each is the number of selected games: a quarter
    of the players each. *)
Theorem do_summary_counts conn a rep :
  do_summary int_of_str conn a = Ok rep ->
  match rep with
  | NoRows => selected conn a = []
  | Printed lines =>
      selected conn a <> [] /\
      StronglySorted Z.lt (map rr_rank lines) /\
      zsum rr_count lines = 4 * Z.of_nat (List.length (selected conn a)) /\
      Forall (fun l =>
                0 < rr_count l /\
                rr_percent l
                = Ratio (rr_count l) (4 * Z.of_nat (List.length (selected conn a))) /\
                den_of (rr_avg_score l) = rr_count l /\
                den_of (rr_avg_grade l) = rr_count l /\
                den_of (rr_avg_level l) = rr_count l) lines /\
      (forallb well_ranked conn = true ->
       map (fun l => (rr_rank l, rr_count l)) lines
       = map (fun k => (k, Z.of_nat (List.length (selected conn a)))) [1; 2; 3; 4])
  end.
Proof.
  unfold do_summary.
  destruct (iter_player_rows int_of_str conn a) as [ts |] eqn:Ei; cbn [bind]; [| discriminate].
  pose proof Ei as Hlen. unfold iter_player_rows in Hlen.
  apply iter_rows_length in Hlen. rewrite select_rows_length in Hlen.
  destruct (summary_fold ts (SummaryAcc [] [] [] [] 0)) as (H1 & H2 & H3 & H4 & H5).
  set (acc := fold_left summary_step ts (SummaryAcc [] [] [] [] 0)) in *.
  cbn [sm_total sm_counts counter_get counter_keys map In zsum] in H1, H2, H3, H4, H5.
  specialize (H4 (List.NoDup_nil _)).
  destruct (Z.eqb_spec (sm_total acc) 0) as [E | Hne]; intros [= <-].
  - destruct (selected conn a); [reflexivity | cbn [List.length] in Hlen; lia].
  - destruct (sorted_keys_spec (counter_keys (sm_counts acc))) as [Hperm Hsorted].
    assert (Hnodup : List.NoDup (sorted_keys (counter_keys (sm_counts acc)))).
    { eapply Permutation_NoDup; [symmetry; exact Hperm | exact H4]. }
    assert (Hstrict := sorted_nodup_strict _ Hsorted Hnodup).
    split; [| split; [| split; [| split]]].
    + intros E. rewrite E in Hlen. cbn [List.length] in Hlen. lia.
    + now rewrite map_map, map_id.
    + rewrite <- Hlen, <- (Z.add_0_l (Z.of_nat (List.length ts))), <- H5.
      rewrite <- (counter_keys_sum _ H4), <- (zsum_perm _ _ _ Hperm).
      now rewrite zsum_map.
    + apply Forall_map. apply List.Forall_forall. intros k Hk.
      cbn [rr_count rr_percent rr_avg_score rr_avg_grade rr_avg_level den_of].
      assert (Hin : In k (counter_keys (sm_counts acc))).
      { eapply Permutation_in; [exact Hperm | exact Hk]. }
      apply H3 in Hin as [[] | Hin].
      apply (rank_indicator_nonneg k ts) in Hin.
      rewrite H2. repeat split; try lia. f_equal. lia.
    + intros Hw. rewrite map_map. cbn [rr_rank rr_count].
      assert (Hcount : forall k, counter_get k (sm_counts acc)
                = if (1 <=? k) && (k <=? 4)
                  then Z.of_nat (List.length (selected conn a)) else 0).
      { intros k. rewrite H2. now apply well_ranked_rank_count. }
      assert (Hkeys : sorted_keys (counter_keys (sm_counts acc)) = [1; 2; 3; 4]).
      { apply sorted_lt_unique; trivial.
        - repeat constructor.
        - intros k.
          assert (Hpk : In k (sorted_keys (counter_keys (sm_counts acc)))
                        <-> In k (counter_keys (sm_counts acc)))
            by (split; apply Permutation_in; [exact Hperm | symmetry; exact Hperm]).
          rewrite Hpk, H3.
          pose proof (rank_indicator_nonneg k ts) as [_ Hiff].
          rewrite Hiff, <- (Z.add_0_l (zsum _ ts)), <- H2, Hcount.
          cbn [In].
          destruct (Z.leb_spec 1 k), (Z.leb_spec k 4); cbn [andb]; lia. }
      rewrite Hkeys. cbn [map]. now rewrite !Hcount.
Qed.

End SummaryMore.

Section CorrelationMore.
Variable int_of_str : string -> option Z.

Lemma corr_fold level_bin ts : forall acc,
  let acc' := fold_left (corr_step level_bin) ts acc in
  rc_total acc' = rc_total acc + Z.of_nat (List.length ts) /\
  (forall k, counter_get k (rc_counts acc')
             = counter_get k (rc_counts acc)
               + zsum (fun t => if in_bucket level_bin k t then 1 else 0) ts) /\
  (forall k, counter_get k (rc_place1 acc')
             = counter_get k (rc_place1 acc)
               + zsum (fun t => if in_bucket level_bin k t && (tuple_rank t =? 1)
                                then 1 else 0) ts) /\
  (forall k, counter_get k (rc_place2 acc')
             = counter_get k (rc_place2 acc)
               + zsum (fun t => if in_bucket level_bin k t && (tuple_rank t =? 2)
                                then 1 else 0) ts) /\
  (forall k, counter_get k (rc_place3 acc')
             = counter_get k (rc_place3 acc)
               + zsum (fun t => if in_bucket level_bin k t && (tuple_rank t =? 3)
                                then 1 else 0) ts) /\
  (forall k, counter_get k (rc_place4 acc')
             = counter_get k (rc_place4 acc)
               + zsum (fun t => if in_bucket level_bin k t && (tuple_rank t =? 4)
                                then 1 else 0) ts) /\
  (forall k, In k (counter_keys (rc_counts acc'))
             <-> In k (counter_keys (rc_counts acc))
                 \/ In k (map (fun t => bucket_level (tuple_level t) level_bin) ts)) /\
  (List.NoDup (counter_keys (rc_counts acc)) ->
   List.NoDup (counter_keys (rc_counts acc'))) /\
  zsum snd (rc_counts acc') = zsum snd (rc_counts acc) + Z.of_nat (List.length ts).
Proof.
  induction ts as [| [[[rank level] score] grade] ts IH]; intros acc; cbn [fold_left].
  - cbn. repeat split; try lia; tauto.
  - specialize (IH (corr_step level_bin acc (rank, level, score, grade))).
    cbn zeta in IH |- *.
    destruct IH as (H1 & H2 & P1 & P2 & P3 & P4 & H3 & H4 & H5).
    cbn [corr_step rc_total rc_counts rc_place1 rc_place2 rc_place3 rc_place4] in *.
    cbn [List.length zsum map In]. unfold in_bucket at 1 3 5 7 9.
    cbn [tuple_level tuple_rank fst snd]. rewrite Nat2Z.inj_succ.
    split; [lia |]. split; [| split; [| split; [| split; [| split; [| split; [| split]]]]]].
    + intros k. rewrite H2, counter_get_add. lia.
    + intros k. rewrite P1. destruct (rank =? 1); rewrite ?counter_get_add, ?andb_true_r,
        ?andb_false_r; lia.
    + intros k. rewrite P2.
      destruct (Z.eqb_spec rank 1), (Z.eqb_spec rank 2);
        rewrite ?counter_get_add, ?andb_true_r, ?andb_false_r; lia.
    + intros k. rewrite P3.
      destruct (Z.eqb_spec rank 1), (Z.eqb_spec rank 2), (Z.eqb_spec rank 3);
        rewrite ?counter_get_add, ?andb_true_r, ?andb_false_r; lia.
    + intros k. rewrite P4.
      destruct (Z.eqb_spec rank 1), (Z.eqb_spec rank 2), (Z.eqb_spec rank 3),
        (Z.eqb_spec rank 4);
        rewrite ?counter_get_add, ?andb_true_r, ?andb_false_r; lia.
    + intros k. rewrite H3, counter_keys_add. intuition.
    + intros Hn. apply H4. now apply counter_keys_nodup.
    + rewrite H5, counter_total_add. lia.
Qed.

Lemma bucket_indicator level_bin k ts :
  0 <= zsum (fun t => if in_bucket level_bin k t then 1 else 0) ts /\
  (In k (map (fun t => bucket_level (tuple_level t) level_bin) ts)
   <-> 0 < zsum (fun t => if in_bucket level_bin k t then 1 else 0) ts).
Proof.
  unfold in_bucket.
  induction ts as [| t ts [IH1 IH2]]; cbn [zsum map In].
  - split; [lia |]. split; [tauto | lia].
  - destruct (Z.eqb_spec k (bucket_level (tuple_level t) level_bin)) as [-> | Hne];
      (split; [lia |]).
    + split; [intros _; lia | now left].
    + rewrite IH2. split; [intros [E | H]; [congruence | lia] | intros; right; lia].
Qed.

(** The places of a bucket: none is negative, together they are at most
    the players of the bucket, and exactly those when every rank is one of
    1 to 4. *)
Lemma places_of_bucket level_bin k ts :
  let p i := zsum (fun t => if in_bucket level_bin k t && (tuple_rank t =? i)
                            then 1 else 0) ts in
  0 <= p 1 /\ 0 <= p 2 /\ 0 <= p 3 /\ 0 <= p 4 /\
  p 1 + p 2 + p 3 + p 4 <= zsum (fun t => if in_bucket level_bin k t then 1 else 0) ts /\
  (Forall (fun t => 1 <= tuple_rank t <= 4) ts ->
   p 1 + p 2 + p 3 + p 4 = zsum (fun t => if in_bucket level_bin k t then 1 else 0) ts).
Proof.
  cbn zeta. induction ts as [| t ts (H1 & H2 & H3 & H4 & H5 & H6)]; cbn [zsum].
  - repeat split; lia.
  - destruct (in_bucket level_bin k t); cbn [andb];
      destruct (Z.eqb_spec (tuple_rank t) 1), (Z.eqb_spec (tuple_rank t) 2),
        (Z.eqb_spec (tuple_rank t) 3), (Z.eqb_spec (tuple_rank t) 4);
      repeat split; try lia;
      intros Hf; inversion Hf; subst; specialize (H6 ltac:(assumption)); lia.
Qed.

Lemma well_ranked_ranks conn a ts :
  forallb well_ranked conn = true ->
  iter_player_rows int_of_str conn a = Ok ts ->
  Forall (fun t => 1 <= tuple_rank t <= 4) ts.
Proof.
  intros Hw H. unfold iter_player_rows in H.
  destruct (iter_rows_inv _ _ _ H) as (tss & Hf & ->). clear H.
  unfold select_rows in Hf. fold (selected conn a) in Hf.
  assert (Hs : Forall (fun r => well_ranked r = true) (selected conn a)).
  { apply List.Forall_forall. intros r Hin. apply filter_In in Hin as [Hin _].
    exact (proj1 (forallb_forall _ _) Hw r Hin). }
  revert tss Hf. induction Hs as [| r rows Hr _ IH]; intros tss Hf; cbn [map] in Hf.
  - inversion Hf; subst. constructor.
  - inversion Hf as [| ? four ? tss' Hfour Hrest]; subst.
    cbn [concat]. apply Forall_app. split; [| now apply IH].
    destruct (well_ranked_cells _ Hr) as (x & y & z & w & Hx & Hy & Hz & Hw' & _ & Hp).
    pose proof (row_tuples_ranks _ _ _ _ _ _ _ Hx Hy Hz Hw' Hfour) as Hranks.
    apply List.Forall_forall. intros t Ht.
    assert (Hin : In (tuple_rank t) [x; y; z; w]) by (rewrite <- Hranks; now apply in_map).
    apply (Permutation_in _ Hp) in Hin. cbn in Hin. lia.
Qed.

(** X21.  What [rank-correlation] prints.  With no selected game it says so.
    Otherwise the lines come by strictly increasing level bucket; their
    counts add up to four times the number of selected games; every line
    counts at least one player, so no share or average divides by zero; the
    four place counts of a line are not negative and together at most its
    count, and exactly its count on a table in which the ranks of every row
    are 1, 2, 3, 4 in some order; and with [--level-bin level10] every
    bucket is a multiple of ten. *)
Theorem do_rank_correlation_counts conn a rep :
  do_rank_correlation int_of_str conn a = Ok rep ->
  match rep with
  | NoRows => selected conn a = []
  | Printed lines =>
      selected conn a <> [] /\
      StronglySorted Z.lt (map lr_level lines) /\
      zsum lr_count lines = 4 * Z.of_nat (List.length (selected conn a)) /\
      Forall (fun l =>
                0 < lr_count l /\
                map den_of [lr_p1 l; lr_p2 l; lr_p3 l; lr_p4 l;
                            lr_avg_place l; lr_avg_score l; lr_avg_grade l]
                = repeat (lr_count l) 7 /\
                Forall (fun p => 0 <= num_of p) [lr_p1 l; lr_p2 l; lr_p3 l; lr_p4 l] /\
                num_of (lr_p1 l) + num_of (lr_p2 l) + num_of (lr_p3 l) + num_of (lr_p4 l)
                <= lr_count l /\
                (forallb well_ranked conn = true ->
                 num_of (lr_p1 l) + num_of (lr_p2 l) + num_of (lr_p3 l) + num_of (lr_p4 l)
                 = lr_count l) /\
                (args_level_bin a = "level10" -> lr_level l mod 10 = 0)) lines
  end.
Proof.
  unfold do_rank_correlation.
  destruct (iter_player_rows int_of_str conn a) as [ts |] eqn:Ei; cbn [bind]; [| discriminate].
  pose proof Ei as Hlen. unfold iter_player_rows in Hlen.
  apply iter_rows_length in Hlen. rewrite select_rows_length in Hlen.
  pose proof (corr_fold (args_level_bin a) ts (CorrAcc [] [] [] [] [] [] [] [] 0)) as Hfold.
  cbn zeta in Hfold.
  set (acc := fold_left (corr_step (args_level_bin a)) ts (CorrAcc [] [] [] [] [] [] [] [] 0))
    in *.
  destruct Hfold as (H1 & H2 & P1 & P2 & P3 & P4 & H3 & H4 & H5).
  cbn [rc_total rc_counts rc_place1 rc_place2 rc_place3 rc_place4
       counter_get counter_keys map In zsum] in H1, H2, P1, P2, P3, P4, H3, H4, H5.
  specialize (H4 (List.NoDup_nil _)).
  destruct (Z.eqb_spec (rc_total acc) 0) as [E | Hne]; intros [= <-].
  - destruct (selected conn a); [reflexivity | cbn [List.length] in Hlen; lia].
  - destruct (sorted_keys_spec (counter_keys (rc_counts acc))) as [Hperm Hsorted].
    assert (Hnodup : List.NoDup (sorted_keys (counter_keys (rc_counts acc)))).
    { eapply Permutation_NoDup; [symmetry; exact Hperm | exact H4]. }
    assert (Hstrict := sorted_nodup_strict _ Hsorted Hnodup).
    split; [| split; [| split]].
    + intros E. rewrite E in Hlen. cbn [List.length] in Hlen. lia.
    + now rewrite map_map, map_id.
    + rewrite <- Hlen, <- (Z.add_0_l (Z.of_nat (List.length ts))), <- H5.
      rewrite <- (counter_keys_sum _ H4), <- (zsum_perm _ _ _ Hperm).
      now rewrite zsum_map.
    + apply Forall_map. apply List.Forall_forall. intros k Hk.
      cbn [lr_level lr_count lr_p1 lr_p2 lr_p3 lr_p4 lr_avg_place lr_avg_score
           lr_avg_grade den_of num_of map repeat].
      assert (Hin : In k (counter_keys (rc_counts acc))).
      { eapply Permutation_in; [exact Hperm | exact Hk]. }
      apply H3 in Hin as [[] | Hin].
      pose proof (places_of_bucket (args_level_bin a) k ts) as Hpl. cbn zeta in Hpl.
      destruct Hpl as (Q1 & Q2 & Q3 & Q4 & Q5 & Q6).
      rewrite H2, P1, P2, P3, P4.
      split; [apply (bucket_indicator (args_level_bin a) k ts) in Hin; lia |].
      split; [reflexivity |].
      split; [repeat constructor; cbn [num_of]; lia |].
      split; [lia |]. split.
      * intros Hw. pose proof (well_ranked_ranks conn a ts Hw Ei) as Hr.
        specialize (Q6 Hr). lia.
      * intros Hb. apply in_map_iff in Hin as (t & <- & _). rewrite Hb.
        apply bucket_level10.
Qed.

End CorrelationMore.

(** ** What [--verbose] and [--csv] change *)

(** *** Verbose runs *)

Section VerboseMore.
Variable int_of_str : string -> option Z.
Variable id_text : json -> option string.


Section Run.
Variable api : nat -> Z -> Z -> option json.
Variables (mode start_ms limit max_pages recent_count : Z).





End Run.
End VerboseMore.

(** *** The files of the compare commands *)

Section FilesMore.
Variable int_of_str : string -> option Z.
Variables do_summary do_export do_rank_correlation
  : list dbrow -> args -> list event * exc unit.

(** X23.  [compare-all] needs [--csv], which its parser leaves optional:
    without it the command opens no file, writes nothing, and the process
    ends with the error on standard error and exit code 1, whatever the
    table holds. *)
Theorem main_compare_all_without_csv conn a :
  args_cmd a = "compare-all" ->
  args_csv a = None ->
  main int_of_str do_summary do_export do_rank_correlation conn a
  = ([StderrError TypeError], 1).
Proof.
  intros Hc Hn. unfold main, do_compare_all. rewrite Hc, Hn. reflexivity.
Qed.




End FilesMore.

(** ** Evaluations: witnesses and counterexamples *)

Example demo_game_row : extract_row decimal_int_of_str demo_game None = Some demo_row.
Proof. reflexivity. Qed.

Lemma extract_row_rank_assignment_witness :
  extract_row decimal_int_of_str demo_game None = Some demo_row /\
  Permutation (row_ranks demo_row) [1; 2; 3; 4] /\
  nth 0 (row_ranks demo_row) 0 < nth 2 (row_ranks demo_row) 0.
Proof.
  pose proof (extract_row_rank_assignment decimal_int_of_str demo_game None demo_row eq_refl)
    as (Hperm & _ & Htie & _).
  split; [reflexivity |]. split; [exact Hperm |].
  apply (Htie 0%nat 2%nat); [lia | reflexivity].
Defined.

Lemma rank_expr_matches_sort_witness :
  map (fun k => eval_item non_rank_columns (nth 1 (t_rows legacy_table) [])
                          (rank_expr (S k))) (seq 0 4)
  = map SInt (compute_ranks [30000; 30000; 20000; 20000]).
Proof.
  pose proof (rank_expr_matches_sort decimal_int_of_str non_rank_columns
                (nth 1 (t_rows legacy_table) []) 30000 30000 20000 20000
                eq_refl eq_refl eq_refl eq_refl) as [H _].
  cbn [map seq].
  rewrite (H 0%nat), (H 1%nat), (H 2%nat), (H 3%nat) by lia.
  reflexivity.
Defined.

Lemma cycling_api_never_finishes int_of_str id_text fuel : forall st,
  current_end st = 999999999000 \/ current_end st = 1000000000500 ->
  exists st',
    fetch_loop int_of_str id_text cycling_api 12 0 100000 0 0 false fuel st
    = OutOfFuel st'.
Proof.
  induction fuel as [| fuel IH]; intros [p t c s cn r] Hc; cbn [current_end] in Hc.
  - destruct Hc as [-> | ->]; eexists; reflexivity.
  - destruct Hc as [-> | ->]; cbn [fetch_loop current_end];
      change (999999999000 <? 0) with false; change (1000000000500 <? 0) with false;
      cbv iota.
    + replace (loop_body int_of_str id_text cycling_api 12 0 100000 0 0 false
                 (Run p t 999999999000 s cn r))
        with (Continue (Run (p + 1) (t + 0) 1000000000500 s cn (S r))) by reflexivity.
      apply IH. now right.
    + replace (loop_body int_of_str id_text cycling_api 12 0 100000 0 0 false
                 (Run p t 1000000000500 s cn r))
        with (Continue (Run (p + 1) (t + 0) 999999999000 s cn (S r))) by reflexivity.
      apply IH. now left.
Qed.

Lemma cursor_can_increase :
  next_cursor 999999999000 1000000000501 = 1000000000500 /\
  999999999000 < next_cursor 999999999000 1000000000501 /\
  loop_body decimal_int_of_str str_id_text cycling_api 12 0 100000 0 0 false
            (Run 0 0 999999999000 [] [] 0)
  = Continue (Run 1 0 1000000000500 [] [] 1) /\
  fetch_and_store decimal_int_of_str str_id_text cycling_api 12 0 100000 0 0 false
                  None 999999999000 40
  = OutOfFuel (Run 40 0 999999999000 [] [] 40).
Proof. repeat split; vm_compute; reflexivity. Qed.

Lemma pagination_terminates_witness :
  match fetch_and_store decimal_int_of_str str_id_text cycling_api 12
                        (10 ^ 12) 100000 0 0 false None (10 ^ 12 + 10) 11 with
  | OutOfFuel _ => False
  | _ => True
  end.
Proof.
  refine (proj2 (proj2 (proj2
    (pagination_terminates decimal_int_of_str str_id_text cycling_api 12 (10 ^ 12)
       100000 0 0 false None (10 ^ 12 + 10) (or_introl _)))) 11%nat _).
  - discriminate.
  - vm_compute. lia.
Defined.

Lemma recent_mode_respects_target_witness :
  match fetch_and_store decimal_int_of_str str_id_text two_page_api 12 0 100000 0 1
                        false None 1700000500000 6 with
  | Done st | OutOfFuel st => 0 <= total_inserted st <= 1
  | Aborted _ => True
  end.
Proof.
  refine (proj1 (recent_mode_respects_target decimal_int_of_str str_id_text two_page_api
                   12 0 100000 0 1 false _) None 1700000500000 6%nat).
  reflexivity.
Defined.



Lemma rejection_outside_the_list :
  extract_row decimal_int_of_str timeless_game None = None /\
  listed_rejection decimal_int_of_str timeless_game None = false.
Proof. split; reflexivity. Qed.



Lemma main_equal_levels_exit_code_witness :
  main decimal_int_of_str no_command no_command no_command [] equal_levels_args
  = ([Stderr "Error: --level-a and --level-b must be different"], 0).
Proof.
  exact (main_equal_levels_exit_code decimal_int_of_str no_command no_command no_command
           [] equal_levels_args eq_refl eq_refl).
Defined.

(** ** Evaluations of the further statements *)

Lemma extract_row_fields_witness :
  extract_row decimal_int_of_str demo_game None = Some demo_row /\
  List.length (row_vals demo_row) = 16%nat /\
  row_id demo_row = JStr "g1" /\
  extract_row decimal_int_of_str demo_game (Some 9) = Some demo_row.
Proof.
  pose proof (extract_row_fields decimal_int_of_str demo_game None demo_row eq_refl)
    as (Hlen & _ & _ & Hid & _ & Hmode).
  split; [reflexivity |]. split; [exact Hlen |]. split; [exact Hid |].
  exact (proj2 (Hmode eq_refl) (Some 9)).
Defined.


Lemma insert_games_appends_witness :
  insert_games decimal_int_of_str str_id_text [] [demo_game; demo_game] None false
  = Ok ([demo_cells], (1, 1)) /\
  exists added,
    [demo_cells] = [] ++ added /\ 1 = Z.of_nat (List.length added) /\
    Forall (row_of_batch decimal_int_of_str str_id_text None [demo_game; demo_game]) added.
Proof.
  split; [reflexivity |].
  exact (insert_games_appends decimal_int_of_str str_id_text [] [demo_game; demo_game]
           None false [demo_cells] 1 1 eq_refl).
Defined.


Lemma insert_games_capped_accounts_witness :
  insert_games_capped decimal_int_of_str str_id_text [] [demo_game; demo_game] None 0 None
  = Ok (Capped [demo_cells] [JStr "g1"] 1 0 true 1) /\
  (1 <= Z.of_nat (List.length [demo_game; demo_game])) /\
  (true = true <-> 1 = Z.max 1 0).
Proof.
  pose proof (insert_games_capped_accounts decimal_int_of_str str_id_text []
                [demo_game; demo_game] None 0 None
                (Capped [demo_cells] [JStr "g1"] 1 0 true 1) eq_refl)
    as (_ & _ & Hp & _ & Hr & _).
  split; [reflexivity |]. split; [exact Hp | exact Hr].
Defined.

Lemma ensure_schema_idempotent_witness :
  exists t',
    ensure_schema (Some legacy_table) = Ok (Some t') /\
    t_cols t' = INSERT_COLUMNS /\
    List.length (t_rows t') = 2%nat /\
    ensure_schema (Some t') = Ok (Some t').
Proof.
  destruct (ensure_schema_idempotent (Some legacy_table) _ eq_refl)
    as (t' & E & Hc & Hl & Hi).
  exists t'. rewrite <- E. repeat split; trivial.
Defined.

Lemma fetch_and_store_max_pages_witness :
  fetch_and_store decimal_int_of_str str_id_text cycling_api 12 0 100000 3 0 false
                  None 999999999000 3
  = Done (Run 3 0 1000000000500 [] [] 3) /\
  0 <= pages (Run 3 0 1000000000500 [] [] 3) <= Z.max 1 3.
Proof.
  assert (E : fetch_and_store decimal_int_of_str str_id_text cycling_api 12 0 100000 3 0
                              false None 999999999000 3
              = Done (Run 3 0 1000000000500 [] [] 3)) by (vm_compute; reflexivity).
  split; [exact E |].
  pose proof (fetch_and_store_max_pages decimal_int_of_str str_id_text cycling_api
                12 0 100000 3 0 false None 999999999000 3 ltac:(lia) ltac:(cbn; lia)) as H.
  rewrite E in H. exact H.
Defined.

Lemma compute_compare_summary_counts_witness :
  exists s,
    compute_compare_summary decimal_int_of_str report_store compare_levels_args 10301 10302
    = Ok (Some s) /\
    s_instances s = 2 /\ s_a_better s + s_b_better s = s_instances s.
Proof.
  eexists. split; [reflexivity |].
  pose proof (compute_compare_summary_counts decimal_int_of_str report_store
                compare_levels_args 10301 10302 _ eq_refl) as H.
  split; [reflexivity |]. now apply H.
Defined.

Lemma do_compare_levels_agrees_witness :
  exists evs s,
    compute_compare_summary decimal_int_of_str report_store compare_levels_args 10301 10302
    = Ok (Some s) /\
    do_compare_levels decimal_int_of_str report_store compare_levels_args
    = (evs ++ [Stdout "level_a,level_b,instances,a_better,b_better,avg_rank_diff,avg_score_diff,avg_grade_diff";
               SummaryLine 10301 10302 s],
       Ok tt).
Proof.
  pose proof (do_compare_levels_agrees decimal_int_of_str report_store compare_levels_args
                ltac:(discriminate)) as H.
  cbn [args_level_a args_level_b compare_levels_args] in H.
  destruct (compute_compare_summary decimal_int_of_str report_store compare_levels_args
              10301 10302) as [[s |] | e] eqn:E; try discriminate E.
  destruct H as [evs H]. exists evs, s. now split.
Defined.


Lemma where_clause_selects_witness :
  selected report_store narrow_args = [nth 0 report_store []] /\
  forallb (clause_holds (nth 0 report_store [])) (where_clause narrow_args) = true.
Proof.
  split; [reflexivity |].
  apply (where_clause_selects narrow_args (nth 0 report_store []) 9 1700000000
           eq_refl eq_refl).
  cbn. repeat split; intros ? [= <-]; lia.
Defined.


Lemma do_summary_counts_witness :
  exists lines,
    do_summary decimal_int_of_str report_store export_args = Ok (Printed lines) /\
    map (fun l => (rr_rank l, rr_count l)) lines = [(1, 2); (2, 2); (3, 2); (4, 2)].
Proof.
  eexists. split; [vm_compute; reflexivity |].
  pose proof (do_summary_counts decimal_int_of_str report_store export_args _
                ltac:(vm_compute; reflexivity)) as (_ & _ & _ & _ & H).
  rewrite (H ltac:(vm_compute; reflexivity)). vm_compute. reflexivity.
Defined.

Lemma do_rank_correlation_counts_witness :
  exists lines,
    do_rank_correlation decimal_int_of_str report_store correlation_args
    = Ok (Printed lines) /\
    map lr_level lines = [10300; 10400; 10500] /\
    zsum lr_count lines = 4 * Z.of_nat (List.length (selected report_store correlation_args)).
Proof.
  eexists. split; [vm_compute; reflexivity |].
  pose proof (do_rank_correlation_counts decimal_int_of_str report_store correlation_args _
                ltac:(vm_compute; reflexivity)) as (_ & _ & Hsum & _).
  split; [vm_compute; reflexivity | exact Hsum].
Defined.

Lemma main_compare_all_without_csv_witness :
  main decimal_int_of_str no_command no_command no_command report_store no_csv_args
  = ([StderrError TypeError], 1).
Proof.
  exact (main_compare_all_without_csv decimal_int_of_str no_command no_command no_command
           report_store no_csv_args eq_refl eq_refl).
Defined.


(** A run in recent mode ends with exit code 0 once the pages are
    through. *)
Example main_recent_run :
  Fetcher.main decimal_int_of_str str_id_text two_page_api 0 recent_args None 10 = Some 0.
Proof. reflexivity. Qed.
